(** * gate4ai/mcp: the reloadable configuration store and the task protocol

  A shallow embedding of
  - [shared/config/yaml.go] (module [SharedConfig]): the YAML-backed store
    with the SSL and A2A agent-card fields;
  - the earlier revision of the same store that carries the file watcher
    (module [WatchedConfig]);
  - the task protocol whose client and backend are exercised by
    [tests/a2a_client_test.go] (module [A2A]).

  Go maps are [gmap]s, Go pointers and slices are locations in an explicit
  heap, so that a value handed to a caller can alias the store or not,
  exactly as in the source. *)

From Stdlib Require Import ZArith Ascii.
From stdpp Require Import base tactics option list strings gmap fin_maps.

Local Open Scope string_scope.
Local Open Scope list_scope.

(** ** Go prelude: errors, results, strings, the heap *)

Module Go.

(** [error] values the store produces or passes on. *)
Inductive error :=
| ErrNotFound
| ErrOS (msg : string)                   (* from os.ReadFile *)
| ErrYAML (msg : string)                 (* from yaml.Unmarshal *)
| ErrWrap (prefix : string) (e : error). (* fmt.Errorf("prefix: %w", e) *)

#[global] Instance error_eq_dec : EqDecision error.
Proof. solve_decision. Defined.

(** A Go [(T, error)] pair in which [err != nil] makes the value moot. *)
Inductive result (A : Type) :=
| Ok (a : A)
| Err (e : error).
Arguments Ok {A} a.
Arguments Err {A} e.

Definition is_Err {A} (r : result A) : Prop :=
  match r with Ok _ => False | Err _ => True end.

(** *** [strings.ToLower]

    The standard library lowers an all-ASCII string byte by byte and sends
    every other string through [unicode.ToLower]; the Unicode tables are
    not part of this repository, so that second path is a parameter. *)

Definition isUpperByte (c : ascii) : bool :=
  let n := Ascii.N_of_ascii c in ((65 <=? n) && (n <=? 90))%N.

Definition lowerByte (c : ascii) : ascii :=
  if isUpperByte c then Ascii.ascii_of_N (Ascii.N_of_ascii c + 32) else c.

Fixpoint isASCII (s : string) : bool :=
  match s with
  | EmptyString => true
  | String c rest => (Ascii.N_of_ascii c <? 128)%N && isASCII rest
  end.

Fixpoint mapBytes (f : ascii -> ascii) (s : string) : string :=
  match s with
  | EmptyString => EmptyString
  | String c rest => String (f c) (mapBytes f rest)
  end.

Definition ToLower (unicodeLower : string -> string) (s : string) : string :=
  if isASCII s then mapBytes lowerByte s else unicodeLower s.

(** *** Heap

    A pointer or a slice is a location; [make], [&T{...}] and composite
    literals allocate the next free cell.  The runtime never hands out the
    address of a live object twice, which bump allocation renders. *)

Definition loc := nat.

Record Backend := mkBackend { URL : string; Bearer : string }.

#[global] Instance Backend_eq_dec : EqDecision Backend.
Proof. solve_decision. Defined.

Inductive object :=
| ObjBackend (b : Backend)              (* the target of a *Backend *)
| ObjStrings (elems : list string)      (* the array behind a []string *)
| ObjParams (m : gmap string string).   (* a map[string]string *)

Abbreviation heap := (list object).

(** The state-and-allocation monad the store's methods run in. *)
Definition M (A : Type) : Type := heap -> A * heap.

Definition ret {A} (a : A) : M A := fun h => (a, h).
Definition bind {A B} (m : M A) (k : A -> M B) : M B :=
  fun h => let '(a, h') := m h in k a h'.

Definition alloc (o : object) : M loc := fun h => (List.length h, h ++ [o]).

(** A slice header: [None] is the nil slice. *)
Definition slice := option loc.

Definition strings_at (h : heap) (l : loc) : list string :=
  match h !! l with
  | Some (ObjStrings xs) => xs
  | _ => []
  end.

Definition elems (h : heap) (s : slice) : list string :=
  match s with
  | None => []
  | Some l => strings_at h l
  end.

Definition backend_at (h : heap) (l : loc) : option Backend :=
  match h !! l with
  | Some (ObjBackend b) => Some b
  | _ => None
  end.

Definition params_at (h : heap) (l : loc) : option (gmap string string) :=
  match h !! l with
  | Some (ObjParams m) => Some m
  | _ => None
  end.

(** Reads through a slice, a [*Backend] and a [map[string]string].  The
    store never holds a dangling pointer; where a state is not well formed
    the read yields the zero value. *)
Definition readStrings (s : slice) : M (list string) :=
  fun h => (elems h s, h).
Definition readBackend (p : loc) : M Backend :=
  fun h => (default (mkBackend "" "") (backend_at h p), h).
Definition readParams (p : loc) : M (gmap string string) :=
  fun h => (default ∅ (params_at h p), h).

(** What a caller can do with a pointer, slice or map it holds: overwrite
    the cell behind it ([p.URL = v], [s[i] = v], [m[k] = v], [delete]). *)
Definition poke (h : heap) (l : loc) (o : object) : heap := <[l := o]> h.

(** [make([]string, len(xs))] followed by [copy], a composite literal, or
    a slice out of the parser entering the store: a fresh array. *)
Definition newStrings (xs : list string) : M slice :=
  bind (alloc (ObjStrings xs)) (fun l => ret (Some l)).

(** Every cell below [n] holds in [h'] what it holds in [h]. *)
Definition sameBelow (n : nat) (h h' : heap) : Prop :=
  forall l : loc, (l < n)%nat -> h' !! l = h !! l.

Definition allocatedSlice (h : heap) (s : slice) : Prop :=
  match s with
  | None => True
  | Some l => (l < List.length h)%nat
  end.

End Go.

Export Go.

Declare Scope go_scope.
Delimit Scope go_scope with go.
Notation "'let*' x := m 'in' k" := (bind m (fun x => k))
(at level 10, x pattern, m at level 100, k at level 200) : go_scope.
Local Open Scope go_scope.

(** The authorization policy; the constants are those of package [config].
  The specification calls them [RequireAuthEverywhere],
  [RequireAuthForMarkedMethods] and [NoAuthRequired]. *)
Inductive AuthorizationType :=
| AuthorizedUsersOnly
| NotAuthorizedToMarkedMethods
| NotAuthorizedEverywhere.

#[global] Instance AuthorizationType_eq_dec : EqDecision AuthorizationType.
Proof. solve_decision. Defined.

Definition RequireAuthEverywhere := AuthorizedUsersOnly.
Definition RequireAuthForMarkedMethods := NotAuthorizedToMarkedMethods.
Definition NoAuthRequired := NotAuthorizedEverywhere.

(** ** [shared/config/yaml.go] *)

Module SharedConfig.

(** The two A2A schema structs the store only stores and hands on; their
    declarations live in [shared/a2a/2025-draft/schema]. *)
Record AgentAuthentication :=
  { Schemes : list string; Credentials : option string }.
Record AgentProvider :=
  { Organization : string; Provider_URL : option string }.

(** [yamlConfig], the document as [yaml.Unmarshal] delivers it.  A [*string]
    is an [option string]; a Go map that is only ranged over is the list of
    its entries in the order this [range] visits them. *)
Record yamlSSL := {
  SSL_Enabled : bool;
  SSL_Mode : string;
  SSL_CertFile : string;
  SSL_KeyFile : string;
  SSL_AcmeDomains : list string;
  SSL_AcmeEmail : string;
  SSL_AcmeCacheDir : string }.

Record yamlA2A := {
  A2A_Name : string;
  A2A_Description : option string;
  A2A_Version : string;
  A2A_DocumentationURL : option string;
  A2A_ProviderOrg : option string;
  A2A_ProviderURL : option string;
  A2A_DefaultInputModes : list string;
  A2A_DefaultOutputModes : list string;
  A2A_Authentication : option AgentAuthentication }.

Record yamlServer := {
  Server_Address : string;
  Server_Name : string;
  Server_Version : string;
  Server_LogLevel : string;
  Server_DiscoveringHandlerPath : string;
  Server_FrontendAddress : string;
  Server_Authorization : string;
  Server_SSL : yamlSSL;
  Server_A2A : option yamlA2A }.

Record yamlUser := { Keys : list string; Subscribes : list string }.
Record yamlBackend := { Backend_URL : string; Backend_Bearer : string }.

Record yamlConfig := {
  Server : yamlServer;
  Users : list (string * yamlUser);
  Backends : list (string * yamlBackend) }.

(** What [Update] calls and this repository does not define. *)
Record Env := {
  ReadFile : string -> result string;          (* os.ReadFile *)
  Unmarshal : string -> result yamlConfig;     (* yaml.Unmarshal *)
  unicodeLower : string -> string }.           (* strings.Map(unicode.ToLower, _) *)

(** [YamlConfig] without its mutex and logger. *)
Record YamlConfig := mkYamlConfig {
  configPath : string;
  serverAddress : string;
  serverName : string;
  serverVersion : string;
  logLevel : string;
  DiscoveringHandlerPathValue : string;
  frontendAddressValue : string;
  authorizationType : AuthorizationType;
  userKeyHashes : gmap string string;
  userParams : gmap string loc;
  userSubscribes : gmap string slice;
  backends : gmap string loc;
  sslEnabled : bool;
  sslMode : string;
  sslCertFile : string;
  sslKeyFile : string;
  sslAcmeDomains : slice;
  sslAcmeEmail : string;
  sslAcmeCacheDir : string;
  a2aAgentNameValue : string;
  a2aAgentDescriptionValue : option string;
  a2aProviderOrgValue : option string;
  a2aProviderURLValue : option string;
  a2aAgentVersionValue : string;
  a2aDocumentationURLValue : option string;
  a2aDefaultInputModesValue : slice;
  a2aDefaultOutputModesValue : slice;
  a2aAuthenticationValue : option AgentAuthentication }.

(** [NewYamlConfigWithOptions] before its call of [Update]. *)
Definition emptyConfig (configPath : string) : YamlConfig :=
  {| configPath := configPath;
     serverAddress := ""; serverName := ""; serverVersion := "";
     logLevel := ""; DiscoveringHandlerPathValue := "";
     frontendAddressValue := "";
     authorizationType := AuthorizedUsersOnly;
     userKeyHashes := ∅; userParams := ∅; userSubscribes := ∅;
     backends := ∅;
     sslEnabled := false; sslMode := "manual"; sslCertFile := "";
     sslKeyFile := ""; sslAcmeDomains := None; sslAcmeEmail := "";
     sslAcmeCacheDir := "./.autocert-cache";
     a2aAgentNameValue := ""; a2aAgentDescriptionValue := None;
     a2aProviderOrgValue := None; a2aProviderURLValue := None;
     a2aAgentVersionValue := ""; a2aDocumentationURLValue := None;
     a2aDefaultInputModesValue := None; a2aDefaultOutputModesValue := None;
     a2aAuthenticationValue := None |}.

(** The [switch strings.ToLower(yamlCfg.Server.Authorization)]. *)
Definition authorizationOf (env : Env) (s : string) : AuthorizationType :=
  let lowered := ToLower (unicodeLower env) s in
  if decide (lowered = "users_only") then AuthorizedUsersOnly
  else if decide (lowered = "marked_methods") then NotAuthorizedToMarkedMethods
  else if decide (lowered = "none") then NotAuthorizedEverywhere
  else AuthorizedUsersOnly.

Definition sslModeOf (env : Env) (s : string) : string :=
  let lowered := ToLower (unicodeLower env) s in
  if decide (lowered = "acme") then lowered else "manual".

(** [for userID, user := range yamlCfg.Users]. *)
Fixpoint rangeUsers (users : list (string * yamlUser))
    (newUserKeyHashes : gmap string string)
    (newUserSubscribes : gmap string slice)
    : M (gmap string string * gmap string slice) :=
  match users with
  | [] => ret (newUserKeyHashes, newUserSubscribes)
  | (userID, user) :: rest =>
      let newUserKeyHashes :=
        foldl (fun m keyHash => <[keyHash := userID]> m)
              newUserKeyHashes (Keys user) in
      if (0 <? List.length (Subscribes user))%nat then
        let* s := newStrings (Subscribes user) in
        rangeUsers rest newUserKeyHashes (<[userID := s]> newUserSubscribes)
      else rangeUsers rest newUserKeyHashes newUserSubscribes
  end.

(** [for backendID, backend := range yamlCfg.Backends]. *)
Fixpoint rangeBackends (bs : list (string * yamlBackend))
    (newBackends : gmap string loc) : M (gmap string loc) :=
  match bs with
  | [] => ret newBackends
  | (backendID, backend) :: rest =>
      let* p := alloc (ObjBackend
                  (mkBackend (Backend_URL backend) (Backend_Bearer backend))) in
      rangeBackends rest (<[backendID := p]> newBackends)
  end.

(** [Update]: the receiver is returned instead of mutated; the second
    component is the returned [error], [None] for [nil]. *)
Definition Update (env : Env) (c : YamlConfig) : M (YamlConfig * option error) :=
  match ReadFile env (configPath c) with
  | Err err => ret (c, Some err)
  | Ok data =>
    match Unmarshal env data with
    | Err err => ret (c, Some err)
    | Ok yamlCfg =>
      let srv := Server yamlCfg in
      let ssl := Server_SSL srv in
      let* acmeDomains := newStrings (SSL_AcmeDomains ssl) in
      let* inputModes :=
        match Server_A2A srv with
        | Some a2aCfg => newStrings (A2A_DefaultInputModes a2aCfg)
        | None => ret None
        end in
      let* outputModes :=
        match Server_A2A srv with
        | Some a2aCfg => newStrings (A2A_DefaultOutputModes a2aCfg)
        | None => ret None
        end in
      let* (newUserKeyHashes, newUserSubscribes) :=
        rangeUsers (Users yamlCfg) ∅ ∅ in
      let* newBackends := rangeBackends (Backends yamlCfg) ∅ in
      ret ({| configPath := configPath c;
              serverAddress := Server_Address srv;
              serverName := Server_Name srv;
              serverVersion := Server_Version srv;
              logLevel := Server_LogLevel srv;
              DiscoveringHandlerPathValue := Server_DiscoveringHandlerPath srv;
              frontendAddressValue := Server_FrontendAddress srv;
              authorizationType := authorizationOf env (Server_Authorization srv);
              userKeyHashes := newUserKeyHashes;
              userParams := userParams c;
              userSubscribes := newUserSubscribes;
              backends := newBackends;
              sslEnabled := SSL_Enabled ssl;
              sslMode := sslModeOf env (SSL_Mode ssl);
              sslCertFile := SSL_CertFile ssl;
              sslKeyFile := SSL_KeyFile ssl;
              sslAcmeDomains := acmeDomains;
              sslAcmeEmail := SSL_AcmeEmail ssl;
              sslAcmeCacheDir :=
                if decide (SSL_AcmeCacheDir ssl = "") then "./.autocert-cache"
                else SSL_AcmeCacheDir ssl;
              a2aAgentNameValue := from_option A2A_Name "" (Server_A2A srv);
              a2aAgentDescriptionValue := (Server_A2A srv ≫= A2A_Description);
              a2aProviderOrgValue := (Server_A2A srv ≫= A2A_ProviderOrg);
              a2aProviderURLValue := (Server_A2A srv ≫= A2A_ProviderURL);
              a2aAgentVersionValue := from_option A2A_Version "" (Server_A2A srv);
              a2aDocumentationURLValue := (Server_A2A srv ≫= A2A_DocumentationURL);
              a2aDefaultInputModesValue := inputModes;
              a2aDefaultOutputModesValue := outputModes;
              a2aAuthenticationValue := (Server_A2A srv ≫= A2A_Authentication) |},
           None)
    end
  end.

(** The backing file is unreadable or does not parse. *)
Definition loadFails (env : Env) (c : YamlConfig) : bool :=
  match ReadFile env (configPath c) with
  | Err _ => true
  | Ok data =>
      match Unmarshal env data with
      | Err _ => true
      | Ok _ => false
      end
  end.

(** *** Accessors *)

Definition GetAuthorizationType (c : YamlConfig) : AuthorizationType * option error :=
  (authorizationType c, None).

Definition GetUserIDByKeyHash (c : YamlConfig) (keyHash : string)
    : string * option error :=
  if decide (keyHash = "") then ("", None)
  else match userKeyHashes c !! keyHash with
       | None => ("", Some ErrNotFound)
       | Some userID => (userID, None)
       end.

Definition GetUserParams (c : YamlConfig) (userID : string) : M loc :=
  match userParams c !! userID with
  | None => alloc (ObjParams ∅)
  | Some params =>
      let* m := readParams params in
      alloc (ObjParams m)
  end.

Definition GetUserSubscribes (c : YamlConfig) (userID : string) : M slice :=
  match userSubscribes c !! userID with
  | None => newStrings []
  | Some servers =>
      let* xs := readStrings servers in
      newStrings xs
  end.

(** [backendCopy := *backend; return &backendCopy, nil]. *)
Definition GetBackendBySlug (c : YamlConfig) (backendID : string)
    : M (result loc) :=
  match backends c !! backendID with
  | None => ret (Err ErrNotFound)
  | Some backend =>
      let* backendCopy := readBackend backend in
      let* p := alloc (ObjBackend backendCopy) in
      ret (Ok p)
  end.

Definition SSLAcmeDomains (c : YamlConfig) : M slice :=
  let* xs := readStrings (sslAcmeDomains c) in
  newStrings xs.

(** [A2ACardBaseInfo] of package [config]. *)
Record A2ACardBaseInfo := {
  Name : string;
  Description : option string;
  AgentURL : string;
  Provider : option AgentProvider;
  Version : string;
  DocumentationURL : option string;
  DefaultInputModes : slice;
  DefaultOutputModes : slice;
  Authentication : option AgentAuthentication }.

Definition derefString (p : option string) : string := default "" p.

Definition GetA2ACardBaseInfo (c : YamlConfig) (agentURL : string)
    : M A2ACardBaseInfo :=
  let* ins := readStrings (a2aDefaultInputModesValue c) in
  let* outs := readStrings (a2aDefaultOutputModesValue c) in
  let* inputModes := newStrings ins in
  let* outputModes := newStrings outs in
  let provider :=
    match a2aProviderOrgValue c, a2aProviderURLValue c with
    | None, None => None
    | org, url => Some {| Organization := derefString org; Provider_URL := url |}
    end in
  let* inputModes :=
    if (List.length ins =? 0)%nat then newStrings ["text"] else ret inputModes in
  let* outputModes :=
    if (List.length outs =? 0)%nat then newStrings ["text"] else ret outputModes in
  ret {| Name := if decide (a2aAgentNameValue c = "") then "Gate4AI A2A Agent"
                 else a2aAgentNameValue c;
         Description := a2aAgentDescriptionValue c;
         AgentURL := agentURL;
         Provider := provider;
         Version := if decide (a2aAgentVersionValue c = "") then "1.0.0"
                    else a2aAgentVersionValue c;
         DocumentationURL := a2aDocumentationURLValue c;
         DefaultInputModes := inputModes;
         DefaultOutputModes := outputModes;
         Authentication := a2aAuthenticationValue c |}.

(** *** The live snapshot behind the pointers

    What the store's backend registry, subscriptions, user parameters and
    ACME domains hold, read through the heap. *)
Definition liveBackends (h : heap) (c : YamlConfig) : gmap string (option Backend) :=
  backend_at h <$> backends c.
Definition liveSubscribes (h : heap) (c : YamlConfig) : gmap string (list string) :=
  elems h <$> userSubscribes c.
Definition liveParams (h : heap) (c : YamlConfig)
    : gmap string (option (gmap string string)) :=
  params_at h <$> userParams c.
Definition liveAcmeDomains (h : heap) (c : YamlConfig) : list string :=
  elems h (sslAcmeDomains c).

(** Every pointer and slice of the store was allocated in [h]. *)
Definition allocated (h : heap) (c : YamlConfig) : Prop :=
  map_Forall (fun _ p => (p < List.length h)%nat) (backends c) /\
  map_Forall (fun _ s => allocatedSlice h s) (userSubscribes c) /\
  map_Forall (fun _ p => (p < List.length h)%nat) (userParams c) /\
  allocatedSlice h (sslAcmeDomains c).

(** The store [c] shows the same live snapshot through [h'] as through [h]. *)
Definition sameLive (h h' : heap) (c : YamlConfig) : Prop :=
  liveBackends h' c = liveBackends h c /\
  liveSubscribes h' c = liveSubscribes h c /\
  liveParams h' c = liveParams h c /\
  liveAcmeDomains h' c = liveAcmeDomains h c.

End SharedConfig.

(** ** The revision with the file watcher *)

Module WatchedConfig.

Record yamlServer := {
  Server_Address : string;
  Server_Name : string;
  Server_Version : string;
  Server_LogLevel : string;
  Server_InfoHandler : string;
  Server_FrontendAddress : string;
  Server_Authorization : string }.

Record yamlUser := { Keys : list string; Subscribes : list string }.
Record yamlBackend := { Backend_URL : string; Backend_Bearer : string }.

Record yamlConfig := {
  Server : yamlServer;
  Users : list (string * yamlUser);
  Backends : list (string * yamlBackend) }.

Record Env := {
  ReadFile : string -> result string;          (* os.ReadFile *)
  Unmarshal : string -> result yamlConfig }.   (* yaml.Unmarshal *)

(** [time.Time] as an instant in nanoseconds, [time.Duration] as the
    [int64] count of nanoseconds it is; [Time.Sub] saturates. *)
Definition Time := Z.
Definition Duration := Z.
Definition minDuration : Duration := (- 2 ^ 63)%Z.
Definition maxDuration : Duration := (2 ^ 63 - 1)%Z.

Definition Sub (t u : Time) : Duration :=
  let d := (t - u)%Z in
  if (d <? minDuration)%Z then minDuration
  else if (maxDuration <? d)%Z then maxDuration
  else d.

(** [YamlConfig] without its mutexes, logger, watcher handle and done
    channel. *)
Record YamlConfig := mkYamlConfig {
  configPath : string;
  serverAddress : string;
  serverName : string;
  serverVersion : string;
  logLevel : string;
  infoHandlerValue : string;
  frontendAddressValue : string;
  authorizationType : AuthorizationType;
  userAuthKeys : gmap string string;
  userParams : gmap string loc;
  userSubscribes : gmap string slice;
  backends : gmap string loc;
  lastModified : Time;
  isWatching : bool }.

(** [NewYamlConfigWithOptions] before its call of [Update]; the zero
    [time.Time] is the instant 0. *)
Definition emptyConfig (configPath : string) : YamlConfig :=
  {| configPath := configPath;
     serverAddress := ""; serverName := ""; serverVersion := "";
     logLevel := ""; infoHandlerValue := ""; frontendAddressValue := "";
     authorizationType := AuthorizedUsersOnly;
     userAuthKeys := ∅; userParams := ∅; userSubscribes := ∅; backends := ∅;
     lastModified := 0%Z; isWatching := false |}.

(** The [switch yamlCfg.Server.Authorization]. *)
Definition authorizationOf (s : string) : AuthorizationType :=
  if decide (s = "users_only") then AuthorizedUsersOnly
  else if decide (s = "marked_methods") then NotAuthorizedToMarkedMethods
  else if decide (s = "none") then NotAuthorizedEverywhere
  else AuthorizedUsersOnly.

(** [for userID, user := range yamlCfg.Users], with the set of affected
    users it collects. *)
Fixpoint rangeUsers (oldUserAuthKeys : gmap string string)
    (users : list (string * yamlUser))
    (userAuthKeys : gmap string string)
    (userSubscribes : gmap string slice)
    (affectedUsers : gset string)
    : M (gmap string string * gmap string slice * gset string) :=
  match users with
  | [] => ret (userAuthKeys, userSubscribes, affectedUsers)
  | (userID, user) :: rest =>
      let userAuthKeys' :=
        foldl (fun m authKey => <[authKey := userID]> m)
              userAuthKeys (Keys user) in
      let affectedUsers' :=
        foldl (fun a authKey =>
                 if decide (oldUserAuthKeys !! authKey = Some userID) then a
                 else {[userID]} ∪ a)
              affectedUsers (Keys user) in
      if (0 <? List.length (Subscribes user))%nat then
        let* s := newStrings (Subscribes user) in
        rangeUsers oldUserAuthKeys rest userAuthKeys'
                   (<[userID := s]> userSubscribes) affectedUsers'
      else rangeUsers oldUserAuthKeys rest userAuthKeys' userSubscribes
                      affectedUsers'
  end.

(** [for authKey, userID := range oldUserAuthKeys]: users of removed keys. *)
Definition removedKeyUsers (oldUserAuthKeys userAuthKeys : gmap string string)
    : gset string :=
  map_fold (fun authKey userID a =>
              if decide (is_Some (userAuthKeys !! authKey)) then a
              else {[userID]} ∪ a)
           ∅ oldUserAuthKeys.

Fixpoint rangeBackends (bs : list (string * yamlBackend))
    (backends : gmap string loc) : M (gmap string loc) :=
  match bs with
  | [] => ret backends
  | (backendID, backend) :: rest =>
      let* p := alloc (ObjBackend
                  (mkBackend (Backend_URL backend) (Backend_Bearer backend))) in
      rangeBackends rest (<[backendID := p]> backends)
  end.

(** [Update].  [affectedUsers] is a local of the source that nothing reads
    after the loops; it is computed here and dropped the same way. *)
Definition Update (env : Env) (c : YamlConfig) : M (YamlConfig * option error) :=
  match ReadFile env (configPath c) with
  | Err err => ret (c, Some err)
  | Ok data =>
    match Unmarshal env data with
    | Err err => ret (c, Some err)
    | Ok yamlCfg =>
      let srv := Server yamlCfg in
      let oldUserAuthKeys := userAuthKeys c in
      let* (newKeys, newSubscribes, affected) :=
        rangeUsers oldUserAuthKeys (Users yamlCfg) ∅ ∅ ∅ in
      let affectedUsers := affected ∪ removedKeyUsers oldUserAuthKeys newKeys in
      let* newBackends := rangeBackends (Backends yamlCfg) ∅ in
      ret ({| configPath := configPath c;
              serverAddress := Server_Address srv;
              serverName := Server_Name srv;
              serverVersion := Server_Version srv;
              logLevel := Server_LogLevel srv;
              infoHandlerValue := Server_InfoHandler srv;
              frontendAddressValue := Server_FrontendAddress srv;
              authorizationType := authorizationOf (Server_Authorization srv);
              userAuthKeys := newKeys;
              userParams := userParams c;
              userSubscribes := newSubscribes;
              backends := newBackends;
              lastModified := lastModified c;
              isWatching := isWatching c |},
           None)
    end
  end.

(** The backing file is unreadable or does not parse. *)
Definition loadFails (env : Env) (c : YamlConfig) : bool :=
  match ReadFile env (configPath c) with
  | Err _ => true
  | Ok data =>
      match Unmarshal env data with
      | Err _ => true
      | Ok _ => false
      end
  end.

(** *** Accessors *)

Definition GetAuthorizationType (c : YamlConfig) : AuthorizationType * option error :=
  (authorizationType c, None).

(** The two nested loops of [GetUserIDByKeyHash]. *)
Fixpoint findUser (users : list (string * yamlUser)) (keyHash : string)
    : option string :=
  match users with
  | [] => None
  | (userID, user) :: rest =>
      if existsb (fun hash => bool_decide (hash = keyHash)) (Keys user)
      then Some userID
      else findUser rest keyHash
  end.

Definition GetUserIDByKeyHash (env : Env) (c : YamlConfig) (keyHash : string)
    : string * option error :=
  match ReadFile env (configPath c) with
  | Err err => ("", Some (ErrWrap "failed to read config file" err))
  | Ok data =>
    match Unmarshal env data with
    | Err err => ("", Some (ErrWrap "failed to parse YAML" err))
    | Ok config =>
        match findUser (Users config) keyHash with
        | Some userID => (userID, None)
        | None => ("", None)
        end
    end
  end.

Definition GetUserParams (c : YamlConfig) (userID : string) : M loc :=
  match userParams c !! userID with
  | None => alloc (ObjParams ∅)
  | Some params =>
      let* m := readParams params in
      alloc (ObjParams m)
  end.

Definition GetUserSubscribes (c : YamlConfig) (userID : string) : M slice :=
  match userSubscribes c !! userID with
  | None => newStrings []
  | Some servers =>
      let* xs := readStrings servers in
      newStrings xs
  end.

(** [return backend, nil]: the pointer held by the store itself. *)
Definition GetBackend (c : YamlConfig) (backendID : string) : M (result loc) :=
  match backends c !! backendID with
  | None => ret (Err ErrNotFound)
  | Some backend => ret (Ok backend)
  end.

(** *** The watcher *)

Definition withLastModified (t : Time) (c : YamlConfig) : YamlConfig :=
  {| configPath := configPath c; serverAddress := serverAddress c;
     serverName := serverName c; serverVersion := serverVersion c;
     logLevel := logLevel c; infoHandlerValue := infoHandlerValue c;
     frontendAddressValue := frontendAddressValue c;
     authorizationType := authorizationType c;
     userAuthKeys := userAuthKeys c; userParams := userParams c;
     userSubscribes := userSubscribes c; backends := backends c;
     lastModified := t; isWatching := isWatching c |}.

Definition withWatching (b : bool) (c : YamlConfig) : YamlConfig :=
  {| configPath := configPath c; serverAddress := serverAddress c;
     serverName := serverName c; serverVersion := serverVersion c;
     logLevel := logLevel c; infoHandlerValue := infoHandlerValue c;
     frontendAddressValue := frontendAddressValue c;
     authorizationType := authorizationType c;
     userAuthKeys := userAuthKeys c; userParams := userParams c;
     userSubscribes := userSubscribes c; backends := backends c;
     lastModified := lastModified c; isWatching := b |}.

(** [fsnotify.Op], a bit set; [Has] tests one of its bits. *)
Definition Op := N.
Definition Create : Op := 1%N.
Definition Write : Op := 2%N.
Definition Remove : Op := 4%N.
Definition Rename : Op := 8%N.
Definition Chmod : Op := 16%N.
Definition Has (o h : Op) : bool := negb (N.land o h =? 0)%N.

(** [StartWatcher] up to the [go] statement: [newWatcher] is the error of
    [fsnotify.NewWatcher], [stat] the modification time [os.Stat] reports. *)
Definition StartWatcher (newWatcher : option error) (stat : result Time)
    (c : YamlConfig) : YamlConfig * option error :=
  if isWatching c then (c, None)
  else match newWatcher with
       | Some err => (c, Some err)
       | None =>
           let c := withWatching true c in
           match stat with
           | Ok modTime => (withLastModified modTime c, None)
           | Err _ => (c, None)
           end
       end.

Definition StopWatcher (c : YamlConfig) : YamlConfig :=
  if isWatching c then withWatching false c else c.

(** What one turn of the goroutine's [select] receives.  A file event comes
    with the instant [time.Now()] returns while it is handled and with the
    file system [Update] will then see. *)
Inductive Received :=
| FileEvent (op : Op) (currentTime : Time) (env : Env)
| EventsClosed
| WatcherError (err : error)
| ErrorsClosed
| Done.

(** The body of [case event, ok := <-watcher.Events] for [ok = true].  The
    second component tells whether [Update] was called and what it
    returned. *)
Definition onEvent (minInterval : Duration) (op : Op) (currentTime : Time)
    (env : Env) (c : YamlConfig) : M (YamlConfig * option (option error)) :=
  if Has op Write || Has op Create then
    let timeSinceLastModification := Sub currentTime (lastModified c) in
    let shouldReload := (minInterval <? timeSinceLastModification)%Z in
    let c := if shouldReload then withLastModified currentTime c else c in
    if shouldReload then
      let* (c, err) := Update env c in
      ret (c, Some err)
    else ret (c, None)
  else ret (c, None).

(** One reload the goroutine performed. *)
Record Reload := mkReload { reloadedAt : Time; outcome : option error }.

(** The [for { select { ... } }] loop over what arrives; the goroutine
    blocks when nothing more does. *)
Fixpoint watch (minInterval : Duration) (inbox : list Received)
    (c : YamlConfig) : M (YamlConfig * list Reload) :=
  match inbox with
  | [] => ret (c, [])
  | FileEvent op currentTime env :: rest =>
      let* (c, r) := onEvent minInterval op currentTime env c in
      let* (c, reloads) := watch minInterval rest c in
      ret (c, match r with
              | Some err => mkReload currentTime err :: reloads
              | None => reloads
              end)
  | WatcherError _ :: rest => watch minInterval rest c
  | EventsClosed :: _ | ErrorsClosed :: _ | Done :: _ => ret (c, [])
  end.

(** The goroutine: [watcher.Add] first, then the loop. *)
Definition watcherGoroutine (add : option error) (minInterval : Duration)
    (inbox : list Received) (c : YamlConfig) : M (YamlConfig * list Reload) :=
  match add with
  | Some _ => ret (c, [])
  | None => watch minInterval inbox c
  end.

(** The instants of successive reloads, starting from the last-applied
    timestamp [last], lie at least [minInterval] apart. *)
Fixpoint spaced (minInterval : Duration) (last : Time) (ts : list Time) : bool :=
  match ts with
  | [] => true
  | t :: rest => (minInterval <=? t - last)%Z && spaced minInterval t rest
  end.

(** *** The live snapshot behind the pointers *)
Definition liveBackends (h : heap) (c : YamlConfig) : gmap string (option Backend) :=
  backend_at h <$> backends c.
Definition liveSubscribes (h : heap) (c : YamlConfig) : gmap string (list string) :=
  elems h <$> userSubscribes c.
Definition liveParams (h : heap) (c : YamlConfig)
    : gmap string (option (gmap string string)) :=
  params_at h <$> userParams c.

(** Every pointer and slice of the store was allocated in [h]. *)
Definition allocated (h : heap) (c : YamlConfig) : Prop :=
  map_Forall (fun _ p => (p < List.length h)%nat) (backends c) /\
  map_Forall (fun _ s => allocatedSlice h s) (userSubscribes c) /\
  map_Forall (fun _ p => (p < List.length h)%nat) (userParams c).

(** The store [c] shows the same live snapshot through [h'] as through [h]. *)
Definition sameLive (h h' : heap) (c : YamlConfig) : Prop :=
  liveBackends h' c = liveBackends h c /\
  liveSubscribes h' c = liveSubscribes h c /\
  liveParams h' c = liveParams h c.

End WatchedConfig.

(** ** The task protocol

  [tests/a2a_client_test.go] drives the client of
  [gateway/clients/a2aClient] against a backend.  The state machine of a
  task and the relay of its events follow the specification. *)

Module A2A.

Inductive TaskState :=
| Submitted | Working | InputRequired | Completed | Failed | Canceled.

#[global] Instance TaskState_eq_dec : EqDecision TaskState.
Proof. solve_decision. Defined.

Record Message := mkMessage { Role : string; Parts : list string }.
Record Artifact := mkArtifact { ArtifactName : option string; ArtifactParts : list string }.

Record Task := mkTask {
  ID : string;
  SessionID : option string;
  State : TaskState;
  StatusMessage : option Message;
  Artifacts : list Artifact }.

Inductive TaskError := NotFound | NotCancelableError.

(** Modelled from the spec: section 3 names the terminal states of a task,
    whose implementation (the backend behind [a2aClient]) is missing:
    "terminal states are Completed, Failed, Canceled". *)
Definition terminal (s : TaskState) : bool :=
  match s with
  | Completed | Failed | Canceled => true
  | Submitted | Working | InputRequired => false
  end.

(** Modelled from the spec: the backend's transition function is missing;
    "once terminal, no further transition is accepted". *)
Definition transition (t : Task) (s : TaskState) (m : option Message)
    : option Task :=
  if terminal (State t) then None
  else Some (mkTask (ID t) (SessionID t) s m (Artifacts t)).

(** Modelled from the spec: the backend's artifact store is missing;
    artifacts are "append-only during execution". *)
Definition appendArtifact (t : Task) (a : Artifact) : option Task :=
  if terminal (State t) then None
  else Some (mkTask (ID t) (SessionID t) (State t) (StatusMessage t)
                    (Artifacts t ++ [a])).

(** Modelled from the spec: the backend's task table is missing; a task is
    "created in Submitted on send", under an id that is "caller-assigned"
    and "unique", so a second send under a known id creates nothing. *)
Definition submit (tasks : gmap string Task) (id : string)
    (session : option string) (m : Message) : gmap string Task :=
  match tasks !! id with
  | Some _ => tasks
  | None => <[id := mkTask id session Submitted (Some m) []]> tasks
  end.

(** Modelled from the spec: [GetTask] of the missing client, a
    "point-in-time snapshot of remote task state" that "returns whatever
    state the backend currently reports". *)
Definition GetTask (tasks : gmap string Task) (id : string)
    : Task + TaskError :=
  match tasks !! id with
  | Some t => inl t
  | None => inr NotFound
  end.

(** Modelled from the spec: [CancelTask] of the missing client and
    backend; it "signals NotCancelableError if the backend reports the task
    already reached a terminal state or does not support cancellation". *)
Definition CancelTask (supportsCancel : bool) (tasks : gmap string Task)
    (id : string) : gmap string Task * (Task + TaskError) :=
  match tasks !! id with
  | None => (tasks, inr NotFound)
  | Some t =>
      if negb supportsCancel then (tasks, inr NotCancelableError)
      else match transition t Canceled None with
           | None => (tasks, inr NotCancelableError)
           | Some t' => (<[id := t']> tasks, inl t')
           end
  end.

(** What can happen at the backend between two observations. *)
Inductive Step :=
| DoSubmit (id : string) (session : option string) (m : Message)
| DoProgress (id : string) (s : TaskState) (m : option Message)
| DoArtifact (id : string) (a : Artifact)
| DoCancel (supportsCancel : bool) (id : string)
| DoGet (id : string).

(** Modelled from the spec: the backend's processing loop is missing; every
    change of a task goes through [transition] or [appendArtifact], and a
    refused change leaves the table as it is. *)
Definition step (tasks : gmap string Task) (s : Step) : gmap string Task :=
  match s with
  | DoSubmit id session m => submit tasks id session m
  | DoProgress id st m =>
      match tasks !! id ≫= (fun t => transition t st m) with
      | Some t' => <[id := t']> tasks
      | None => tasks
      end
  | DoArtifact id a =>
      match tasks !! id ≫= (fun t => appendArtifact t a) with
      | Some t' => <[id := t']> tasks
      | None => tasks
      end
  | DoCancel supportsCancel id => (CancelTask supportsCancel tasks id).1
  | DoGet _ => tasks
  end.

Definition run (tasks : gmap string Task) (steps : list Step)
    : gmap string Task :=
  foldl step tasks steps.

(** *** Streaming *)











End A2A.

(** ** What a document says

    The three loops of [Update] read as folds over the entries of the
    document, without the heap. *)

Module Document.

Definition insertKeys (userID : string) (keys : list string)
    (m : gmap string string) : gmap string string :=
  foldl (fun m keyHash => <[keyHash := userID]> m) m keys.

Definition indexKeys (entries : list (string * list string))
    (m : gmap string string) : gmap string string :=
  foldl (fun m e => insertKeys e.1 e.2 m) m entries.

Definition subscribed (entries : list (string * list string))
    (m : gmap string (list string)) : gmap string (list string) :=
  foldl (fun m e => if (0 <? List.length e.2)%nat then <[e.1 := e.2]> m else m)
        m entries.

Definition registry {A} (entries : list (string * A)) (m : gmap string A)
    : gmap string A :=
  foldl (fun m e => <[e.1 := e.2]> m) m entries.

End Document.

(** ** The rest of [shared/config/yaml.go] *)

Module SharedStore.

Import SharedConfig.

(** [NewYamlConfigWithOptions]: the store, or nil and the error of its first
    [Update]. *)
Definition NewYamlConfigWithOptions (env : Env) (configPath : string)
    : M (option YamlConfig * option error) :=
  let* (config, err) := Update env (emptyConfig configPath) in
  match err with
  | Some err => ret (None, Some err)
  | None => ret (Some config, None)
  end.

Definition NewYamlConfig (env : Env) (configPath : string)
    : M (option YamlConfig * option error) :=
  NewYamlConfigWithOptions env configPath.

Definition ListenAddr (c : YamlConfig) : string * option error :=
  (serverAddress c, None).
Definition SSLMode (c : YamlConfig) : string * option error :=
  (sslMode c, None).
Definition SSLAcmeCacheDir (c : YamlConfig) : string * option error :=
  (sslAcmeCacheDir c, None).

(** One call of a method of the store by its owner; what the call returns
    is dropped, what it does to the store and the heap is kept. *)
Inductive Call :=
| CallUpdate (env : Env)
| CallGetUserParams (userID : string)
| CallGetUserSubscribes (userID : string)
| CallGetBackendBySlug (backendID : string)
| CallSSLAcmeDomains
| CallGetA2ACardBaseInfo (agentURL : string).

Definition call (k : Call) (c : YamlConfig) : M YamlConfig :=
  match k with
  | CallUpdate env => let* (c', _) := Update env c in ret c'
  | CallGetUserParams userID => let* _ := GetUserParams c userID in ret c
  | CallGetUserSubscribes userID => let* _ := GetUserSubscribes c userID in ret c
  | CallGetBackendBySlug backendID => let* _ := GetBackendBySlug c backendID in ret c
  | CallSSLAcmeDomains => let* _ := SSLAcmeDomains c in ret c
  | CallGetA2ACardBaseInfo agentURL => let* _ := GetA2ACardBaseInfo c agentURL in ret c
  end.

Fixpoint calls (ks : list Call) (c : YamlConfig) : M YamlConfig :=
  match ks with
  | [] => ret c
  | k :: rest => let* c' := call k c in calls rest c'
  end.

(** The two mode slices of the A2A section were allocated in [h]. *)
Definition allocatedCard (h : heap) (c : YamlConfig) : Prop :=
  allocatedSlice h (a2aDefaultInputModesValue c) /\
  allocatedSlice h (a2aDefaultOutputModesValue c).

(** The entry of a Go map held as the list of its entries. *)
Definition entry {A} (id : string) (entries : list (string * A)) : option A :=
  (list_to_map entries : gmap string A) !! id.

(** What holds of the store created for [path] at every moment of its
    life. *)
Definition wellFormed (path : string) (h : heap) (c : YamlConfig) : Prop :=
  configPath c = path /\
  userParams c = ∅ /\
  (sslMode c = "acme" \/ sslMode c = "manual") /\
  sslAcmeCacheDir c <> "" /\
  allocated h c /\
  allocatedCard h c.

End SharedStore.

(** ** The rest of the revision with the file watcher *)

Module WatchedStore.

Import WatchedConfig.

Record YamlConfigOptions := {
  EnableHotReload : bool;
  HotReloadMinInterval : Duration }.

Definition DefaultYamlConfigOptions : YamlConfigOptions :=
  {| EnableHotReload := false; HotReloadMinInterval := 1000000000%Z |}.

(** [NewYamlConfigWithOptions] up to the goroutine [StartWatcher] launches.
    [logger] is the [*zap.Logger] passed in, [None] for nil, and
    [NewProduction] what [zap.NewProduction()] returns when it is called.
    The store only writes to its logger, so the one chosen is not kept in
    the record.  Without a logger and with [zap.NewProduction] failing the
    constructor gives nil and that error before the file is read; a failed
    first [Update] gives nil and its error; a failed [StartWatcher] gives
    the loaded store together with the error. *)
Definition NewYamlConfigWithOptions {Logger : Type} (env : Env)
    (NewProduction : result Logger) (newWatcher : option error)
    (stat : result Time) (configPath : string) (logger : option Logger)
    (options : YamlConfigOptions) : M (option YamlConfig * option error) :=
  match (match logger with
         | None => NewProduction
         | Some logger => Ok logger
         end) with
  | Err err => ret (None, Some err)
  | Ok _ =>
      let* (config, err) := Update env (emptyConfig configPath) in
      match err with
      | Some err => ret (None, Some err)
      | None =>
          if EnableHotReload options then
            let (config', err) := StartWatcher newWatcher stat config in
            match err with
            | Some err => ret (Some config', Some err)
            | None => ret (Some config', None)
            end
          else ret (Some config, None)
      end
  end.

Definition NewYamlConfig {Logger : Type} (env : Env)
    (NewProduction : result Logger) (newWatcher : option error)
    (stat : result Time) (configPath : string) (logger : option Logger)
    : M (option YamlConfig * option error) :=
  NewYamlConfigWithOptions env NewProduction newWatcher stat configPath logger
    DefaultYamlConfigOptions.

Definition IsWatching (c : YamlConfig) : bool := isWatching c.

Definition Close (c : YamlConfig) : YamlConfig * option error :=
  (StopWatcher c, None).

Definition ListenAddr (c : YamlConfig) : string * option error :=
  (serverAddress c, None).

Definition SetListenAddr (add : string) (c : YamlConfig) : YamlConfig :=
  {| configPath := configPath c; serverAddress := add;
     serverName := serverName c; serverVersion := serverVersion c;
     logLevel := logLevel c; infoHandlerValue := infoHandlerValue c;
     frontendAddressValue := frontendAddressValue c;
     authorizationType := authorizationType c;
     userAuthKeys := userAuthKeys c; userParams := userParams c;
     userSubscribes := userSubscribes c; backends := backends c;
     lastModified := lastModified c; isWatching := isWatching c |}.

(** What the watcher leaves alone: everything but the timestamp and the
    watching flag. *)
Definition sameSnapshot (c c' : YamlConfig) : Prop :=
  withWatching false (withLastModified 0%Z c') =
  withWatching false (withLastModified 0%Z c).

(** The receipts after which the goroutine returns. *)
Definition stops (r : Received) : bool :=
  match r with
  | EventsClosed | ErrorsClosed | Done => true
  | FileEvent _ _ _ | WatcherError _ => false
  end.

End WatchedStore.

(** ** The consumer loop of [TestA2ATaskSendSubscribe] *)

Module SubscribeTest.

(** The stream event as the test reads it: [event.Status.Status.State],
    [event.Artifact.Artifact] with its [Name] and the [Type] of its parts,
    [event.Final] and [event.Error]. *)
Record Part := { PartType : option string }.
Record ArtifactEvent := { Name : option string; Parts : list Part }.

Record A2AStreamEvent := {
  Status : option A2A.TaskState;
  Artifact : option ArtifactEvent;
  Final : bool;
  Error : option error }.

(** What one turn of the [select] receives. *)
Inductive Receipt :=
| Got (event : A2AStreamEvent)   (* event, ok := <-eventChan with ok *)
| ChannelClosed                  (* ... with !ok *)
| TimedOut                       (* <-timeout *)
| ContextDone.                   (* <-ctx.Done() *)

(** The three locals of the test, and whether [t.Errorf] was called. *)
Record Counters := {
  receivedWorking : bool;
  receivedArtifacts : nat;
  receivedFinalCompleted : bool;
  errored : bool }.

Definition start : Counters :=
  {| receivedWorking := false; receivedArtifacts := 0;
     receivedFinalCompleted := false; errored := false |}.

(** How the loop is left: through [goto EndLoop], through [t.Fatal],
    [t.Fatalf] or a failed [require], through a nil dereference, or not at
    all because nothing more arrives. *)
Inductive Exit := EndLoop | FailNow | Panic | Blocked.

Definition bump (st : Counters) : Counters :=
  {| receivedWorking := receivedWorking st;
     receivedArtifacts := S (receivedArtifacts st);
     receivedFinalCompleted := receivedFinalCompleted st;
     errored := errored st |}.

Definition sawWorking (st : Counters) : Counters :=
  {| receivedWorking := true;
     receivedArtifacts := receivedArtifacts st;
     receivedFinalCompleted := receivedFinalCompleted st;
     errored := errored st |}.

(** The [else if event.Artifact != nil] branch: the log line dereferences
    the name, then the counter is bumped, then the second log line
    dereferences the type of the first part.  The flag tells whether both
    dereferences went well; the counters are those reached. *)
Definition onArtifact (a : ArtifactEvent) (st : Counters) : bool * Counters :=
  match Name a with
  | None => (false, st)
  | Some _ =>
      match Parts a with
      | [] => (true, bump st)
      | part :: _ => match PartType part with
                     | None => (false, bump st)
                     | Some _ => (true, bump st)
                     end
      end
  end.

Fixpoint consume (inbox : list Receipt) (st : Counters) : Exit * Counters :=
  match inbox with
  | [] => (Blocked, st)
  | ChannelClosed :: _ => (EndLoop, st)
  | TimedOut :: _ | ContextDone :: _ => (FailNow, st)
  | Got event :: rest =>
      match Error event with
      | Some _ => (FailNow, st)
      | None =>
          match Status event with
          | Some state =>
              let st1 :=
                if bool_decide (state = A2A.Working) then sawWorking st
                else st in
              if bool_decide (state = A2A.Completed) && Final event
              then (EndLoop,
                    {| receivedWorking := receivedWorking st1;
                       receivedArtifacts := receivedArtifacts st1;
                       receivedFinalCompleted := true;
                       errored := errored st1 |})
              else if Final event && negb (bool_decide (state = A2A.Completed))
              then (FailNow, st1)
              else consume rest st1
          | None =>
              match Artifact event with
              | Some a =>
                  let (ok, st') := onArtifact a st in
                  if ok then consume rest st' else (Panic, st')
              | None =>
                  consume rest
                    {| receivedWorking := receivedWorking st;
                       receivedArtifacts := receivedArtifacts st;
                       receivedFinalCompleted := receivedFinalCompleted st;
                       errored := true |}
              end
          end
      end
  end.

(** The test passes: the loop is left through [EndLoop], no [t.Errorf] was
    called, and the three assertions after the loop hold. *)
Definition passes (inbox : list Receipt) : bool :=
  match consume inbox start with
  | (EndLoop, st) =>
      negb (errored st) && receivedWorking st
      && (1 <=? receivedArtifacts st)%nat && receivedFinalCompleted st
  | _ => false
  end.

(** The events the loop takes and goes on after, without a failure. *)
Definition goesOn (e : A2AStreamEvent) : bool :=
  match Error e, Status e, Artifact e with
  | Some _, _, _ => false
  | None, Some _, _ => negb (Final e)
  | None, None, Some a => (onArtifact a start).1
  | None, None, None => false
  end.

(** The counters after an event the loop goes on after. *)
Definition absorb (st : Counters) (e : A2AStreamEvent) : Counters :=
  match Status e with
  | Some state => if bool_decide (state = A2A.Working) then sawWorking st else st
  | None => bump st
  end.

Definition isWorking (e : A2AStreamEvent) : bool :=
  bool_decide (Status e = Some A2A.Working).

Definition isArtifact (e : A2AStreamEvent) : bool :=
  bool_decide (Status e = None) && bool_decide (is_Some (Artifact e)).

Definition isFinalCompleted (e : A2AStreamEvent) : bool :=
  bool_decide (Error e = None)
  && bool_decide (Status e = Some A2A.Completed) && Final e.

End SubscribeTest.

(** ** [portal/utils/validation.ts] *)

Module Validation.

(** A JavaScript string is its sequence of UTF-16 code units. *)
Abbreviation jsString := (list N).

Definition units (s : string) : jsString :=
  N_of_ascii <$> String.list_ascii_of_string s.

(** The patterns the rules are written in: one code unit of a class (a
    literal, [.], a bracket expression), sequence, alternative, repetition.
    [Nothing] only arises while matching. *)
Inductive regex :=
| Nothing
| Eps
| Class (p : N -> bool)
| Cat (r1 r2 : regex)
| Alt (r1 r2 : regex)
| Star (r : regex).

Fixpoint nullable (r : regex) : bool :=
  match r with
  | Nothing | Class _ => false
  | Eps | Star _ => true
  | Cat r1 r2 => nullable r1 && nullable r2
  | Alt r1 r2 => nullable r1 || nullable r2
  end.

(** What is left of [r] after the code unit [c]. *)
Fixpoint deriv (c : N) (r : regex) : regex :=
  match r with
  | Nothing | Eps => Nothing
  | Class p => if p c then Eps else Nothing
  | Cat r1 r2 =>
      if nullable r1 then Alt (Cat (deriv c r1) r2) (deriv c r2)
      else Cat (deriv c r1) r2
  | Alt r1 r2 => Alt (deriv c r1) (deriv c r2)
  | Star r => Cat (deriv c r) (Star r)
  end.

(** The whole of [s] matches [r]. *)
Fixpoint accepts (r : regex) (s : jsString) : bool :=
  match s with
  | [] => nullable r
  | c :: s' => accepts (deriv c r) s'
  end.

Definition anything : regex := Star (Class (fun _ => true)).

(** [RegExp.prototype.test] for a pattern without flags: [fromStart] and
    [toEnd] tell whether the pattern begins with [^] and ends with [$];
    without them the match may begin and end anywhere. *)
Definition test (fromStart : bool) (r : regex) (toEnd : bool) (s : jsString)
    : bool :=
  accepts (Cat (if fromStart then Eps else anything)
               (Cat r (if toEnd then Eps else anything))) s.

Definition plus (r : regex) : regex := Cat r (Star r).
Definition opt (r : regex) : regex := Alt r Eps.
Definition chr (a : ascii) : regex := Class (N.eqb (N_of_ascii a)).

Fixpoint lit (w : jsString) (r : regex) : regex :=
  match w with
  | [] => r
  | c :: w' => Cat (Class (N.eqb c)) (lit w' r)
  end.

(** The line terminators, which [.] does not match, and the white space of
    [\s], as ECMAScript lists them. *)
Definition isLineTerminator (c : N) : bool :=
  bool_decide (c ∈ [10; 13; 8232; 8233]%N).

Definition isWhiteSpace (c : N) : bool :=
  bool_decide (c ∈ [9; 10; 11; 12; 13; 32; 160; 5760; 8232; 8233; 8239; 8287;
                    12288; 65279]%N)
  || ((8192 <=? c) && (c <=? 8202))%N.

Definition dot : regex := Class (fun c => negb (isLineTerminator c)).

(** [[^\s$.?#]] and [[^\s]]. *)
Definition hostStart (c : N) : bool :=
  negb (isWhiteSpace c) && negb (bool_decide (c ∈ [36; 46; 63; 35]%N)).
Definition notSpace (c : N) : bool := negb (isWhiteSpace c).

(** [/.+@.+\..+/], [/^https?:\/\/[^\s$.?#].[^\s]*$/] and [/^https?:\/\//]. *)
Definition emailPattern : regex :=
  Cat (plus dot) (Cat (chr "@") (Cat (plus dot) (Cat (chr ".") (plus dot)))).

Definition scheme (r : regex) : regex :=
  lit (units "http") (Cat (opt (chr "s")) (lit (units "://") r)).

Definition urlPattern : regex :=
  scheme (Cat (Class hostStart) (Cat dot (Star (Class notSpace)))).

Definition simpleUrlPattern : regex := scheme Eps.

(** What a rule returns: [true] or the message. *)
Inductive verdict := Valid | Message (text : string).

(** [c || message] for a boolean [c]. *)
Definition orElse (c : bool) (message : string) : verdict :=
  if c then Valid else Message message.

(** [!!v] and [!v] for a string. *)
Definition truthy (v : jsString) : bool :=
  match v with [] => false | _ :: _ => true end.

Definition required (v : jsString) : verdict :=
  orElse (truthy v) "This field is required".

Definition email (v : jsString) : verdict :=
  orElse (negb (truthy v) || test false emailPattern false v)
         "Please enter a valid email".

Definition password (v : jsString) : verdict :=
  orElse (8 <=? List.length v)%nat "Password must be at least 8 characters".

Definition url (v : jsString) : verdict :=
  orElse (negb (truthy v) || test true urlPattern true v)
         "Please enter a valid URL".

Definition simpleUrl (v : jsString) : verdict :=
  orElse (negb (truthy v) || test true simpleUrlPattern false v)
         "URL must start with http:// or https://".

Definition serverUrl : list (jsString -> verdict) :=
  [ (fun v => orElse (truthy v) "Server URL is required");
    (fun v => orElse (test true simpleUrlPattern false v)
                     "URL must start with http:// or https://") ].

Definition confirmPassword (password v : jsString) : verdict :=
  orElse (bool_decide (v = password)) "Passwords do not match".

Definition agree (v : bool) : verdict :=
  orElse v "You must agree to the terms to continue".

End Validation.

(** ** Concrete files and stores *)

Module Fixtures.

Definition path : string := "config.yaml".

(** A file system holding one document under [path]. *)
Definition sharedDoc (authorization : string) : SharedConfig.yamlConfig :=
  {| SharedConfig.Server :=
       {| SharedConfig.Server_Address := ":8080";
          SharedConfig.Server_Name := "gate";
          SharedConfig.Server_Version := "0.1";
          SharedConfig.Server_LogLevel := "info";
          SharedConfig.Server_DiscoveringHandlerPath := "/info";
          SharedConfig.Server_FrontendAddress := "";
          SharedConfig.Server_Authorization := authorization;
          SharedConfig.Server_SSL :=
            {| SharedConfig.SSL_Enabled := false;
               SharedConfig.SSL_Mode := "";
               SharedConfig.SSL_CertFile := "";
               SharedConfig.SSL_KeyFile := "";
               SharedConfig.SSL_AcmeDomains := ["example.org"];
               SharedConfig.SSL_AcmeEmail := "";
               SharedConfig.SSL_AcmeCacheDir := "" |};
          SharedConfig.Server_A2A := None |};
     SharedConfig.Users :=
       [("alice", {| SharedConfig.Keys := ["h1"; "h2"];
                     SharedConfig.Subscribes := ["svc"] |});
        ("bob", {| SharedConfig.Keys := ["h3"];
                   SharedConfig.Subscribes := [] |})];
     SharedConfig.Backends :=
       [("svc", {| SharedConfig.Backend_URL := "http://upstream";
                   SharedConfig.Backend_Bearer := "secret" |})] |}.

Definition sharedEnv (authorization : string) : SharedConfig.Env :=
  {| SharedConfig.ReadFile := fun p =>
       if decide (p = path) then Ok "doc" else Err (ErrOS "no such file");
     SharedConfig.Unmarshal := fun data =>
       if decide (data = "doc") then Ok (sharedDoc authorization)
       else Err (ErrYAML "cannot unmarshal");
     SharedConfig.unicodeLower := fun s => s |}.

(** The file is gone. *)
Definition sharedMissing : SharedConfig.Env :=
  {| SharedConfig.ReadFile := fun _ => Err (ErrOS "no such file");
     SharedConfig.Unmarshal := fun _ => Err (ErrYAML "cannot unmarshal");
     SharedConfig.unicodeLower := fun s => s |}.

(** The store after loading [sharedDoc "users_only"] into an empty heap. *)
Definition sharedLoaded : SharedConfig.YamlConfig * heap :=
  let '(c, _, h) :=
    SharedConfig.Update (sharedEnv "users_only") (SharedConfig.emptyConfig path) []
  in (c, h).

Definition watchedDoc (authorization : string) : WatchedConfig.yamlConfig :=
  {| WatchedConfig.Server :=
       {| WatchedConfig.Server_Address := ":8080";
          WatchedConfig.Server_Name := "gate";
          WatchedConfig.Server_Version := "0.1";
          WatchedConfig.Server_LogLevel := "info";
          WatchedConfig.Server_InfoHandler := "/info";
          WatchedConfig.Server_FrontendAddress := "";
          WatchedConfig.Server_Authorization := authorization |};
     WatchedConfig.Users :=
       [("alice", {| WatchedConfig.Keys := ["h1"; "h2"];
                     WatchedConfig.Subscribes := ["svc"] |});
        ("bob", {| WatchedConfig.Keys := ["h3"];
                   WatchedConfig.Subscribes := [] |})];
     WatchedConfig.Backends :=
       [("svc", {| WatchedConfig.Backend_URL := "http://upstream";
                   WatchedConfig.Backend_Bearer := "secret" |})] |}.

Definition watchedEnv (authorization : string) : WatchedConfig.Env :=
  {| WatchedConfig.ReadFile := fun p =>
       if decide (p = path) then Ok "doc" else Err (ErrOS "no such file");
     WatchedConfig.Unmarshal := fun data =>
       if decide (data = "doc") then Ok (watchedDoc authorization)
       else Err (ErrYAML "cannot unmarshal") |}.

(** The file holds something that is not YAML. *)
Definition watchedMalformed : WatchedConfig.Env :=
  {| WatchedConfig.ReadFile := fun _ => Ok "{";
     WatchedConfig.Unmarshal := fun _ => Err (ErrYAML "cannot unmarshal") |}.

Definition watchedLoaded : WatchedConfig.YamlConfig * heap :=
  let '(c, _, h) :=
    WatchedConfig.Update (watchedEnv "users_only") (WatchedConfig.emptyConfig path) []
  in (c, h).

(** A document with an A2A section, and the store that loaded it. *)
Definition sharedCardDoc : SharedConfig.yamlConfig :=
  {| SharedConfig.Server :=
       {| SharedConfig.Server_Address := ":8080";
          SharedConfig.Server_Name := "gate";
          SharedConfig.Server_Version := "0.1";
          SharedConfig.Server_LogLevel := "info";
          SharedConfig.Server_DiscoveringHandlerPath := "/info";
          SharedConfig.Server_FrontendAddress := "";
          SharedConfig.Server_Authorization := "users_only";
          SharedConfig.Server_SSL :=
            SharedConfig.Server_SSL (SharedConfig.Server (sharedDoc ""));
          SharedConfig.Server_A2A :=
            Some {| SharedConfig.A2A_Name := "Coder";
                    SharedConfig.A2A_Description := None;
                    SharedConfig.A2A_Version := "2.0";
                    SharedConfig.A2A_DocumentationURL := None;
                    SharedConfig.A2A_ProviderOrg := Some "gate4ai";
                    SharedConfig.A2A_ProviderURL := None;
                    SharedConfig.A2A_DefaultInputModes := ["text"; "file"];
                    SharedConfig.A2A_DefaultOutputModes := ["file"];
                    SharedConfig.A2A_Authentication := None |} |};
     SharedConfig.Users := [];
     SharedConfig.Backends := [] |}.

Definition sharedCardLoaded : SharedConfig.YamlConfig * heap :=
  let '(c, _, h) :=
    SharedConfig.Update
      {| SharedConfig.ReadFile := fun _ => Ok "doc";
         SharedConfig.Unmarshal := fun _ => Ok sharedCardDoc;
         SharedConfig.unicodeLower := fun s => s |}
      (SharedConfig.emptyConfig path) []
  in (c, h).

(** A backend table with one completed and one working task. *)
Definition someTasks : gmap string A2A.Task :=
  <["T1" := A2A.mkTask "T1" (Some "S1") A2A.Completed None
              [A2A.mkArtifact (Some "hello.py") ["print('hello world')"]]]>
  (<["T2" := A2A.mkTask "T2" None A2A.Working None []]> ∅).



(** One second, and a burst of ten write events 20ms apart that starts
    1.5s after the last-applied timestamp of [watchedLoaded] (the instant 0),
    followed by one more write 1.1s after the burst began. *)
Definition second : WatchedConfig.Duration := 1000000000%Z.
Definition millisecond : WatchedConfig.Duration := 1000000%Z.

Definition burst : list WatchedConfig.Received :=
  map (fun i : nat =>
         WatchedConfig.FileEvent WatchedConfig.Write
           (1500 * millisecond + Z.of_nat i * 20 * millisecond)%Z
           (watchedEnv "none"))
      (seq 0 10)
  ++ [WatchedConfig.FileEvent WatchedConfig.Write (2600 * millisecond)%Z
        (watchedEnv "users_only")].

End Fixtures.

(** * Properties *)

(** ** Reload *)

Section Reload.

Lemma shared_Update_unreadable env c h err :
  SharedConfig.ReadFile env (SharedConfig.configPath c) = Err err ->
  SharedConfig.Update env c h = (c, Some err, h).
Proof. intros Hread. unfold SharedConfig.Update. now rewrite Hread. Qed.

Lemma shared_Update_malformed env c h data err :
  SharedConfig.ReadFile env (SharedConfig.configPath c) = Ok data ->
  SharedConfig.Unmarshal env data = Err err ->
  SharedConfig.Update env c h = (c, Some err, h).
Proof.
  intros Hread Hparse. unfold SharedConfig.Update.
  now rewrite Hread, Hparse.
Qed.

Lemma shared_Update_loadFails env c h :
  SharedConfig.loadFails env c = true ->
  exists err, SharedConfig.Update env c h = (c, Some err, h).
Proof.
  unfold SharedConfig.loadFails.
  destruct (SharedConfig.ReadFile env (SharedConfig.configPath c))
    as [data|err] eqn:Hread.
  - destruct (SharedConfig.Unmarshal env data) as [y|err] eqn:Hparse;
      [discriminate|].
    intros _. exists err. eauto using shared_Update_malformed.
  - intros _. exists err. eauto using shared_Update_unreadable.
Qed.

Lemma watched_Update_unreadable env c h err :
  WatchedConfig.ReadFile env (WatchedConfig.configPath c) = Err err ->
  WatchedConfig.Update env c h = (c, Some err, h).
Proof. intros Hread. unfold WatchedConfig.Update. now rewrite Hread. Qed.

Lemma watched_Update_malformed env c h data err :
  WatchedConfig.ReadFile env (WatchedConfig.configPath c) = Ok data ->
  WatchedConfig.Unmarshal env data = Err err ->
  WatchedConfig.Update env c h = (c, Some err, h).
Proof.
  intros Hread Hparse. unfold WatchedConfig.Update.
  now rewrite Hread, Hparse.
Qed.

Lemma watched_Update_loadFails env c h :
  WatchedConfig.loadFails env c = true ->
  exists err, WatchedConfig.Update env c h = (c, Some err, h).
Proof.
  unfold WatchedConfig.loadFails.
  destruct (WatchedConfig.ReadFile env (WatchedConfig.configPath c))
    as [data|err] eqn:Hread.
  - destruct (WatchedConfig.Unmarshal env data) as [y|err] eqn:Hparse;
      [discriminate|].
    intros _. exists err. eauto using watched_Update_malformed.
  - intros _. exists err. eauto using watched_Update_unreadable.
Qed.

(** A successful [Update] is one whose file was read and parsed. *)
Lemma shared_Update_ok_inv env c h c' h' :
  SharedConfig.Update env c h = (c', None, h') ->
  exists data y,
    SharedConfig.ReadFile env (SharedConfig.configPath c) = Ok data /\
    SharedConfig.Unmarshal env data = Ok y.
Proof.
  unfold SharedConfig.Update.
  destruct (SharedConfig.ReadFile env _) as [data|err]; [|discriminate].
  destruct (SharedConfig.Unmarshal env data) as [y|err] eqn:Hparse;
    [|discriminate].
  intros _. exists data, y. split; [reflexivity | exact Hparse].
Qed.

End Reload.

(** C1. Reload is all-or-nothing: in either revision, when the backing file
  is unreadable or does not parse, [Update] returns an error and leaves the
  store record and every heap cell (hence the credential index, the
  subscriptions, the backend registry, the policy and the server fields) as
  they were. *)
Theorem C1_reload_all_or_nothing :
(forall env c h,
    SharedConfig.loadFails env c = true ->
    exists err, SharedConfig.Update env c h = (c, Some err, h)) /\
(forall env c h,
    WatchedConfig.loadFails env c = true ->
    exists err, WatchedConfig.Update env c h = (c, Some err, h)).
Proof.
split; [exact shared_Update_loadFails | exact watched_Update_loadFails].
Qed.

(** ** The authorization policy *)

Section Authorization.

(** What a successful [Update] of [shared/config/yaml.go] stores as the
    policy. *)
Lemma shared_Update_ok_authorization env c h data y :
  SharedConfig.ReadFile env (SharedConfig.configPath c) = Ok data ->
  SharedConfig.Unmarshal env data = Ok y ->
  exists c' h',
    SharedConfig.Update env c h = (c', None, h') /\
    SharedConfig.authorizationType c' =
      SharedConfig.authorizationOf env
        (SharedConfig.Server_Authorization (SharedConfig.Server y)).
Proof.
  intros Hread Hparse. unfold SharedConfig.Update.
  rewrite Hread, Hparse. unfold bind, ret.
  repeat match goal with
         | |- context [let '(_, _) := ?m in _] => destruct m
         end.
  eexists _, _. split; reflexivity.
Qed.

Lemma watched_Update_ok_authorization env c h data y :
  WatchedConfig.ReadFile env (WatchedConfig.configPath c) = Ok data ->
  WatchedConfig.Unmarshal env data = Ok y ->
  exists c' h',
    WatchedConfig.Update env c h = (c', None, h') /\
    WatchedConfig.authorizationType c' =
      WatchedConfig.authorizationOf
        (WatchedConfig.Server_Authorization (WatchedConfig.Server y)).
Proof.
  intros Hread Hparse. unfold WatchedConfig.Update.
  rewrite Hread, Hparse. unfold bind, ret.
  repeat match goal with
         | |- context [let '(_, _) := ?m in _] => destruct m
         end.
  eexists _, _. split; reflexivity.
Qed.

(** The [switch] of [shared/config/yaml.go], read off the lowered string. *)
Lemma shared_authorizationOf_cases env s :
  let lowered := ToLower (SharedConfig.unicodeLower env) s in
  (lowered = "users_only" ->
   SharedConfig.authorizationOf env s = RequireAuthEverywhere) /\
  (lowered = "marked_methods" ->
   SharedConfig.authorizationOf env s = RequireAuthForMarkedMethods) /\
  (lowered = "none" ->
   SharedConfig.authorizationOf env s = NoAuthRequired) /\
  (lowered <> "users_only" -> lowered <> "marked_methods" ->
   lowered <> "none" ->
   SharedConfig.authorizationOf env s = RequireAuthEverywhere).
Proof.
  unfold SharedConfig.authorizationOf, RequireAuthEverywhere,
    RequireAuthForMarkedMethods, NoAuthRequired. cbv zeta.
  repeat split; intros; repeat case_decide; congruence.
Qed.

(** The [switch] of the watcher revision, on the string as configured. *)
Lemma watched_authorizationOf_cases s :
  (s = "users_only" ->
   WatchedConfig.authorizationOf s = RequireAuthEverywhere) /\
  (s = "marked_methods" ->
   WatchedConfig.authorizationOf s = RequireAuthForMarkedMethods) /\
  (s = "none" -> WatchedConfig.authorizationOf s = NoAuthRequired) /\
  (s <> "users_only" -> s <> "marked_methods" -> s <> "none" ->
   WatchedConfig.authorizationOf s = RequireAuthEverywhere).
Proof.
  unfold WatchedConfig.authorizationOf, RequireAuthEverywhere,
    RequireAuthForMarkedMethods, NoAuthRequired.
  repeat split; intros; repeat case_decide; congruence.
Qed.

End Authorization.

(** C5, as amended.  After a successful [Update]:
    - in the watcher revision the policy is read off the configured string
      itself: ["users_only"], ["marked_methods"] and ["none"] give
      [RequireAuthEverywhere], [RequireAuthForMarkedMethods] and
      [NoAuthRequired], every other string gives [RequireAuthEverywhere];
    - in [shared/config/yaml.go] the same table is applied to
      [strings.ToLower] of the configured string, so the three names select
      their policy in any letter case and only a string whose lower-casing is
      none of the three falls back to [RequireAuthEverywhere]; the three
      names as written, ["bogus"] and the empty string behave as in the
      table. *)
Theorem C5_authorization_policy :
  (forall env c h data y,
      WatchedConfig.ReadFile env (WatchedConfig.configPath c) = Ok data ->
      WatchedConfig.Unmarshal env data = Ok y ->
      exists c' h',
        WatchedConfig.Update env c h = (c', None, h') /\
        let configured :=
          WatchedConfig.Server_Authorization (WatchedConfig.Server y) in
        let policy := WatchedConfig.authorizationType c' in
        (configured = "users_only" -> policy = RequireAuthEverywhere) /\
        (configured = "marked_methods" -> policy = RequireAuthForMarkedMethods) /\
        (configured = "none" -> policy = NoAuthRequired) /\
        (configured <> "users_only" -> configured <> "marked_methods" ->
         configured <> "none" -> policy = RequireAuthEverywhere)) /\
  (forall env c h data y,
      SharedConfig.ReadFile env (SharedConfig.configPath c) = Ok data ->
      SharedConfig.Unmarshal env data = Ok y ->
      exists c' h',
        SharedConfig.Update env c h = (c', None, h') /\
        let configured :=
          SharedConfig.Server_Authorization (SharedConfig.Server y) in
        let lowered := ToLower (SharedConfig.unicodeLower env) configured in
        let policy := SharedConfig.authorizationType c' in
        (lowered = "users_only" -> policy = RequireAuthEverywhere) /\
        (lowered = "marked_methods" -> policy = RequireAuthForMarkedMethods) /\
        (lowered = "none" -> policy = NoAuthRequired) /\
        (lowered <> "users_only" -> lowered <> "marked_methods" ->
         lowered <> "none" -> policy = RequireAuthEverywhere) /\
        (configured = "users_only" -> policy = RequireAuthEverywhere) /\
        (configured = "marked_methods" -> policy = RequireAuthForMarkedMethods) /\
        (configured = "none" -> policy = NoAuthRequired) /\
        (configured = "bogus" -> policy = RequireAuthEverywhere) /\
        (configured = "" -> policy = RequireAuthEverywhere)).
Proof.
  split.
  - intros env c h data y Hread Hparse.
    destruct (watched_Update_ok_authorization env c h data y Hread Hparse)
      as (c' & h' & Hupd & Hauth).
    exists c', h'. split; [exact Hupd|]. cbv zeta. rewrite Hauth.
    apply watched_authorizationOf_cases.
  - intros env c h data y Hread Hparse.
    destruct (shared_Update_ok_authorization env c h data y Hread Hparse)
      as (c' & h' & Hupd & Hauth).
    exists c', h'. split; [exact Hupd|]. cbv zeta. rewrite Hauth.
    pose proof (shared_authorizationOf_cases env
      (SharedConfig.Server_Authorization (SharedConfig.Server y)))
      as (H1 & H2 & H3 & H4).
    repeat split; try assumption; intros Heq; rewrite Heq; reflexivity.
Qed.

(** The table holds at ["none"] in the watcher revision, and at ["None"]
    (lowered: ["none"]) in [shared/config/yaml.go]. *)
Lemma C5_authorization_policy_witness :
  (exists c' h',
      WatchedConfig.Update (Fixtures.watchedEnv "none")
        (WatchedConfig.emptyConfig Fixtures.path) [] = (c', None, h') /\
      WatchedConfig.authorizationType c' = NoAuthRequired) /\
  (exists c' h',
      SharedConfig.Update (Fixtures.sharedEnv "None")
        (SharedConfig.emptyConfig Fixtures.path) [] = (c', None, h') /\
      SharedConfig.authorizationType c' = NoAuthRequired).
Proof.
  split.
  - destruct (proj1 C5_authorization_policy (Fixtures.watchedEnv "none")
                (WatchedConfig.emptyConfig Fixtures.path) [] "doc"
                (Fixtures.watchedDoc "none") eq_refl eq_refl)
      as (c' & h' & Hupd & _ & _ & Hnone & _).
    exists c', h'. split; [exact Hupd | apply Hnone; reflexivity].
  - destruct (proj2 C5_authorization_policy (Fixtures.sharedEnv "None")
                (SharedConfig.emptyConfig Fixtures.path) [] "doc"
                (Fixtures.sharedDoc "None") eq_refl eq_refl)
      as (c' & h' & Hupd & _ & _ & Hnone & _).
    exists c', h'. split; [exact Hupd | apply Hnone; reflexivity].
Defined.

(** In [shared/config/yaml.go] the string ["NONE"] is none of the three
    names, yet the policy stored for it is [NoAuthRequired], not
    [RequireAuthEverywhere]. *)
Lemma C5_counterexample :
  ~ (forall env c h c' h' data y,
        SharedConfig.ReadFile env (SharedConfig.configPath c) = Ok data ->
        SharedConfig.Unmarshal env data = Ok y ->
        SharedConfig.Update env c h = (c', None, h') ->
        let configured :=
          SharedConfig.Server_Authorization (SharedConfig.Server y) in
        configured <> "users_only" -> configured <> "marked_methods" ->
        configured <> "none" ->
        SharedConfig.authorizationType c' = RequireAuthEverywhere).
Proof.
  intros Hall.
  pose (r := SharedConfig.Update (Fixtures.sharedEnv "NONE")
               (SharedConfig.emptyConfig Fixtures.path) []).
  specialize (Hall (Fixtures.sharedEnv "NONE")
                (SharedConfig.emptyConfig Fixtures.path) []
                r.1.1 r.2 "doc" (Fixtures.sharedDoc "NONE")
                eq_refl eq_refl eq_refl).
  cbv zeta in Hall.
  assert (H : SharedConfig.authorizationType r.1.1 = NoAuthRequired)
    by (vm_compute; reflexivity).
  rewrite H in Hall.
  discriminate Hall; discriminate.
Qed.

(** ** The credential lookup *)

Section CredentialLookup.

Lemma findUser_Some users keyHash userID :
  WatchedConfig.findUser users keyHash = Some userID ->
  exists user, (userID, user) ∈ users /\ keyHash ∈ WatchedConfig.Keys user.
Proof.
  induction users as [|[u user] rest IH]; simpl; [discriminate|].
  destruct (existsb _ (WatchedConfig.Keys user)) eqn:Hex.
  - intros [= <-]. exists user. split; [left|].
    apply existsb_exists in Hex as (hash & Hin & Heq).
    apply bool_decide_eq_true in Heq as <-.
    now apply list_elem_of_In.
  - intros Hrest. destruct (IH Hrest) as (user' & Hin & Hkey).
    exists user'. split; [now right | exact Hkey].
Qed.

Lemma findUser_None users keyHash :
  WatchedConfig.findUser users keyHash = None ->
  forall userID user,
    (userID, user) ∈ users -> keyHash ∉ WatchedConfig.Keys user.
Proof.
  induction users as [|[u user] rest IH]; simpl; intros Hnone userID user' Hin.
  - inversion Hin.
  - destruct (existsb _ (WatchedConfig.Keys user)) eqn:Hex; [discriminate|].
    apply elem_of_cons in Hin as [[= -> ->]|Hin]; [|now apply (IH Hnone userID)].
    intros Hkey. apply list_elem_of_In in Hkey.
    assert (Hyes : existsb (fun hash => bool_decide (hash = keyHash))
                     (WatchedConfig.Keys user) = true).
    { apply existsb_exists. exists keyHash. split; [exact Hkey|].
      now apply bool_decide_eq_true. }
    congruence.
Qed.

End CredentialLookup.

(** C4, as amended.  In [shared/config/yaml.go] [GetUserIDByKeyHash] is the
    lookup in the in-memory credential index: the empty key hash gives the
    empty user id and no error, a non-empty bound key hash gives its user,
    any other gives [ErrNotFound].  In the watcher revision it does not look
    at the in-memory index: it reads and parses the backing file anew,
    returns the wrapped error when that fails, returns a user whose key list
    holds the key hash when there is one, and returns the empty user id with
    no error (never [ErrNotFound]) when there is none. *)
Theorem C4_GetUserIDByKeyHash :
  (forall c keyHash,
      (keyHash = "" ->
       SharedConfig.GetUserIDByKeyHash c keyHash = ("", None)) /\
      (forall userID,
          keyHash <> "" ->
          SharedConfig.userKeyHashes c !! keyHash = Some userID ->
          SharedConfig.GetUserIDByKeyHash c keyHash = (userID, None)) /\
      (keyHash <> "" ->
       SharedConfig.userKeyHashes c !! keyHash = None ->
       SharedConfig.GetUserIDByKeyHash c keyHash = ("", Some ErrNotFound))) /\
  (forall env c keyHash,
      (forall err,
          WatchedConfig.ReadFile env (WatchedConfig.configPath c) = Err err ->
          WatchedConfig.GetUserIDByKeyHash env c keyHash =
            ("", Some (ErrWrap "failed to read config file" err))) /\
      (forall data err,
          WatchedConfig.ReadFile env (WatchedConfig.configPath c) = Ok data ->
          WatchedConfig.Unmarshal env data = Err err ->
          WatchedConfig.GetUserIDByKeyHash env c keyHash =
            ("", Some (ErrWrap "failed to parse YAML" err))) /\
      (forall data config,
          WatchedConfig.ReadFile env (WatchedConfig.configPath c) = Ok data ->
          WatchedConfig.Unmarshal env data = Ok config ->
          (exists userID user,
              (userID, user) ∈ WatchedConfig.Users config /\
              keyHash ∈ WatchedConfig.Keys user /\
              WatchedConfig.GetUserIDByKeyHash env c keyHash = (userID, None)) \/
          ((forall userID user,
               (userID, user) ∈ WatchedConfig.Users config ->
               keyHash ∉ WatchedConfig.Keys user) /\
           WatchedConfig.GetUserIDByKeyHash env c keyHash = ("", None)))).
Proof.
  split.
  - intros c keyHash. unfold SharedConfig.GetUserIDByKeyHash.
    repeat split.
    + intros ->. reflexivity.
    + intros userID Hne Hbound. case_decide; [contradiction|].
      now rewrite Hbound.
    + intros Hne Hfree. case_decide; [contradiction|]. now rewrite Hfree.
  - intros env c keyHash. unfold WatchedConfig.GetUserIDByKeyHash.
    repeat split.
    + intros err ->. reflexivity.
    + intros data err -> ->. reflexivity.
    + intros data config -> ->.
      destruct (WatchedConfig.findUser (WatchedConfig.Users config) keyHash)
        as [userID|] eqn:Hfind.
      * left. destruct (findUser_Some _ _ _ Hfind) as (user & Hin & Hkey).
        now exists userID, user.
      * right. split; [|reflexivity]. now apply findUser_None.
Qed.

(** The lookup of [shared/config/yaml.go] on a loaded store, and the
    lookup of the watcher revision when the file has vanished. *)
Lemma C4_GetUserIDByKeyHash_witness :
  SharedConfig.GetUserIDByKeyHash Fixtures.sharedLoaded.1 "" = ("", None) /\
  SharedConfig.GetUserIDByKeyHash Fixtures.sharedLoaded.1 "h3" = ("bob", None) /\
  SharedConfig.GetUserIDByKeyHash Fixtures.sharedLoaded.1 "h9" =
    ("", Some ErrNotFound) /\
  WatchedConfig.GetUserIDByKeyHash
    {| WatchedConfig.ReadFile := fun _ => Err (ErrOS "no such file");
       WatchedConfig.Unmarshal := fun _ => Err (ErrYAML "cannot unmarshal") |}
    Fixtures.watchedLoaded.1 "h1" =
    ("", Some (ErrWrap "failed to read config file" (ErrOS "no such file"))) /\
  WatchedConfig.GetUserIDByKeyHash Fixtures.watchedMalformed
    Fixtures.watchedLoaded.1 "h1" =
    ("", Some (ErrWrap "failed to parse YAML" (ErrYAML "cannot unmarshal"))) /\
  (WatchedConfig.GetUserIDByKeyHash (Fixtures.watchedEnv "none")
     Fixtures.watchedLoaded.1 "h9").2 = None.
Proof.
  pose proof (proj1 C4_GetUserIDByKeyHash Fixtures.sharedLoaded.1) as Hshared.
  split; [|split; [|split; [|split; [|split]]]].
  - apply (proj1 (Hshared "")). reflexivity.
  - apply (proj1 (proj2 (Hshared "h3")));
      [discriminate | vm_compute; reflexivity].
  - apply (proj2 (proj2 (Hshared "h9")));
      [discriminate | vm_compute; reflexivity].
  - apply (proj1 (proj2 C4_GetUserIDByKeyHash _ _ _)). reflexivity.
  - apply (proj1 (proj2 (proj2 C4_GetUserIDByKeyHash _ _ _)) "{");
      reflexivity.
  - destruct (proj2 (proj2 (proj2 C4_GetUserIDByKeyHash
                (Fixtures.watchedEnv "none") Fixtures.watchedLoaded.1 "h9"))
                "doc" (Fixtures.watchedDoc "none") eq_refl eq_refl)
      as [(userID & user & _ & _ & ->)|[_ ->]]; reflexivity.
Defined.

(** In the watcher revision, with the index loaded from a file that was
    then rewritten to hold no users: the key hash ["h1"], bound to
    ["alice"] in the in-memory index, resolves to no identity, and so does
    the unbound ["h9"], without [ErrNotFound]. *)
Lemma C4_counterexample :
  let env :=
    {| WatchedConfig.ReadFile := fun _ => Ok "doc";
       WatchedConfig.Unmarshal := fun _ =>
         Ok {| WatchedConfig.Server :=
                 WatchedConfig.Server (Fixtures.watchedDoc "users_only");
               WatchedConfig.Users := [];
               WatchedConfig.Backends := [] |} |} in
  let c := Fixtures.watchedLoaded.1 in
  WatchedConfig.userAuthKeys c !! "h1" = Some "alice" /\
  WatchedConfig.GetUserIDByKeyHash env c "h1" = ("", None) /\
  WatchedConfig.userAuthKeys c !! "h9" = None /\
  WatchedConfig.GetUserIDByKeyHash env c "h9" = ("", None).
Proof. vm_compute. repeat split; reflexivity. Qed.

(** A loaded store of either revision survives a vanished file and a file
    that is not YAML. *)
Lemma C1_reload_all_or_nothing_witness :
  (SharedConfig.loadFails Fixtures.sharedMissing Fixtures.sharedLoaded.1 = true /\
   exists err,
     SharedConfig.Update Fixtures.sharedMissing Fixtures.sharedLoaded.1
       Fixtures.sharedLoaded.2 =
     (Fixtures.sharedLoaded.1, Some err, Fixtures.sharedLoaded.2)) /\
  (WatchedConfig.loadFails Fixtures.watchedMalformed Fixtures.watchedLoaded.1 = true /\
   exists err,
     WatchedConfig.Update Fixtures.watchedMalformed Fixtures.watchedLoaded.1
       Fixtures.watchedLoaded.2 =
     (Fixtures.watchedLoaded.1, Some err, Fixtures.watchedLoaded.2)).
Proof.
  split; (split; [reflexivity|]).
  - apply (proj1 C1_reload_all_or_nothing). reflexivity.
  - apply (proj2 C1_reload_all_or_nothing). reflexivity.
Defined.

(** ** The heap *)

Section HeapFacts.

Lemma lookup_alloc_new (h : heap) (o : object) :
  (h ++ [o]) !! List.length h = Some o.
Proof. now apply list_lookup_middle. Qed.

Lemma lookup_alloc_old (h : heap) (o : object) (l : loc) :
  (l < List.length h)%nat -> (h ++ [o]) !! l = h !! l.
Proof. intros Hl. now apply lookup_app_l. Qed.

Lemma elems_alloc_new (h : heap) (xs : list string) :
  elems (h ++ [ObjStrings xs]) (Some (List.length h)) = xs.
Proof. unfold elems, strings_at. now rewrite lookup_alloc_new. Qed.

Lemma elems_alloc_old (h : heap) (o : object) (l : loc) :
  (l < List.length h)%nat -> elems (h ++ [o]) (Some l) = elems h (Some l).
Proof.
  intros Hl. unfold elems, strings_at. now rewrite lookup_alloc_old.
Qed.

End HeapFacts.

(** Reads a cell of a heap built by successive allocations. *)
Ltac heap_read :=
  unfold elems, strings_at, backend_at, params_at;
  repeat first
    [ rewrite lookup_alloc_new
    | rewrite lookup_alloc_old by (rewrite ?length_app; simpl; lia) ];
  try reflexivity.

(** C10. [GetA2ACardBaseInfo] fills in the defaults: the name
    ["Gate4AI A2A Agent"] and the version ["1.0.0"] when the configured
    string is empty, the one-element list [["text"]] for the input and for
    the output modes when the configured list is empty; a configured value
    that is not empty is returned as it is. *)
Theorem C10_A2A_card_defaults (c : SharedConfig.YamlConfig) (agentURL : string)
    (h : heap) :
  let info := (SharedConfig.GetA2ACardBaseInfo c agentURL h).1 in
  let h' := (SharedConfig.GetA2ACardBaseInfo c agentURL h).2 in
  let name := SharedConfig.a2aAgentNameValue c in
  let version := SharedConfig.a2aAgentVersionValue c in
  let ins := elems h (SharedConfig.a2aDefaultInputModesValue c) in
  let outs := elems h (SharedConfig.a2aDefaultOutputModesValue c) in
  (name = "" -> SharedConfig.Name info = "Gate4AI A2A Agent") /\
  (name <> "" -> SharedConfig.Name info = name) /\
  (version = "" -> SharedConfig.Version info = "1.0.0") /\
  (version <> "" -> SharedConfig.Version info = version) /\
  (ins = [] -> elems h' (SharedConfig.DefaultInputModes info) = ["text"]) /\
  (ins <> [] -> elems h' (SharedConfig.DefaultInputModes info) = ins) /\
  (outs = [] -> elems h' (SharedConfig.DefaultOutputModes info) = ["text"]) /\
  (outs <> [] -> elems h' (SharedConfig.DefaultOutputModes info) = outs).
Proof.
  cbv zeta.
  unfold SharedConfig.GetA2ACardBaseInfo, bind, ret, readStrings, newStrings,
    alloc.
  set (ins := elems h (SharedConfig.a2aDefaultInputModesValue c)).
  set (outs := elems h (SharedConfig.a2aDefaultOutputModesValue c)).
  cbn [fst snd].
  split; [|split; [|split; [|split]]].
  - intros Hname. destruct ins, outs; cbn; now case_decide.
  - intros Hname. destruct ins, outs; cbn; now case_decide.
  - intros Hver. destruct ins, outs; cbn; now case_decide.
  - intros Hver. destruct ins, outs; cbn; now case_decide.
  - destruct ins as [|i ins'], outs as [|o outs']; cbn;
      repeat split; try congruence; intros _; heap_read.
Qed.

(** ** Defensive copies *)

Section DefensiveCopies.

(** Overwriting a freshly allocated cell touches no older cell. *)
Lemma poke_fresh (h : heap) (o o' : object) :
  sameBelow (List.length h) h (poke (h ++ [o]) (List.length h) o').
Proof.
  intros l Hl. unfold poke.
  rewrite list_lookup_insert_ne by lia. now apply lookup_app_l.
Qed.

Lemma elems_sameBelow (h h' : heap) (s : slice) :
  sameBelow (List.length h) h h' -> allocatedSlice h s ->
  elems h' s = elems h s.
Proof.
  intros Hsame Hs. destruct s as [l|]; [|reflexivity].
  unfold elems, strings_at. now rewrite (Hsame l Hs).
Qed.

Lemma backend_at_sameBelow (h h' : heap) (p : loc) :
  sameBelow (List.length h) h h' -> (p < List.length h)%nat ->
  backend_at h' p = backend_at h p.
Proof. intros Hsame Hp. unfold backend_at. now rewrite (Hsame p Hp). Qed.

Lemma params_at_sameBelow (h h' : heap) (p : loc) :
  sameBelow (List.length h) h h' -> (p < List.length h)%nat ->
  params_at h' p = params_at h p.
Proof. intros Hsame Hp. unfold params_at. now rewrite (Hsame p Hp). Qed.

Lemma shared_sameLive (h h' : heap) (c : SharedConfig.YamlConfig) :
  SharedConfig.allocated h c -> sameBelow (List.length h) h h' ->
  SharedConfig.sameLive h h' c.
Proof.
  intros (Hb & Hs & Hp & Ha) Hsame. repeat split.
  - apply map_fmap_ext. intros id p Hid.
    apply backend_at_sameBelow; [exact Hsame | exact (Hb id p Hid)].
  - apply map_fmap_ext. intros id sl Hid.
    apply elems_sameBelow; [exact Hsame | exact (Hs id sl Hid)].
  - apply map_fmap_ext. intros id p Hid.
    apply params_at_sameBelow; [exact Hsame | exact (Hp id p Hid)].
  - now apply elems_sameBelow.
Qed.

Lemma watched_sameLive (h h' : heap) (c : WatchedConfig.YamlConfig) :
  WatchedConfig.allocated h c -> sameBelow (List.length h) h h' ->
  WatchedConfig.sameLive h h' c.
Proof.
  intros (Hb & Hs & Hp) Hsame. repeat split.
  - apply map_fmap_ext. intros id p Hid.
    apply backend_at_sameBelow; [exact Hsame | exact (Hb id p Hid)].
  - apply map_fmap_ext. intros id sl Hid.
    apply elems_sameBelow; [exact Hsame | exact (Hs id sl Hid)].
  - apply map_fmap_ext. intros id p Hid.
    apply params_at_sameBelow; [exact Hsame | exact (Hp id p Hid)].
Qed.

(** [GetBackendBySlug] of [shared/config/yaml.go] hands out a copy: it
    holds the descriptor of the store, and nothing written through it
    reaches the store. *)
Lemma shared_GetBackendBySlug_copy c backendID h p h' :
  SharedConfig.allocated h c ->
  SharedConfig.GetBackendBySlug c backendID h = (Ok p, h') ->
  (forall b, SharedConfig.liveBackends h c !! backendID = Some (Some b) ->
             backend_at h' p = Some b) /\
  (forall o, SharedConfig.sameLive h (poke h' p o) c).
Proof.
  intros Hwf. unfold SharedConfig.GetBackendBySlug, SharedConfig.liveBackends.
  rewrite lookup_fmap.
  destruct (SharedConfig.backends c !! backendID) as [q|]; [|discriminate].
  unfold bind, ret, readBackend, alloc. intros [= <- <-]. split.
  - cbn. intros b [= ->]. heap_read.
  - intros o. apply shared_sameLive; [exact Hwf | apply poke_fresh].
Qed.

Lemma shared_GetUserSubscribes_copy c userID h s h' :
  SharedConfig.allocated h c ->
  SharedConfig.GetUserSubscribes c userID h = (s, h') ->
  exists p, s = Some p /\
    elems h' s = default [] (SharedConfig.liveSubscribes h c !! userID) /\
    (forall o, SharedConfig.sameLive h (poke h' p o) c).
Proof.
  intros Hwf. unfold SharedConfig.GetUserSubscribes, SharedConfig.liveSubscribes.
  rewrite lookup_fmap.
  destruct (SharedConfig.userSubscribes c !! userID) as [servers|];
    unfold bind, ret, readStrings, newStrings, alloc; intros [= <- <-];
    (eexists; split; [reflexivity|]); (split; [cbn; heap_read|]);
    intros o; (apply shared_sameLive; [exact Hwf | apply poke_fresh]).
Qed.

Lemma shared_GetUserParams_copy c userID h p h' :
  SharedConfig.allocated h c ->
  SharedConfig.GetUserParams c userID h = (p, h') ->
  forall o, SharedConfig.sameLive h (poke h' p o) c.
Proof.
  intros Hwf. unfold SharedConfig.GetUserParams.
  destruct (SharedConfig.userParams c !! userID) as [params|];
    unfold bind, ret, readParams, alloc; intros [= <- <-] o;
    (apply shared_sameLive; [exact Hwf | apply poke_fresh]).
Qed.

Lemma shared_SSLAcmeDomains_copy c h s h' :
  SharedConfig.allocated h c ->
  SharedConfig.SSLAcmeDomains c h = (s, h') ->
  exists p, s = Some p /\
    elems h' s = SharedConfig.liveAcmeDomains h c /\
    (forall o, SharedConfig.sameLive h (poke h' p o) c).
Proof.
  intros Hwf. unfold SharedConfig.SSLAcmeDomains, SharedConfig.liveAcmeDomains.
  unfold bind, ret, readStrings, newStrings, alloc. intros [= <- <-].
  eexists. split; [reflexivity|]. split; [cbn; heap_read|].
  intros o. apply shared_sameLive; [exact Hwf | apply poke_fresh].
Qed.

Lemma watched_GetUserSubscribes_copy c userID h s h' :
  WatchedConfig.allocated h c ->
  WatchedConfig.GetUserSubscribes c userID h = (s, h') ->
  exists p, s = Some p /\
    elems h' s = default [] (WatchedConfig.liveSubscribes h c !! userID) /\
    (forall o, WatchedConfig.sameLive h (poke h' p o) c).
Proof.
  intros Hwf.
  unfold WatchedConfig.GetUserSubscribes, WatchedConfig.liveSubscribes.
  rewrite lookup_fmap.
  destruct (WatchedConfig.userSubscribes c !! userID) as [servers|];
    unfold bind, ret, readStrings, newStrings, alloc; intros [= <- <-];
    (eexists; split; [reflexivity|]); (split; [cbn; heap_read|]);
    intros o; (apply watched_sameLive; [exact Hwf | apply poke_fresh]).
Qed.

Lemma watched_GetUserParams_copy c userID h p h' :
  WatchedConfig.allocated h c ->
  WatchedConfig.GetUserParams c userID h = (p, h') ->
  forall o, WatchedConfig.sameLive h (poke h' p o) c.
Proof.
  intros Hwf. unfold WatchedConfig.GetUserParams.
  destruct (WatchedConfig.userParams c !! userID) as [params|];
    unfold bind, ret, readParams, alloc; intros [= <- <-] o;
    (apply watched_sameLive; [exact Hwf | apply poke_fresh]).
Qed.

(** [GetBackend] of the watcher revision hands out the pointer the registry
    itself holds, and allocates nothing. *)
Lemma watched_GetBackend_alias c backendID h p :
  WatchedConfig.backends c !! backendID = Some p ->
  WatchedConfig.GetBackend c backendID h = (Ok p, h).
Proof. intros Hp. unfold WatchedConfig.GetBackend. now rewrite Hp. Qed.

End DefensiveCopies.

(** C6, at the input where the watcher revision breaks it.  [GetBackend]
    returns the registry's own pointer for ["svc"]; writing another URL
    through it changes the descriptor the store serves. *)
Theorem C6_GetBackend_exposes_the_store :
  let c := Fixtures.watchedLoaded.1 in
  let h := Fixtures.watchedLoaded.2 in
  let written := ObjBackend (mkBackend "http://elsewhere" "secret") in
  exists p,
    WatchedConfig.GetBackend c "svc" h = (Ok p, h) /\
    WatchedConfig.liveBackends h c !! "svc" =
      Some (Some (mkBackend "http://upstream" "secret")) /\
    WatchedConfig.liveBackends (poke h p written) c !! "svc" =
      Some (Some (mkBackend "http://elsewhere" "secret")).
Proof. exists 1%nat. vm_compute. split; [|split]; reflexivity. Qed.

(** ** The watcher *)

Section Debounce.

Import WatchedConfig.

Lemma Sub_above (m : Duration) (t u : Time) :
  (minDuration <= m)%Z -> (m < Sub t u)%Z -> (m < t - u)%Z.
Proof.
  unfold Sub, minDuration, maxDuration. intros Hm.
  repeat case_match; lia.
Qed.

Lemma Sub_inside (m : Duration) (t u : Time) :
  (minDuration <= m <= maxDuration)%Z -> (t - u < m)%Z ->
  (m <? Sub t u)%Z = false.
Proof.
  unfold Sub, minDuration, maxDuration. intros Hm Hin.
  apply Z.ltb_ge. repeat case_match; lia.
Qed.

(** [Update] never writes the last-applied timestamp. *)
Lemma watched_Update_lastModified env c h c' err h' :
  Update env c h = (c', err, h') -> lastModified c' = lastModified c.
Proof.
  unfold Update.
  destruct (ReadFile env (configPath c)) as [data|e];
    [|now intros [= <- _ _]].
  destruct (Unmarshal env data) as [y|e]; [|now intros [= <- _ _]].
  unfold bind, ret.
  repeat match goal with
         | |- context [let '(_, _) := ?m in _] => destruct m
         end.
  now intros [= <- _ _].
Qed.

(** The body of the event case, by cases on its two tests. *)
Lemma onEvent_cases minInterval op currentTime env c h :
  onEvent minInterval op currentTime env c h =
    if (Has op Write || Has op Create)
       && (minInterval <? Sub currentTime (lastModified c))%Z
    then let '(c', err, h') := Update env (withLastModified currentTime c) h in
         (c', Some err, h')
    else (c, None, h).
Proof.
  unfold onEvent.
  destruct (Has op Write || Has op Create); [|reflexivity].
  destruct (minInterval <? Sub currentTime (lastModified c))%Z;
    [|reflexivity].
  cbn. unfold bind, ret.
  now destruct (Update env (withLastModified currentTime c) h) as [[c' err] h'].
Qed.

Lemma onEvent_lastModified minInterval op currentTime env c h c' r h' :
  onEvent minInterval op currentTime env c h = (c', r, h') ->
  lastModified c' = match r with
                    | Some _ => currentTime
                    | None => lastModified c
                    end.
Proof.
  rewrite onEvent_cases. case_match.
  - destruct (Update env (withLastModified currentTime c) h)
      as [[c2 err] h2] eqn:Hupd.
    intros [= <- <- <-]. now apply watched_Update_lastModified in Hupd.
  - now intros [= <- <- <-].
Qed.

Lemma watch_spaced minInterval inbox :
  (minDuration <= minInterval)%Z ->
  forall c h,
    spaced minInterval (lastModified c)
      (reloadedAt <$> (watch minInterval inbox c h).1.2) = true.
Proof.
  intros Hm. induction inbox as [|[op t env| |err| |] rest IH];
    intros c h; cbn; try reflexivity; [|apply IH].
  unfold bind, ret.
  destruct (onEvent minInterval op t env c h) as [[c1 r] h1] eqn:Hev.
  specialize (IH c1 h1).
  destruct (watch minInterval rest c1 h1) as [[c2 reloads] h2]. cbn in *.
  pose proof (onEvent_lastModified _ _ _ _ _ _ _ _ _ Hev) as Hlast.
  rewrite onEvent_cases in Hev.
  destruct r as [err|]; cbn.
  - rewrite Hlast in IH. rewrite IH, andb_true_r. apply Z.leb_le.
    case_match eqn:Htest; [|discriminate].
    apply andb_true_iff in Htest as [_ Hgt]. apply Z.ltb_lt in Hgt.
    apply Sub_above in Hgt; [lia | exact Hm].
  - now rewrite Hlast in IH.
Qed.

Lemma watch_dropped minInterval op currentTime env rest c h :
  (minDuration <= minInterval <= maxDuration)%Z ->
  (currentTime - lastModified c < minInterval)%Z ->
  watch minInterval (FileEvent op currentTime env :: rest) c h =
  watch minInterval rest c h.
Proof.
  intros Hm Hin. cbn. unfold bind, ret. rewrite onEvent_cases.
  rewrite (Sub_inside _ _ _ Hm Hin), andb_false_r.
  now destruct (watch minInterval rest c h) as [[c2 reloads] h2].
Qed.

End Debounce.

(** C3. With [minInterval] a [time.Duration]:
    - one event: [Update] is called only if at least [minInterval] lies
      between the last-applied timestamp and the event (the test of the code
      is the strict one); an event closer than that calls nothing and leaves
      the store, the timestamp included, as it was; and when [Update] is
      called, it is called on the store whose timestamp is already the
      current instant, which is also the timestamp afterwards, whatever
      [Update] returns;
    - a sequence: an event inside the window does not change what the loop
      does with the rest of the sequence, and the instants of the reloads
      the goroutine performs on any sequence lie at least [minInterval]
      apart, counted from the timestamp it started with. *)
Theorem C3_debounce (minInterval : WatchedConfig.Duration) :
  (WatchedConfig.minDuration <= minInterval <= WatchedConfig.maxDuration)%Z ->
  (forall op currentTime env c h,
      let r := WatchedConfig.onEvent minInterval op currentTime env c h in
      let elapsed := (currentTime - WatchedConfig.lastModified c)%Z in
      (is_Some r.1.2 -> (minInterval <= elapsed)%Z) /\
      (is_Some r.1.2 <->
       (WatchedConfig.Has op WatchedConfig.Write
        || WatchedConfig.Has op WatchedConfig.Create) = true /\
       (minInterval < WatchedConfig.Sub currentTime (WatchedConfig.lastModified c))%Z) /\
      ((elapsed < minInterval)%Z -> r = (c, None, h)) /\
      (is_Some r.1.2 ->
       r = (let '(c', err, h') :=
              WatchedConfig.Update env
                (WatchedConfig.withLastModified currentTime c) h in
            (c', Some err, h')) /\
       WatchedConfig.lastModified r.1.1 = currentTime)) /\
  (forall op currentTime env rest c h,
      (currentTime - WatchedConfig.lastModified c < minInterval)%Z ->
      WatchedConfig.watch minInterval
        (WatchedConfig.FileEvent op currentTime env :: rest) c h =
      WatchedConfig.watch minInterval rest c h) /\
  (forall add inbox c h,
      WatchedConfig.spaced minInterval (WatchedConfig.lastModified c)
        (WatchedConfig.reloadedAt <$>
           (WatchedConfig.watcherGoroutine add minInterval inbox c h).1.2)
      = true).
Proof.
  intros Hm. split; [|split].
  - intros op currentTime env c h. cbv zeta.
    pose proof (onEvent_lastModified minInterval op currentTime env c h) as Hlast.
    rewrite onEvent_cases in *.
    destruct (WatchedConfig.Has op WatchedConfig.Write
              || WatchedConfig.Has op WatchedConfig.Create) eqn:Hop;
      cbn [andb].
    + destruct (minInterval <?
                WatchedConfig.Sub currentTime (WatchedConfig.lastModified c))%Z
        eqn:Htest.
      * apply Z.ltb_lt in Htest.
        pose proof (Sub_above _ _ _ (proj1 Hm) Htest) as Hgt.
        destruct (WatchedConfig.Update env
                    (WatchedConfig.withLastModified currentTime c) h)
          as [[c' err] h'] eqn:Hupd.
        cbn. split; [|split; [|split]].
        -- intros _. lia.
        -- split; [intros _; split; [reflexivity | exact Htest] | now eexists].
        -- intros Hin. lia.
        -- intros _. split; [reflexivity | exact (Hlast _ _ _ eq_refl)].
      * apply Z.ltb_ge in Htest. cbn. split; [|split; [|split]].
        -- intros Hr. now apply is_Some_None in Hr.
        -- split; [intros Hr; now apply is_Some_None in Hr | intros [_ ?]; lia].
        -- reflexivity.
        -- intros Hr. now apply is_Some_None in Hr.
    + cbn. split; [|split; [|split]].
      * intros Hr. now apply is_Some_None in Hr.
      * split; [intros Hr; now apply is_Some_None in Hr
               | intros [? _]; discriminate].
      * reflexivity.
      * intros Hr. now apply is_Some_None in Hr.
  - intros. now apply watch_dropped.
  - intros [err|] inbox c h; cbn; [reflexivity|].
    apply watch_spaced. exact (proj1 Hm).
Qed.

(** With one second as [minInterval] and the last-applied timestamp at the
    instant 0: an event after 0.5s is dropped, an event after 1.5s reloads
    and stamps, and the reloads of the burst lie a second apart. *)
Lemma C3_debounce_witness :
  (WatchedConfig.minDuration <= Fixtures.second <= WatchedConfig.maxDuration)%Z /\
  WatchedConfig.onEvent Fixtures.second WatchedConfig.Write
    (500 * Fixtures.millisecond)%Z (Fixtures.watchedEnv "none")
    Fixtures.watchedLoaded.1 Fixtures.watchedLoaded.2 =
    (Fixtures.watchedLoaded.1, None, Fixtures.watchedLoaded.2) /\
  WatchedConfig.lastModified
    (WatchedConfig.onEvent Fixtures.second WatchedConfig.Write
       (1500 * Fixtures.millisecond)%Z (Fixtures.watchedEnv "none")
       Fixtures.watchedLoaded.1 Fixtures.watchedLoaded.2).1.1 =
    (1500 * Fixtures.millisecond)%Z /\
  WatchedConfig.spaced Fixtures.second
    (WatchedConfig.lastModified Fixtures.watchedLoaded.1)
    (WatchedConfig.reloadedAt <$>
       (WatchedConfig.watcherGoroutine None Fixtures.second Fixtures.burst
          Fixtures.watchedLoaded.1 Fixtures.watchedLoaded.2).1.2) = true.
Proof.
  assert (Hm : (WatchedConfig.minDuration <= Fixtures.second
                <= WatchedConfig.maxDuration)%Z)
    by (unfold WatchedConfig.minDuration, WatchedConfig.maxDuration,
          Fixtures.second; lia).
  destruct (C3_debounce Fixtures.second Hm) as (Hone & _ & Hseq).
  split; [exact Hm|]. split; [|split].
  - apply (Hone WatchedConfig.Write (500 * Fixtures.millisecond)%Z).
    vm_compute. reflexivity.
  - apply (Hone WatchedConfig.Write (1500 * Fixtures.millisecond)%Z).
    vm_compute. now eexists.
  - apply Hseq.
Defined.

(** The burst of the specification: ten writes within 200ms cause one
    reload, a write after the interval causes one more. *)
Example debounce_burst :
  WatchedConfig.reloadedAt <$>
    (WatchedConfig.watch Fixtures.second Fixtures.burst
       Fixtures.watchedLoaded.1 Fixtures.watchedLoaded.2).1.2 =
  [1500000000%Z; 2600000000%Z].
Proof. vm_compute. reflexivity. Qed.

(** A write that comes exactly [minInterval] after the last-applied
    timestamp is not acted on: the test of the code is strict. *)
Example debounce_boundary :
  (WatchedConfig.onEvent Fixtures.second WatchedConfig.Write Fixtures.second
     (Fixtures.watchedEnv "none")
     Fixtures.watchedLoaded.1 Fixtures.watchedLoaded.2).1.2 = None.
Proof. vm_compute. reflexivity. Qed.

(** The card of a store without an A2A section carries all four defaults;
    the card of a store whose A2A section sets the four values carries
    those. *)
Lemma C10_A2A_card_defaults_witness :
  (let r := SharedConfig.GetA2ACardBaseInfo Fixtures.sharedLoaded.1
              "http://gate/a2a" Fixtures.sharedLoaded.2 in
   SharedConfig.Name r.1 = "Gate4AI A2A Agent" /\
   SharedConfig.Version r.1 = "1.0.0" /\
   elems r.2 (SharedConfig.DefaultInputModes r.1) = ["text"] /\
   elems r.2 (SharedConfig.DefaultOutputModes r.1) = ["text"]) /\
  (let r := SharedConfig.GetA2ACardBaseInfo Fixtures.sharedCardLoaded.1
              "http://gate/a2a" Fixtures.sharedCardLoaded.2 in
   SharedConfig.Name r.1 = "Coder" /\
   SharedConfig.Version r.1 = "2.0" /\
   elems r.2 (SharedConfig.DefaultInputModes r.1) = ["text"; "file"] /\
   elems r.2 (SharedConfig.DefaultOutputModes r.1) = ["file"]).
Proof.
  cbv zeta. split.
  - destruct (C10_A2A_card_defaults Fixtures.sharedLoaded.1 "http://gate/a2a"
                Fixtures.sharedLoaded.2)
      as (Hname & _ & Hversion & _ & Hin & _ & Hout & _).
    split; [|split; [|split]].
    + apply Hname. reflexivity.
    + apply Hversion. reflexivity.
    + apply Hin. reflexivity.
    + apply Hout. reflexivity.
  - destruct (C10_A2A_card_defaults Fixtures.sharedCardLoaded.1
                "http://gate/a2a" Fixtures.sharedCardLoaded.2)
      as (_ & Hname & _ & Hversion & _ & Hin & _ & Hout).
    split; [|split; [|split]].
    + apply Hname. discriminate.
    + apply Hversion. discriminate.
    + apply Hin. discriminate.
    + apply Hout. discriminate.
Defined.

(** ** Tasks *)

Section Tasks.

Import A2A.

Lemma transition_terminal t s m :
  terminal (State t) = true -> transition t s m = None.
Proof. intros Ht. unfold transition. now rewrite Ht. Qed.

Lemma appendArtifact_terminal t a :
  terminal (State t) = true -> appendArtifact t a = None.
Proof. intros Ht. unfold appendArtifact. now rewrite Ht. Qed.

Lemma CancelTask_terminal supportsCancel (tasks : gmap string Task) id t :
  tasks !! id = Some t -> terminal (State t) = true ->
  CancelTask supportsCancel tasks id = (tasks, inr NotCancelableError).
Proof.
  intros Hid Ht. unfold CancelTask. rewrite Hid.
  destruct supportsCancel; cbn; [|reflexivity].
  now rewrite transition_terminal.
Qed.

(** No step of the backend changes a task that is terminal. *)
Lemma step_terminal (tasks : gmap string Task) id t s :
  tasks !! id = Some t -> terminal (State t) = true ->
  step tasks s !! id = Some t.
Proof.
  intros Hid Ht.
  destruct s as [id' session m|id' st m|id' a|supportsCancel id'|id']; cbn.
  - unfold submit. destruct (tasks !! id') eqn:Hid'; [exact Hid|].
    rewrite lookup_insert_ne by congruence. exact Hid.
  - destruct (decide (id' = id)) as [->|Hne].
    + rewrite Hid. cbn. now rewrite transition_terminal.
    + destruct (tasks !! id' ≫= _); [|exact Hid].
      now rewrite lookup_insert_ne.
  - destruct (decide (id' = id)) as [->|Hne].
    + rewrite Hid. cbn. now rewrite appendArtifact_terminal.
    + destruct (tasks !! id' ≫= _); [|exact Hid].
      now rewrite lookup_insert_ne.
  - destruct (decide (id' = id)) as [->|Hne].
    + now rewrite (CancelTask_terminal _ _ _ _ Hid Ht).
    + unfold CancelTask. destruct (tasks !! id') as [t'|]; [|exact Hid].
      destruct (negb supportsCancel); [exact Hid|].
      destruct (transition t' Canceled None); [|exact Hid].
      cbn. now rewrite lookup_insert_ne.
  - exact Hid.
Qed.

Lemma run_terminal steps : forall (tasks : gmap string Task) id t,
  tasks !! id = Some t -> terminal (State t) = true ->
  run tasks steps !! id = Some t.
Proof.
  unfold run. induction steps as [|s steps IH]; intros tasks id t Hid Ht.
  - exact Hid.
  - cbn. apply IH; [|exact Ht]. now apply step_terminal.
Qed.

End Tasks.

(** C7. Once a task is [Completed], [Failed] or [Canceled], the backend
    accepts no transition of it and no artifact for it, and whatever happens
    at the backend afterwards, [GetTask] for its id reports the task in that
    same terminal state. *)
Theorem C7_terminal_finality (tasks : gmap string A2A.Task) (id : string)
    (t : A2A.Task) :
  tasks !! id = Some t ->
  A2A.State t = A2A.Completed \/ A2A.State t = A2A.Failed \/
    A2A.State t = A2A.Canceled ->
  (forall s m, A2A.transition t s m = None) /\
  (forall a, A2A.appendArtifact t a = None) /\
  (forall steps, A2A.GetTask (A2A.run tasks steps) id = inl t).
Proof.
  intros Hid Hstate.
  assert (Ht : A2A.terminal (A2A.State t) = true)
    by (destruct Hstate as [->|[->| ->]]; reflexivity).
  split; [|split].
  - intros s m. now apply transition_terminal.
  - intros a. now apply appendArtifact_terminal.
  - intros steps. unfold A2A.GetTask.
    now rewrite (run_terminal steps tasks id t Hid Ht).
Qed.

(** A completed task stays completed through progress reports, a cancel
    request and a second submission under its id. *)
Lemma C7_terminal_finality_witness :
  let steps :=
    [A2A.DoProgress "T1" A2A.Working None;
     A2A.DoCancel true "T1";
     A2A.DoSubmit "T1" None (A2A.mkMessage "user" ["again"]);
     A2A.DoProgress "T1" A2A.Failed None;
     A2A.DoGet "T1"] in
  exists t,
    A2A.GetTask (A2A.run Fixtures.someTasks steps) "T1" = inl t /\
    A2A.State t = A2A.Completed.
Proof.
  cbv zeta.
  destruct (C7_terminal_finality Fixtures.someTasks "T1"
              (A2A.mkTask "T1" (Some "S1") A2A.Completed None
                 [A2A.mkArtifact (Some "hello.py") ["print('hello world')"]]))
    as (_ & _ & Hget); [vm_compute; reflexivity | left; reflexivity |].
  eexists. split; [apply Hget | reflexivity].
Defined.

(** C8. [CancelTask] on the id of a task that is already terminal returns
    [NotCancelableError], whether or not the backend supports cancellation;
    nothing at the backend changes, and [GetTask] still reports the task. *)
Theorem C8_cancel_after_terminal (supportsCancel : bool)
    (tasks : gmap string A2A.Task) (id : string) (t : A2A.Task) :
  tasks !! id = Some t ->
  A2A.terminal (A2A.State t) = true ->
  A2A.CancelTask supportsCancel tasks id = (tasks, inr A2A.NotCancelableError) /\
  A2A.GetTask (A2A.CancelTask supportsCancel tasks id).1 id = inl t.
Proof.
  intros Hid Ht. rewrite (CancelTask_terminal _ _ _ _ Hid Ht). split.
  - reflexivity.
  - unfold A2A.GetTask. cbn. now rewrite Hid.
Qed.

Lemma C8_cancel_after_terminal_witness :
  A2A.CancelTask true Fixtures.someTasks "T1" =
    (Fixtures.someTasks, inr A2A.NotCancelableError).
Proof.
  apply (C8_cancel_after_terminal true Fixtures.someTasks "T1"
           (A2A.mkTask "T1" (Some "S1") A2A.Completed None
              [A2A.mkArtifact (Some "hello.py") ["print('hello world')"]])).
  - vm_compute. reflexivity.
  - reflexivity.
Defined.

(** A task that is still working is cancelled when the backend supports
    it. *)
Example cancel_working :
  exists t, (A2A.CancelTask true Fixtures.someTasks "T2").2 = inl t /\
            A2A.State t = A2A.Canceled.
Proof. eexists. split; vm_compute; reflexivity. Qed.

(** ** Subscriptions *)

Section Subscriptions.

Import A2A.









End Subscriptions.




(** ** Allocation is an invariant of the store *)

Section Allocated.

Lemma allocatedSlice_mono (h h' : heap) (s : slice) :
  h `prefix_of` h' -> allocatedSlice h s -> allocatedSlice h' s.
Proof.
  intros Hpre. destruct s as [l|]; [|done]. cbn.
  apply prefix_length in Hpre. lia.
Qed.

Lemma allocated_loc_mono (h h' : heap) (p : loc) :
  h `prefix_of` h' -> (p < List.length h)%nat -> (p < List.length h')%nat.
Proof. intros Hpre%prefix_length. lia. Qed.

Lemma alloc_prefix (h : heap) (o : object) : h `prefix_of` h ++ [o].
Proof. now apply prefix_app_r. Qed.

Lemma alloc_allocated (h : heap) (o : object) :
  (List.length h < List.length (h ++ [o]))%nat.
Proof. rewrite length_app. cbn. lia. Qed.

Lemma shared_rangeUsers_allocated users :
  forall keys (subs : gmap string slice) (h : heap) keys' subs' h',
    map_Forall (fun _ s => allocatedSlice h s) subs ->
    SharedConfig.rangeUsers users keys subs h = (keys', subs', h') ->
    h `prefix_of` h' /\ map_Forall (fun _ s => allocatedSlice h' s) subs'.
Proof.
  induction users as [|[userID user] rest IH];
    intros keys subs h keys' subs' h' Hsubs;
    cbn [SharedConfig.rangeUsers].
  - intros [= <- <- <-]. now split.
  - destruct (0 <? List.length (SharedConfig.Subscribes user))%nat.
    + unfold bind, newStrings, alloc, ret. intros Hrest.
      apply IH in Hrest as [Hpre Hall].
      * split; [|exact Hall].
        etransitivity; [apply alloc_prefix | exact Hpre].
      * apply map_Forall_insert_2; [apply alloc_allocated|].
        eapply map_Forall_impl; [exact Hsubs|].
        intros ? s. apply allocatedSlice_mono, alloc_prefix.
    + now apply IH.
Qed.

Lemma shared_rangeBackends_allocated bs :
  forall (reg : gmap string loc) (h : heap) reg' h',
    map_Forall (fun _ p => (p < List.length h)%nat) reg ->
    SharedConfig.rangeBackends bs reg h = (reg', h') ->
    h `prefix_of` h' /\ map_Forall (fun _ p => (p < List.length h')%nat) reg'.
Proof.
  induction bs as [|[backendID backend] rest IH];
    intros reg h reg' h' Hreg; cbn [SharedConfig.rangeBackends].
  - intros [= <- <-]. now split.
  - unfold bind, alloc. intros Hrest.
    apply IH in Hrest as [Hpre Hall].
    + split; [|exact Hall].
      etransitivity; [apply alloc_prefix | exact Hpre].
    + apply map_Forall_insert_2; [apply alloc_allocated|].
      eapply map_Forall_impl; [exact Hreg|].
      intros ? p. apply allocated_loc_mono, alloc_prefix.
Qed.

(** Accessors only allocate, so they keep the store allocated. *)
Lemma shared_allocated_mono (h h' : heap) (c : SharedConfig.YamlConfig) :
  h `prefix_of` h' -> SharedConfig.allocated h c -> SharedConfig.allocated h' c.
Proof.
  intros Hpre (Hb & Hs & Hp & Ha). repeat split.
  - eapply map_Forall_impl; [exact Hb|]. intros ? p.
    now apply allocated_loc_mono.
  - eapply map_Forall_impl; [exact Hs|]. intros ? s.
    now apply allocatedSlice_mono.
  - eapply map_Forall_impl; [exact Hp|]. intros ? p.
    now apply allocated_loc_mono.
  - now apply (allocatedSlice_mono h).
Qed.

Lemma shared_emptyConfig_allocated (h : heap) (configPath : string) :
  SharedConfig.allocated h (SharedConfig.emptyConfig configPath).
Proof. repeat split; cbn; try apply map_Forall_empty. Qed.

End Allocated.

(** [h `prefix_of` ((h ++ _) ++ _) ++ _]. *)
Ltac solve_prefix := first [reflexivity | apply prefix_app_r; solve_prefix].

(** [Update] keeps the store allocated, and only extends the heap. *)
Lemma shared_Update_allocated env c h c' err h' :
  SharedConfig.allocated h c ->
  SharedConfig.Update env c h = (c', err, h') ->
  h `prefix_of` h' /\ SharedConfig.allocated h' c'.
Proof.
  intros Hwf. unfold SharedConfig.Update.
  destruct (SharedConfig.ReadFile env (SharedConfig.configPath c))
    as [data|e]; [|now intros [= <- _ <-]].
  destruct (SharedConfig.Unmarshal env data) as [y|e];
    [|now intros [= <- _ <-]].
  unfold newStrings, bind, ret, alloc.
  destruct (SharedConfig.Server_A2A (SharedConfig.Server y)) as [a2aCfg|];
    (match goal with
     | |- context [SharedConfig.rangeUsers ?u ?k ?s ?hh] =>
         destruct (SharedConfig.rangeUsers u k s hh) as [[keys subs] h3] eqn:Hu;
         assert (Hpre2 : h ++ [ObjStrings
                   (SharedConfig.SSL_AcmeDomains
                      (SharedConfig.Server_SSL (SharedConfig.Server y)))]
                 `prefix_of` hh)
           by solve_prefix
     end;
     match goal with
     | |- context [SharedConfig.rangeBackends ?b ?r ?hh] =>
         destruct (SharedConfig.rangeBackends b r hh) as [reg h4] eqn:Hb
     end;
     intros [= <- <- <-];
     apply shared_rangeUsers_allocated in Hu as [Hpre3 Hsubs];
       [|apply map_Forall_empty];
     apply shared_rangeBackends_allocated in Hb as [Hpre4 Hreg];
       [|apply map_Forall_empty];
     assert (Hpre1 : h ++ [ObjStrings
               (SharedConfig.SSL_AcmeDomains
                  (SharedConfig.Server_SSL (SharedConfig.Server y)))]
             `prefix_of` h4)
       by (etransitivity; [exact Hpre2|];
           etransitivity; [exact Hpre3 | exact Hpre4]);
     assert (Hpre : h `prefix_of` h4)
       by (etransitivity; [apply alloc_prefix | exact Hpre1]);
     split; [exact Hpre|];
     destruct Hwf as (_ & _ & Hp & _); repeat split; cbn;
     [ exact Hreg
     | eapply map_Forall_impl; [exact Hsubs|];
       intros ? sl; now apply allocatedSlice_mono
     | eapply map_Forall_impl; [exact Hp|];
       intros ? p; now apply allocated_loc_mono
     | eapply allocated_loc_mono; [exact Hpre1 | apply alloc_allocated] ]).
Qed.

Lemma watched_rangeUsers_allocated old users :
  forall keys (subs : gmap string slice) affected (h : heap)
         keys' subs' affected' h',
    map_Forall (fun _ s => allocatedSlice h s) subs ->
    WatchedConfig.rangeUsers old users keys subs affected h =
      (keys', subs', affected', h') ->
    h `prefix_of` h' /\ map_Forall (fun _ s => allocatedSlice h' s) subs'.
Proof.
  induction users as [|[userID user] rest IH];
    intros keys subs affected h keys' subs' affected' h' Hsubs;
    cbn [WatchedConfig.rangeUsers].
  - intros [= <- <- <- <-]. now split.
  - destruct (0 <? List.length (WatchedConfig.Subscribes user))%nat.
    + unfold bind, newStrings, alloc, ret. intros Hrest.
      apply IH in Hrest as [Hpre Hall].
      * split; [|exact Hall].
        etransitivity; [apply alloc_prefix | exact Hpre].
      * apply map_Forall_insert_2; [apply alloc_allocated|].
        eapply map_Forall_impl; [exact Hsubs|].
        intros ? s. apply allocatedSlice_mono, alloc_prefix.
    + now apply IH.
Qed.

Lemma watched_rangeBackends_allocated bs :
  forall (reg : gmap string loc) (h : heap) reg' h',
    map_Forall (fun _ p => (p < List.length h)%nat) reg ->
    WatchedConfig.rangeBackends bs reg h = (reg', h') ->
    h `prefix_of` h' /\ map_Forall (fun _ p => (p < List.length h')%nat) reg'.
Proof.
  induction bs as [|[backendID backend] rest IH];
    intros reg h reg' h' Hreg; cbn [WatchedConfig.rangeBackends].
  - intros [= <- <-]. now split.
  - unfold bind, alloc. intros Hrest.
    apply IH in Hrest as [Hpre Hall].
    + split; [|exact Hall].
      etransitivity; [apply alloc_prefix | exact Hpre].
    + apply map_Forall_insert_2; [apply alloc_allocated|].
      eapply map_Forall_impl; [exact Hreg|].
      intros ? p. apply allocated_loc_mono, alloc_prefix.
Qed.

Lemma watched_emptyConfig_allocated (h : heap) (configPath : string) :
  WatchedConfig.allocated h (WatchedConfig.emptyConfig configPath).
Proof. repeat split; cbn; apply map_Forall_empty. Qed.

Lemma watched_Update_allocated env c h c' err h' :
  WatchedConfig.allocated h c ->
  WatchedConfig.Update env c h = (c', err, h') ->
  h `prefix_of` h' /\ WatchedConfig.allocated h' c'.
Proof.
  intros Hwf. unfold WatchedConfig.Update.
  destruct (WatchedConfig.ReadFile env (WatchedConfig.configPath c))
    as [data|e]; [|now intros [= <- _ <-]].
  destruct (WatchedConfig.Unmarshal env data) as [y|e];
    [|now intros [= <- _ <-]].
  unfold bind, ret.
  destruct (WatchedConfig.rangeUsers _ _ _ _ _ h)
    as [[[keys subs] affected] h1] eqn:Hu.
  destruct (WatchedConfig.rangeBackends _ _ h1) as [reg h2] eqn:Hb.
  intros [= <- <- <-].
  apply watched_rangeUsers_allocated in Hu as [Hpre1 Hsubs];
    [|apply map_Forall_empty].
  apply watched_rangeBackends_allocated in Hb as [Hpre2 Hreg];
    [|apply map_Forall_empty].
  assert (Hpre : h `prefix_of` h2) by (etransitivity; eassumption).
  split; [exact Hpre|]. destruct Hwf as (_ & _ & Hp). repeat split; cbn.
  - exact Hreg.
  - eapply map_Forall_impl; [exact Hsubs|].
    intros ? sl. now apply allocatedSlice_mono.
  - eapply map_Forall_impl; [exact Hp|].
    intros ? p. now apply allocated_loc_mono.
Qed.

(** The loaded stores are allocated. *)
Lemma sharedLoaded_allocated :
  SharedConfig.allocated Fixtures.sharedLoaded.2 Fixtures.sharedLoaded.1.
Proof.
  unfold Fixtures.sharedLoaded.
  destruct (SharedConfig.Update (Fixtures.sharedEnv "users_only")
              (SharedConfig.emptyConfig Fixtures.path) [])
    as [[c err] h] eqn:Hupd.
  exact (proj2 (shared_Update_allocated _ _ _ _ _ _
                  (shared_emptyConfig_allocated _ _) Hupd)).
Qed.

Lemma watchedLoaded_allocated :
  WatchedConfig.allocated Fixtures.watchedLoaded.2 Fixtures.watchedLoaded.1.
Proof.
  unfold Fixtures.watchedLoaded.
  destruct (WatchedConfig.Update (Fixtures.watchedEnv "users_only")
              (WatchedConfig.emptyConfig Fixtures.path) [])
    as [[c err] h] eqn:Hupd.
  exact (proj2 (watched_Update_allocated _ _ _ _ _ _
                  (watched_emptyConfig_allocated _ _) Hupd)).
Qed.

(** On the store of [shared/config/yaml.go], whatever is written through
    the pointer [GetBackendBySlug] returns, the registry serves what it
    served. *)
Example shared_backend_write_is_harmless (o : object) :
  let c := Fixtures.sharedLoaded.1 in
  let h := Fixtures.sharedLoaded.2 in
  let r := SharedConfig.GetBackendBySlug c "svc" h in
  exists p, r.1 = Ok p /\
    SharedConfig.liveBackends (poke r.2 p o) c !! "svc" =
      Some (Some (mkBackend "http://upstream" "secret")).
Proof.
  cbv zeta.
  destruct (SharedConfig.GetBackendBySlug Fixtures.sharedLoaded.1 "svc"
              Fixtures.sharedLoaded.2) as [[p|e] h'] eqn:Hget;
    [|vm_compute in Hget; discriminate].
  exists p. split; [reflexivity|]. cbn [fst snd].
  destruct (shared_GetBackendBySlug_copy _ _ _ _ _ sharedLoaded_allocated Hget)
    as [_ Hsame].
  destruct (Hsame o) as [-> _]. vm_compute. reflexivity.
Qed.

(** * The rest of the code *)

(** ** The loops of [Update] without the heap *)

Section DocumentFacts.

Import Document.

Lemma insertKeys_lookup userID keys (m : gmap string string) k :
  insertKeys userID keys m !! k =
    if decide (k ∈ keys) then Some userID else m !! k.
Proof.
  unfold insertKeys. revert m.
  induction keys as [|a keys IH]; intros m; cbn.
  - case_decide as Hin; [inversion Hin | reflexivity].
  - rewrite IH.
    destruct (decide (k ∈ keys)) as [Hin|Hnin];
      destruct (decide (k ∈ a :: keys)) as [Hin'|Hnin']; try reflexivity.
    + exfalso. apply Hnin'. now right.
    + apply elem_of_cons in Hin' as [->|Hin']; [|contradiction].
      now rewrite lookup_insert_eq.
    + rewrite lookup_insert_ne; [reflexivity|].
      intros ->. apply Hnin'. now left.
Qed.

(** A key hash of the index belongs to a user that lists it. *)
Lemma indexKeys_sound entries : forall (m : gmap string string) k u,
  indexKeys entries m !! k = Some u ->
  m !! k = Some u \/ exists keys, (u, keys) ∈ entries /\ k ∈ keys.
Proof.
  unfold indexKeys.
  induction entries as [|[u0 keys0] rest IH]; intros m k u; cbn [foldl fst snd].
  - now left.
  - intros Hk. apply IH in Hk as [Hk|(keys & Hin & Hkeys)].
    + rewrite insertKeys_lookup in Hk. case_decide.
      * injection Hk as <-. right. exists keys0. split; [left | assumption].
      * now left.
    + right. exists keys. split; [now right | assumption].
Qed.

Lemma indexKeys_unlisted entries : forall (m : gmap string string) k,
  (forall u keys, (u, keys) ∈ entries -> k ∉ keys) ->
  indexKeys entries m !! k = m !! k.
Proof.
  unfold indexKeys.
  induction entries as [|[u0 keys0] rest IH]; intros m k Hno; cbn [foldl fst snd].
  - reflexivity.
  - rewrite IH.
    + rewrite insertKeys_lookup. case_decide as Hin; [|reflexivity].
      exfalso. apply (Hno u0 keys0); [left | exact Hin].
    + intros u keys Hin. apply (Hno u keys). now right.
Qed.

Lemma indexKeys_is_Some entries : forall (m : gmap string string) k,
  is_Some (m !! k) -> is_Some (indexKeys entries m !! k).
Proof.
  unfold indexKeys.
  induction entries as [|[u0 keys0] rest IH]; intros m k Hk; cbn [foldl fst snd].
  - exact Hk.
  - apply IH. rewrite insertKeys_lookup. now case_decide.
Qed.

Lemma indexKeys_listed entries : forall (m : gmap string string) k u keys,
  (u, keys) ∈ entries -> k ∈ keys -> is_Some (indexKeys entries m !! k).
Proof.
  induction entries as [|[u0 keys0] rest IH]; intros m k u keys Hin Hk.
  - inversion Hin.
  - apply elem_of_cons in Hin as [[= <- <-]|Hin].
    + unfold indexKeys. cbn [foldl fst snd]. apply indexKeys_is_Some.
      rewrite insertKeys_lookup. now rewrite decide_True.
    + unfold indexKeys. cbn [foldl fst snd]. now apply (IH _ k u keys).
Qed.

(** When one user only lists a key hash, the index binds it to that user. *)
Lemma indexKeys_unique entries (m : gmap string string) k u keys :
  (u, keys) ∈ entries -> k ∈ keys -> m !! k = None ->
  (forall u' keys', (u', keys') ∈ entries -> k ∈ keys' -> u' = u) ->
  indexKeys entries m !! k = Some u.
Proof.
  intros Hin Hk Hm Huniq.
  destruct (indexKeys_listed entries m k u keys Hin Hk) as [u' Hu'].
  rewrite Hu'. f_equal.
  apply indexKeys_sound in Hu' as [Hu'|(keys' & Hin' & Hk')]; [congruence|].
  now apply (Huniq u' keys').
Qed.

Lemma subscribed_lookup entries : forall (m : gmap string (list string)) u,
  NoDup entries.*1 ->
  (forall u', u' ∈ entries.*1 -> m !! u' = None) ->
  default [] (subscribed entries m !! u) =
    default (default [] (m !! u))
            ((list_to_map entries : gmap string (list string)) !! u).
Proof.
  unfold subscribed.
  induction entries as [|[u0 xs] rest IH]; intros m u Hnd Hfree.
  - cbn [foldl list_to_map foldr]. now rewrite lookup_empty.
  - rewrite fmap_cons in Hnd, Hfree. cbn [fst] in Hnd, Hfree.
    apply NoDup_cons in Hnd as [Hu0 Hnd].
    rewrite list_to_map_cons. cbn [foldl fst snd].
    rewrite IH; [|exact Hnd|].
    + destruct (decide (u = u0)) as [->|Hne].
      * rewrite lookup_insert_eq.
        rewrite (not_elem_of_list_to_map_1 _ u0 Hu0). cbn [default].
        destruct xs as [|x xs]; cbn [List.length Nat.ltb Nat.leb default].
        -- rewrite (Hfree u0); [reflexivity | left].
        -- now rewrite lookup_insert_eq.
      * rewrite (lookup_insert_ne (list_to_map rest) u0 u) by congruence.
        destruct (0 <? List.length xs)%nat; [|reflexivity].
        now rewrite lookup_insert_ne by congruence.
    + intros u' Hu'. destruct (0 <? List.length xs)%nat.
      * rewrite lookup_insert_ne; [|intros ->; contradiction].
        apply Hfree. now right.
      * apply Hfree. now right.
Qed.

Lemma registry_lookup {A} (entries : list (string * A)) :
  forall (m : gmap string A) id,
    NoDup entries.*1 ->
    registry entries m !! id =
      match (list_to_map entries : gmap string A) !! id with
      | Some b => Some b
      | None => m !! id
      end.
Proof.
  unfold registry.
  induction entries as [|[id0 b0] rest IH]; intros m id Hnd.
  - cbn [foldl list_to_map foldr]. now rewrite lookup_empty.
  - rewrite fmap_cons in Hnd. cbn [fst] in Hnd.
    apply NoDup_cons in Hnd as [Hid0 Hnd].
    rewrite list_to_map_cons. cbn [foldl fst snd].
    rewrite IH by exact Hnd.
    destruct (decide (id = id0)) as [->|Hne].
    + rewrite lookup_insert_eq.
      rewrite (not_elem_of_list_to_map_1 _ id0 Hid0).
      now rewrite lookup_insert_eq.
    + rewrite (lookup_insert_ne (list_to_map rest) id0 id) by congruence.
      destruct (list_to_map rest !! id); [reflexivity|].
      now rewrite lookup_insert_ne by congruence.
Qed.

End DocumentFacts.

(** ** What a successful [Update] of [shared/config/yaml.go] leaves *)

Section SharedRefinement.

Import SharedConfig Document.

Lemma elems_prefix (h h' : heap) (s : slice) :
  h `prefix_of` h' -> allocatedSlice h s -> elems h' s = elems h s.
Proof.
  intros Hpre Hs. apply elems_sameBelow; [|exact Hs].
  intros l Hl. symmetry. now apply prefix_lookup_lt.
Qed.

Lemma backend_at_prefix (h h' : heap) (p : loc) :
  h `prefix_of` h' -> (p < List.length h)%nat ->
  backend_at h' p = backend_at h p.
Proof.
  intros Hpre Hp. apply backend_at_sameBelow; [|exact Hp].
  intros l Hl. symmetry. now apply prefix_lookup_lt.
Qed.

(** The loop over the users, read as the two folds. *)
Lemma shared_rangeUsers_pure users :
  forall keys (subs : gmap string slice) (h : heap) keys' subs' h',
    map_Forall (fun _ s => allocatedSlice h s) subs ->
    rangeUsers users keys subs h = (keys', subs', h') ->
    keys' = indexKeys (prod_map id Keys <$> users) keys /\
    elems h' <$> subs' =
      subscribed (prod_map id Subscribes <$> users) (elems h <$> subs).
Proof.
  unfold indexKeys, subscribed.
  induction users as [|[userID user] rest IH];
    intros keys subs h keys' subs' h' Hsubs; cbn [rangeUsers].
  - intros [= <- <- <-]. now split.
  - rewrite !fmap_cons. cbn [foldl prod_map fst snd id].
    destruct (0 <? List.length (Subscribes user))%nat.
    + unfold bind, newStrings, alloc, ret. intros Hrest.
      apply IH in Hrest as [-> ->].
      * split; [reflexivity|]. f_equal.
        rewrite fmap_insert. cbn [elems]. unfold strings_at.
        rewrite lookup_alloc_new. f_equal.
        apply map_fmap_ext. intros u s Hu.
        apply elems_prefix; [apply alloc_prefix | exact (Hsubs u s Hu)].
      * apply map_Forall_insert_2; [apply alloc_allocated|].
        eapply map_Forall_impl; [exact Hsubs|].
        intros ? s. apply allocatedSlice_mono, alloc_prefix.
    + intros Hrest. now apply IH in Hrest.
Qed.

(** The loop over the backends, read as the fold. *)
Lemma shared_rangeBackends_pure bs :
  forall (reg : gmap string loc) (h : heap) reg' h',
    map_Forall (fun _ p => (p < List.length h)%nat) reg ->
    rangeBackends bs reg h = (reg', h') ->
    backend_at h' <$> reg' =
      registry
        (prod_map id (fun b => Some (mkBackend (Backend_URL b) (Backend_Bearer b)))
           <$> bs)
        (backend_at h <$> reg).
Proof.
  unfold registry.
  induction bs as [|[backendID backend] rest IH];
    intros reg h reg' h' Hreg; cbn [rangeBackends].
  - now intros [= <- <-].
  - rewrite fmap_cons. cbn [foldl prod_map fst snd id].
    unfold bind, alloc. intros Hrest. apply IH in Hrest as ->.
    + f_equal. rewrite fmap_insert. unfold backend_at at 1.
      rewrite lookup_alloc_new. f_equal.
      apply map_fmap_ext. intros id p Hid.
      apply backend_at_prefix; [apply alloc_prefix | exact (Hreg id p Hid)].
    + apply map_Forall_insert_2; [apply alloc_allocated|].
      eapply map_Forall_impl; [exact Hreg|].
      intros ? p. apply allocated_loc_mono, alloc_prefix.
Qed.

End SharedRefinement.

Section SharedUpdateShape.

Import SharedConfig Document.

(** The fields a successful [Update] assigns from the server section. *)
Lemma shared_Update_ok_scalars env c h data y :
  ReadFile env (configPath c) = Ok data ->
  Unmarshal env data = Ok y ->
  exists c' h',
    Update env c h = (c', None, h') /\
    configPath c' = configPath c /\
    userParams c' = userParams c /\
    serverAddress c' = Server_Address (Server y) /\
    sslMode c' = sslModeOf env (SSL_Mode (Server_SSL (Server y))) /\
    sslAcmeCacheDir c' =
      (if decide (SSL_AcmeCacheDir (Server_SSL (Server y)) = "")
       then "./.autocert-cache"
       else SSL_AcmeCacheDir (Server_SSL (Server y))) /\
    a2aAgentNameValue c' = from_option A2A_Name "" (Server_A2A (Server y)) /\
    a2aAgentVersionValue c' = from_option A2A_Version "" (Server_A2A (Server y)) /\
    a2aAgentDescriptionValue c' = Server_A2A (Server y) ≫= A2A_Description /\
    a2aDocumentationURLValue c' = Server_A2A (Server y) ≫= A2A_DocumentationURL /\
    a2aProviderOrgValue c' = Server_A2A (Server y) ≫= A2A_ProviderOrg /\
    a2aProviderURLValue c' = Server_A2A (Server y) ≫= A2A_ProviderURL /\
    a2aAuthenticationValue c' = Server_A2A (Server y) ≫= A2A_Authentication.
Proof.
  intros Hread Hparse. unfold Update. rewrite Hread, Hparse.
  unfold bind, ret.
  repeat match goal with
         | |- context [let '(_, _) := ?m in _] => destruct m
         end.
  eexists _, _. split; [reflexivity|]. cbn. tauto.
Qed.

(** What the store serves after a successful [Update], read through the
    heap the call leaves. *)
Lemma shared_Update_ok_views env c h data y :
  ReadFile env (configPath c) = Ok data ->
  Unmarshal env data = Ok y ->
  exists c' h',
    Update env c h = (c', None, h') /\
    h `prefix_of` h' /\
    userKeyHashes c' = indexKeys (prod_map id Keys <$> Users y) ∅ /\
    liveSubscribes h' c' =
      subscribed (prod_map id Subscribes <$> Users y) ∅ /\
    liveBackends h' c' =
      registry
        (prod_map id (fun b => Some (mkBackend (Backend_URL b) (Backend_Bearer b)))
           <$> Backends y) ∅ /\
    liveAcmeDomains h' c' = SSL_AcmeDomains (Server_SSL (Server y)) /\
    elems h' (a2aDefaultInputModesValue c') =
      from_option A2A_DefaultInputModes [] (Server_A2A (Server y)) /\
    elems h' (a2aDefaultOutputModesValue c') =
      from_option A2A_DefaultOutputModes [] (Server_A2A (Server y)) /\
    SharedStore.allocatedCard h' c'.
Proof.
  intros Hread Hparse. unfold Update. rewrite Hread, Hparse.
  unfold newStrings, bind, ret, alloc.
  set (acme := ObjStrings (SSL_AcmeDomains (Server_SSL (Server y)))).
  destruct (Server_A2A (Server y)) as [a2aCfg|];
    match goal with
    | |- context [rangeUsers ?u ?k ?s ?hh] =>
        destruct (rangeUsers u k s hh) as [[keys subs] h3] eqn:Hu;
        assert (Hpre2 : h ++ [acme] `prefix_of` hh) by solve_prefix
    end;
    match goal with
    | |- context [rangeBackends ?b ?r ?hh] =>
        destruct (rangeBackends b r hh) as [reg h4] eqn:Hb
    end;
    eexists _, _; (split; [reflexivity|]);
    pose proof (shared_rangeUsers_pure _ _ _ _ _ _ _
                  (map_Forall_empty _) Hu) as [Hkeys Hsubs];
    pose proof (shared_rangeUsers_allocated _ _ _ _ _ _ _
                  (map_Forall_empty _) Hu) as [Hpre3 Hasubs];
    pose proof (shared_rangeBackends_pure _ _ _ _ _
                  (map_Forall_empty _) Hb) as Hreg;
    pose proof (shared_rangeBackends_allocated _ _ _ _ _
                  (map_Forall_empty _) Hb) as [Hpre4 Hareg];
    rewrite fmap_empty in Hsubs; rewrite fmap_empty in Hreg;
    assert (Hpre1 : h ++ [acme] `prefix_of` h4)
      by (etransitivity; [exact Hpre2|];
          etransitivity; [exact Hpre3 | exact Hpre4]);
    (split; [etransitivity; [apply alloc_prefix | exact Hpre1]|]);
    (split; [exact Hkeys|]);
    (split; [unfold liveSubscribes; cbn [userSubscribes];
             rewrite <- Hsubs; apply map_fmap_ext; intros u s Hus;
             apply elems_prefix; [exact Hpre4 | exact (Hasubs u s Hus)]|]);
    (split; [exact Hreg|]);
    (split; [unfold liveAcmeDomains; cbn [sslAcmeDomains];
             rewrite (elems_prefix (h ++ [acme]) h4);
             [apply elems_alloc_new | exact Hpre1 | apply alloc_allocated]|]).
  - cbn [a2aDefaultInputModesValue a2aDefaultOutputModesValue from_option].
    assert (Hin : (h ++ [acme]) ++ [ObjStrings (A2A_DefaultInputModes a2aCfg)]
                  `prefix_of` h4).
    { etransitivity; [|etransitivity; [exact Hpre3 | exact Hpre4]].
      solve_prefix. }
    assert (Hout : ((h ++ [acme]) ++ [ObjStrings (A2A_DefaultInputModes a2aCfg)])
                   ++ [ObjStrings (A2A_DefaultOutputModes a2aCfg)]
                   `prefix_of` h4).
    { etransitivity; [|etransitivity; [exact Hpre3 | exact Hpre4]].
      solve_prefix. }
    split; [|split; [|split]].
    + rewrite (elems_prefix _ h4 _ Hin); [apply elems_alloc_new|].
      apply alloc_allocated.
    + rewrite (elems_prefix _ h4 _ Hout); [apply elems_alloc_new|].
      apply alloc_allocated.
    + eapply allocatedSlice_mono; [exact Hin | apply alloc_allocated].
    + eapply allocatedSlice_mono; [exact Hout | apply alloc_allocated].
  - unfold SharedStore.allocatedCard. cbn. repeat split.
Qed.

End SharedUpdateShape.

(** ** Reading back what [Update] loaded *)

Section SharedRoundTrips.

Import SharedConfig Document.

Lemma prod_map_fst {A B} (f : A -> B) (l : list (string * A)) :
  (prod_map id f <$> l).*1 = l.*1.
Proof. induction l as [|[a b] l IH]; cbn; [reflexivity | now f_equal]. Qed.

Lemma shared_GetUserSubscribes_elems c userID h :
  let got := GetUserSubscribes c userID h in
  elems got.2 got.1 = default [] (liveSubscribes h c !! userID).
Proof.
  cbv zeta. unfold GetUserSubscribes, liveSubscribes. rewrite lookup_fmap.
  destruct (userSubscribes c !! userID) as [servers|];
    unfold bind, ret, readStrings, newStrings, alloc; cbn; heap_read.
Qed.

End SharedRoundTrips.

(** X1. After a successful [Update] of [shared/config/yaml.go], a
    non-empty key hash resolves to a user only if that user lists it in the
    document, resolves to [ErrNotFound] when no user lists it, and resolves
    to the user that lists it when no other user does. *)
Theorem X1_shared_credential_index env c h data y keyHash :
  SharedConfig.ReadFile env (SharedConfig.configPath c) = Ok data ->
  SharedConfig.Unmarshal env data = Ok y ->
  keyHash <> "" ->
  let c' := (SharedConfig.Update env c h).1.1 in
  (forall userID,
      SharedConfig.GetUserIDByKeyHash c' keyHash = (userID, None) ->
      exists user, (userID, user) ∈ SharedConfig.Users y /\
                   keyHash ∈ SharedConfig.Keys user) /\
  ((forall userID user, (userID, user) ∈ SharedConfig.Users y ->
                        keyHash ∉ SharedConfig.Keys user) ->
   SharedConfig.GetUserIDByKeyHash c' keyHash = ("", Some ErrNotFound)) /\
  (forall userID user,
      (userID, user) ∈ SharedConfig.Users y ->
      keyHash ∈ SharedConfig.Keys user ->
      (forall userID' user', (userID', user') ∈ SharedConfig.Users y ->
                             keyHash ∈ SharedConfig.Keys user' ->
                             userID' = userID) ->
      SharedConfig.GetUserIDByKeyHash c' keyHash = (userID, None)).
Proof.
  intros Hread Hparse Hne. cbv zeta.
  destruct (shared_Update_ok_views env c h data y Hread Hparse)
    as (c' & h' & -> & _ & Hkeys & _).
  cbn [fst]. unfold SharedConfig.GetUserIDByKeyHash.
  rewrite decide_False by exact Hne. rewrite Hkeys.
  split; [|split].
  - intros userID Hgot.
    destruct (Document.indexKeys _ ∅ !! keyHash) as [u|] eqn:Hu;
      [|discriminate].
    injection Hgot as ->.
    apply indexKeys_sound in Hu as [Hu|(keys & Hin & Hk)];
      [now rewrite lookup_empty in Hu|].
    apply list_elem_of_fmap in Hin as ([u' user] & [= -> ->] & Hin).
    now exists user.
  - intros Hno. rewrite indexKeys_unlisted; [now rewrite lookup_empty|].
    intros u keys Hin Hk.
    apply list_elem_of_fmap in Hin as ([u' user] & [= -> ->] & Hin).
    exact (Hno u' user Hin Hk).
  - intros userID user Hin Hk Huniq.
    rewrite (indexKeys_unique _ ∅ keyHash userID (SharedConfig.Keys user)).
    + reflexivity.
    + apply list_elem_of_fmap. now exists (userID, user).
    + exact Hk.
    + apply lookup_empty.
    + intros u' keys' Hin' Hk'.
      apply list_elem_of_fmap in Hin' as ([u'' user'] & [= -> ->] & Hin').
      exact (Huniq u'' user' Hin' Hk').
Qed.

(** The store that loaded the sample document resolves ["h3"] to ["bob"]
    and knows no ["h9"]. *)
Lemma X1_shared_credential_index_witness :
  let c' := (SharedConfig.Update (Fixtures.sharedEnv "users_only")
               (SharedConfig.emptyConfig Fixtures.path) []).1.1 in
  SharedConfig.GetUserIDByKeyHash c' "h3" = ("bob", None) /\
  SharedConfig.GetUserIDByKeyHash c' "h9" = ("", Some ErrNotFound).
Proof.
  cbv zeta.
  pose proof (fun k Hk =>
    X1_shared_credential_index (Fixtures.sharedEnv "users_only")
      (SharedConfig.emptyConfig Fixtures.path) [] "doc"
      (Fixtures.sharedDoc "users_only") k eq_refl eq_refl Hk) as HX.
  split.
  - apply (proj2 (proj2 (HX "h3" ltac:(discriminate))) "bob"
             {| SharedConfig.Keys := ["h3"]; SharedConfig.Subscribes := [] |}).
    + right. left.
    + left.
    + intros u' user' Hin Hk.
      apply elem_of_cons in Hin as [[= -> ->]|Hin].
      * cbn in Hk. apply elem_of_cons in Hk as [Hk|Hk]; [discriminate|].
        apply elem_of_cons in Hk as [Hk|Hk]; [discriminate | inversion Hk].
      * apply elem_of_cons in Hin as [[= -> ->]|Hin];
          [reflexivity | inversion Hin].
  - apply (proj1 (proj2 (HX "h9" ltac:(discriminate)))).
    intros u user Hin Hk.
    apply elem_of_cons in Hin as [[= -> ->]|Hin].
    + cbn in Hk. apply elem_of_cons in Hk as [Hk|Hk]; [discriminate|].
      apply elem_of_cons in Hk as [Hk|Hk]; [discriminate | inversion Hk].
    + apply elem_of_cons in Hin as [[= -> ->]|Hin]; [|inversion Hin].
      cbn in Hk. apply elem_of_cons in Hk as [Hk|Hk];
        [discriminate | inversion Hk].
Defined.

(** X2. After a successful [Update] of [shared/config/yaml.go] on a
    document whose user ids are distinct, [GetUserSubscribes] returns, in a
    fresh slice, the subscription list the document gives the user, and the
    empty slice for a user the document does not have or gives no
    subscriptions. *)
Theorem X2_shared_subscriptions env c h data y userID :
  SharedConfig.ReadFile env (SharedConfig.configPath c) = Ok data ->
  SharedConfig.Unmarshal env data = Ok y ->
  NoDup (SharedConfig.Users y).*1 ->
  let r := SharedConfig.Update env c h in
  let got := SharedConfig.GetUserSubscribes r.1.1 userID r.2 in
  elems got.2 got.1 =
    from_option SharedConfig.Subscribes []
      (SharedStore.entry userID (SharedConfig.Users y)) /\
  got.1 = Some (List.length r.2).
Proof.
  intros Hread Hparse Hnd. cbv zeta.
  destruct (shared_Update_ok_views env c h data y Hread Hparse)
    as (c' & h' & -> & _ & _ & Hsubs & _).
  cbn [fst snd]. split.
  - rewrite (shared_GetUserSubscribes_elems c' userID h'), Hsubs.
    rewrite subscribed_lookup.
    + rewrite lookup_empty. cbn [default].
      rewrite list_to_map_fmap, lookup_fmap. unfold SharedStore.entry.
      now destruct (list_to_map (SharedConfig.Users y) !! userID).
    + now rewrite prod_map_fst.
    + intros. apply lookup_empty.
  - unfold SharedConfig.GetUserSubscribes.
    now destruct (SharedConfig.userSubscribes c' !! userID).
Qed.

Lemma X2_shared_subscriptions_witness :
  let r := SharedConfig.Update (Fixtures.sharedEnv "users_only")
             (SharedConfig.emptyConfig Fixtures.path) [] in
  let alice := SharedConfig.GetUserSubscribes r.1.1 "alice" r.2 in
  let bob := SharedConfig.GetUserSubscribes r.1.1 "bob" r.2 in
  elems alice.2 alice.1 = ["svc"] /\ elems bob.2 bob.1 = [].
Proof.
  cbv zeta.
  assert (Hnd : NoDup (SharedConfig.Users (Fixtures.sharedDoc "users_only")).*1)
    by (apply (bool_decide_unpack _); vm_compute; reflexivity).
  split.
  - apply (X2_shared_subscriptions (Fixtures.sharedEnv "users_only")
             (SharedConfig.emptyConfig Fixtures.path) [] "doc"
             (Fixtures.sharedDoc "users_only") "alice" eq_refl eq_refl Hnd).
  - apply (X2_shared_subscriptions (Fixtures.sharedEnv "users_only")
             (SharedConfig.emptyConfig Fixtures.path) [] "doc"
             (Fixtures.sharedDoc "users_only") "bob" eq_refl eq_refl Hnd).
Defined.

(** X3. After a successful [Update] of [shared/config/yaml.go] on a
    document whose backend slugs are distinct, [GetBackendBySlug] returns
    for a slug of the document a pointer to a newly allocated descriptor
    that holds the document's URL and bearer token, and returns
    [ErrNotFound], allocating nothing, for any other slug. *)
Theorem X3_shared_backends env c h data y backendID :
  SharedConfig.ReadFile env (SharedConfig.configPath c) = Ok data ->
  SharedConfig.Unmarshal env data = Ok y ->
  NoDup (SharedConfig.Backends y).*1 ->
  let r := SharedConfig.Update env c h in
  let got := SharedConfig.GetBackendBySlug r.1.1 backendID r.2 in
  match SharedStore.entry backendID (SharedConfig.Backends y) with
  | Some b =>
      got.1 = Ok (List.length r.2) /\
      backend_at got.2 (List.length r.2) =
        Some (mkBackend (SharedConfig.Backend_URL b) (SharedConfig.Backend_Bearer b))
  | None => got = (Err ErrNotFound, r.2)
  end.
Proof.
  intros Hread Hparse Hnd. cbv zeta.
  destruct (shared_Update_ok_views env c h data y Hread Hparse)
    as (c' & h' & -> & _ & _ & _ & Hreg & _).
  cbn [fst snd].
  assert (Hlook : backend_at h' <$> (SharedConfig.backends c' !! backendID) =
                  (fun b => Some (mkBackend (SharedConfig.Backend_URL b)
                                            (SharedConfig.Backend_Bearer b)))
                    <$> SharedStore.entry backendID (SharedConfig.Backends y)).
  { rewrite <- lookup_fmap. fold (SharedConfig.liveBackends h' c').
    rewrite Hreg, registry_lookup by now rewrite prod_map_fst.
    rewrite list_to_map_fmap, lookup_fmap, lookup_empty.
    unfold SharedStore.entry.
    now destruct (list_to_map (SharedConfig.Backends y) !! backendID). }
  unfold SharedConfig.GetBackendBySlug.
  destruct (SharedStore.entry backendID (SharedConfig.Backends y)) as [b|];
    destruct (SharedConfig.backends c' !! backendID) as [q|];
    try discriminate Hlook; [|reflexivity].
  injection Hlook as Hq.
  unfold bind, ret, readBackend, alloc. rewrite Hq. cbn. split; [reflexivity|].
  heap_read.
Qed.

Lemma X3_shared_backends_witness :
  let r := SharedConfig.Update (Fixtures.sharedEnv "users_only")
             (SharedConfig.emptyConfig Fixtures.path) [] in
  let got := SharedConfig.GetBackendBySlug r.1.1 "svc" r.2 in
  backend_at got.2 (List.length r.2) = Some (mkBackend "http://upstream" "secret") /\
  SharedConfig.GetBackendBySlug r.1.1 "nowhere" r.2 = (Err ErrNotFound, r.2).
Proof.
  cbv zeta.
  assert (Hnd : NoDup (SharedConfig.Backends (Fixtures.sharedDoc "users_only")).*1)
    by (apply (bool_decide_unpack _); vm_compute; reflexivity).
  split.
  - apply (X3_shared_backends (Fixtures.sharedEnv "users_only")
             (SharedConfig.emptyConfig Fixtures.path) [] "doc"
             (Fixtures.sharedDoc "users_only") "svc" eq_refl eq_refl Hnd).
  - apply (X3_shared_backends (Fixtures.sharedEnv "users_only")
             (SharedConfig.emptyConfig Fixtures.path) [] "doc"
             (Fixtures.sharedDoc "users_only") "nowhere" eq_refl eq_refl Hnd).
Defined.

(** ** The agent card *)

Section Card.

Import SharedConfig.

(** The card [GetA2ACardBaseInfo] builds, field by field, and where its two
    slices live. *)
Lemma shared_card_shape c agentURL h :
  let got := GetA2ACardBaseInfo c agentURL h in
  let ins := elems h (a2aDefaultInputModesValue c) in
  let outs := elems h (a2aDefaultOutputModesValue c) in
  Name got.1 = (if decide (a2aAgentNameValue c = "") then "Gate4AI A2A Agent"
                else a2aAgentNameValue c) /\
  Version got.1 = (if decide (a2aAgentVersionValue c = "") then "1.0.0"
                   else a2aAgentVersionValue c) /\
  Description got.1 = a2aAgentDescriptionValue c /\
  AgentURL got.1 = agentURL /\
  DocumentationURL got.1 = a2aDocumentationURLValue c /\
  Authentication got.1 = a2aAuthenticationValue c /\
  Provider got.1 =
    match a2aProviderOrgValue c, a2aProviderURLValue c with
    | None, None => None
    | org, url => Some {| Organization := derefString org; Provider_URL := url |}
    end /\
  elems got.2 (DefaultInputModes got.1) =
    (if ins is [] then ["text"] else ins) /\
  elems got.2 (DefaultOutputModes got.1) =
    (if outs is [] then ["text"] else outs) /\
  h `prefix_of` got.2 /\
  (exists p q, DefaultInputModes got.1 = Some p /\
               DefaultOutputModes got.1 = Some q /\
               (List.length h <= p)%nat /\ (List.length h <= q)%nat).
Proof.
  cbv zeta.
  unfold GetA2ACardBaseInfo, newStrings, readStrings, bind, ret, alloc.
  destruct (elems h (a2aDefaultInputModesValue c)) as [|i ins];
    destruct (elems h (a2aDefaultOutputModesValue c)) as [|o outs];
    cbn [fst snd List.length Nat.eqb Name Version Description AgentURL
         DocumentationURL Authentication Provider DefaultInputModes
         DefaultOutputModes];
    (split; [reflexivity|]); (split; [reflexivity|]);
    (split; [reflexivity|]); (split; [reflexivity|]);
    (split; [reflexivity|]); (split; [reflexivity|]);
    (split; [reflexivity|]);
    (split; [cbn [elems]; heap_read|]);
    (split; [cbn [elems]; heap_read|]);
    (split; [solve_prefix|]);
    eexists _, _; (split; [reflexivity|]); (split; [reflexivity|]);
    rewrite ?length_app; cbn [List.length]; lia.
Qed.

End Card.

(** X4. When the document read by a successful [Update] of
    [shared/config/yaml.go] has no A2A section, the card served afterwards
    is the default one (name ["Gate4AI A2A Agent"], version ["1.0.0"], modes
    [["text"]], no description, documentation URL, provider or
    authentication), whatever the store held before. *)
Theorem X4_shared_card_reset env c h data y agentURL :
  SharedConfig.ReadFile env (SharedConfig.configPath c) = Ok data ->
  SharedConfig.Unmarshal env data = Ok y ->
  SharedConfig.Server_A2A (SharedConfig.Server y) = None ->
  let r := SharedConfig.Update env c h in
  let got := SharedConfig.GetA2ACardBaseInfo r.1.1 agentURL r.2 in
  SharedConfig.Name got.1 = "Gate4AI A2A Agent" /\
  SharedConfig.Version got.1 = "1.0.0" /\
  SharedConfig.Description got.1 = None /\
  SharedConfig.DocumentationURL got.1 = None /\
  SharedConfig.Provider got.1 = None /\
  SharedConfig.Authentication got.1 = None /\
  SharedConfig.AgentURL got.1 = agentURL /\
  elems got.2 (SharedConfig.DefaultInputModes got.1) = ["text"] /\
  elems got.2 (SharedConfig.DefaultOutputModes got.1) = ["text"].
Proof.
  intros Hread Hparse Hnone. cbv zeta.
  destruct (shared_Update_ok_scalars env c h data y Hread Hparse)
    as (c' & h' & Hupd & _ & _ & _ & _ & _ & Hname & Hver & Hdesc & Hdoc
        & Horg & Hurl & Hauth).
  destruct (shared_Update_ok_views env c h data y Hread Hparse)
    as (c'' & h'' & Hupd' & _ & _ & _ & _ & _ & Hin & Hout & _).
  rewrite Hupd in Hupd'. injection Hupd' as <- <-. rewrite Hupd.
  cbn [fst snd]. rewrite Hnone in *. cbn in Hname, Hver, Hdesc, Hdoc, Horg,
    Hurl, Hauth, Hin, Hout.
  destruct (shared_card_shape c' agentURL h')
    as (H1 & H2 & H3 & H4 & H5 & H6 & H7 & H8 & H9 & _).
  rewrite Hname in H1. rewrite Hver in H2. rewrite Hdesc in H3.
  rewrite Hdoc in H5. rewrite Hauth in H6. rewrite Horg, Hurl in H7.
  rewrite Hin in H8. rewrite Hout in H9.
  repeat (split; [assumption|]). assumption.
Qed.

(** A store that served the card ["Coder"] serves the default card after
    reloading a document without an A2A section. *)
Lemma X4_shared_card_reset_witness :
  let r := SharedConfig.Update (Fixtures.sharedEnv "users_only")
             Fixtures.sharedCardLoaded.1 Fixtures.sharedCardLoaded.2 in
  let got := SharedConfig.GetA2ACardBaseInfo r.1.1 "http://gate/a2a" r.2 in
  SharedConfig.Name got.1 = "Gate4AI A2A Agent" /\
  SharedConfig.Provider got.1 = None /\
  elems got.2 (SharedConfig.DefaultInputModes got.1) = ["text"].
Proof.
  cbv zeta.
  destruct (X4_shared_card_reset (Fixtures.sharedEnv "users_only")
              Fixtures.sharedCardLoaded.1 Fixtures.sharedCardLoaded.2
              "doc" (Fixtures.sharedDoc "users_only") "http://gate/a2a"
              eq_refl eq_refl eq_refl)
    as (Hname & _ & _ & _ & Hprov & _ & _ & Hin & _).
  split; [exact Hname | split; [exact Hprov | exact Hin]].
Defined.

(** ** The life of a store of [shared/config/yaml.go] *)

Section SharedLife.

Import SharedConfig SharedStore.

Lemma sslModeOf_cases env s : sslModeOf env s = "acme" \/ sslModeOf env s = "manual".
Proof. unfold sslModeOf. case_decide; [left | right]; congruence. Qed.

Lemma poke_above (h h' : heap) (p : loc) (o : object) :
  h `prefix_of` h' -> (List.length h <= p)%nat ->
  sameBelow (List.length h) h (poke h' p o).
Proof.
  intros Hpre Hp l Hl. unfold poke.
  rewrite list_lookup_insert_ne by lia. symmetry. now apply prefix_lookup_lt.
Qed.

Lemma shared_GetUserParams_prefix c userID h :
  h `prefix_of` (GetUserParams c userID h).2 /\
  (GetUserParams c userID h).1 = List.length h.
Proof.
  unfold GetUserParams. destruct (userParams c !! userID);
    unfold bind, ret, readParams, alloc; cbn; split;
    first [reflexivity | solve_prefix].
Qed.

Lemma shared_GetUserSubscribes_prefix c userID h :
  h `prefix_of` (GetUserSubscribes c userID h).2 /\
  (GetUserSubscribes c userID h).1 = Some (List.length h).
Proof.
  unfold GetUserSubscribes. destruct (userSubscribes c !! userID);
    unfold newStrings, bind, ret, readStrings, alloc; cbn; split;
    first [reflexivity | solve_prefix].
Qed.

Lemma shared_GetBackendBySlug_prefix c backendID h :
  h `prefix_of` (GetBackendBySlug c backendID h).2 /\
  forall p, (GetBackendBySlug c backendID h).1 = Ok p -> p = List.length h.
Proof.
  unfold GetBackendBySlug. destruct (backends c !! backendID);
    unfold bind, ret, readBackend, alloc; cbn; split;
    first [solve_prefix | congruence].
Qed.

Lemma shared_SSLAcmeDomains_prefix c h :
  h `prefix_of` (SSLAcmeDomains c h).2 /\
  (SSLAcmeDomains c h).1 = Some (List.length h).
Proof.
  unfold SSLAcmeDomains, newStrings, bind, ret, readStrings, alloc; cbn.
  split; first [reflexivity | solve_prefix].
Qed.

Lemma shared_wellFormed_empty path h : wellFormed path h (emptyConfig path).
Proof.
  split; [reflexivity|]. split; [reflexivity|]. split; [now right|].
  split; [discriminate|]. split; [apply shared_emptyConfig_allocated|].
  now split.
Qed.

Lemma shared_wellFormed_mono path (h h' : heap) c :
  h `prefix_of` h' -> wellFormed path h c -> wellFormed path h' c.
Proof.
  intros Hpre (Hpath & Hparams & Hmode & Hdir & Halloc & Hin & Hout).
  repeat split; try assumption.
  - now apply (shared_allocated_mono h).
  - now apply (shared_allocated_mono h).
  - now apply (shared_allocated_mono h).
  - now apply (shared_allocated_mono h).
  - now apply (allocatedSlice_mono h).
  - now apply (allocatedSlice_mono h).
Qed.

Lemma shared_wellFormed_Update path env c h c' err h' :
  wellFormed path h c ->
  Update env c h = (c', err, h') ->
  wellFormed path h' c'.
Proof.
  intros Hwf Hupd.
  destruct (ReadFile env (configPath c)) as [data|e] eqn:Hread.
  - destruct (Unmarshal env data) as [y|e] eqn:Hparse.
    + destruct (shared_Update_ok_scalars env c h data y Hread Hparse)
        as (c1 & h1 & Hupd1 & Hpath & Hparams & _ & Hmode & Hdir & _).
      destruct (shared_Update_ok_views env c h data y Hread Hparse)
        as (c2 & h2 & Hupd2 & _ & _ & _ & _ & _ & _ & _ & Hcard).
      rewrite Hupd in Hupd1, Hupd2.
      injection Hupd1 as <- _ <-. injection Hupd2 as <- _ <-.
      destruct Hwf as (Hp & Hpar & _ & _ & Halloc & _).
      split; [congruence|]. split; [congruence|].
      split; [rewrite Hmode; apply sslModeOf_cases|].
      split; [rewrite Hdir; now case_decide|].
      split; [|exact Hcard].
      exact (proj2 (shared_Update_allocated _ _ _ _ _ _ Halloc Hupd)).
    + rewrite (shared_Update_malformed _ _ _ _ _ Hread Hparse) in Hupd.
      now injection Hupd as <- _ <-.
  - rewrite (shared_Update_unreadable _ _ _ _ Hread) in Hupd.
    now injection Hupd as <- _ <-.
Qed.

Lemma shared_wellFormed_call path k c h :
  wellFormed path h c ->
  wellFormed path (call k c h).2 (call k c h).1.
Proof.
  intros Hwf. destruct k as [env|u|u|id| |url]; unfold call, bind, ret.
  - destruct (Update env c h) as [[c' err] h'] eqn:Hupd. cbn.
    now apply (shared_wellFormed_Update path env c h c' err h').
  - pose proof (proj1 (shared_GetUserParams_prefix c u h)) as Hpre.
    destruct (GetUserParams c u h). cbn in *.
    now apply (shared_wellFormed_mono path h).
  - pose proof (proj1 (shared_GetUserSubscribes_prefix c u h)) as Hpre.
    destruct (GetUserSubscribes c u h). cbn in *.
    now apply (shared_wellFormed_mono path h).
  - pose proof (proj1 (shared_GetBackendBySlug_prefix c id h)) as Hpre.
    destruct (GetBackendBySlug c id h). cbn in *.
    now apply (shared_wellFormed_mono path h).
  - pose proof (proj1 (shared_SSLAcmeDomains_prefix c h)) as Hpre.
    destruct (SSLAcmeDomains c h). cbn in *.
    now apply (shared_wellFormed_mono path h).
  - destruct (shared_card_shape c url h)
      as (_ & _ & _ & _ & _ & _ & _ & _ & _ & Hpre & _).
    destruct (GetA2ACardBaseInfo c url h). cbn in *.
    now apply (shared_wellFormed_mono path h).
Qed.

Lemma shared_wellFormed_calls path ks : forall c h,
  wellFormed path h c ->
  wellFormed path (calls ks c h).2 (calls ks c h).1.
Proof.
  induction ks as [|k ks IH]; intros c h Hwf; cbn [calls].
  - exact Hwf.
  - unfold bind.
    pose proof (shared_wellFormed_call path k c h Hwf) as Hk.
    destruct (call k c h) as [c' h']. cbn in Hk. now apply IH.
Qed.

(** The store [NewYamlConfig] returns is well formed. *)
Lemma shared_wellFormed_new env path h c err h0 :
  NewYamlConfig env path h = (Some c, err, h0) -> wellFormed path h0 c.
Proof.
  unfold NewYamlConfig, NewYamlConfigWithOptions, bind, ret.
  destruct (Update env (emptyConfig path) h) as [[c' e] h'] eqn:Hupd.
  destruct e; [discriminate|]. intros [= <- _ <-].
  apply (shared_wellFormed_Update path env (emptyConfig path) h c' None h');
    [apply shared_wellFormed_empty | exact Hupd].
Qed.

End SharedLife.

(** X5. For a store of [shared/config/yaml.go] that [NewYamlConfig]
    returned, after any sequence of reloads (successful or not) and accessor
    calls, [SSLMode] returns ["acme"] or ["manual"] and nothing else, and
    [SSLAcmeCacheDir] never returns the empty string. *)
Theorem X5_shared_ssl_normalised env path h c err h0 ks :
  SharedStore.NewYamlConfig env path h = (Some c, err, h0) ->
  let c1 := (SharedStore.calls ks c h0).1 in
  ((SharedStore.SSLMode c1).1 = "acme" \/ (SharedStore.SSLMode c1).1 = "manual") /\
  (SharedStore.SSLAcmeCacheDir c1).1 <> "".
Proof.
  intros Hnew. cbv zeta.
  pose proof (shared_wellFormed_calls path ks c h0
                (shared_wellFormed_new env path h c err h0 Hnew))
    as (_ & _ & Hmode & Hdir & _).
  now split.
Qed.

Lemma X5_shared_ssl_normalised_witness :
  let c0 := (SharedStore.NewYamlConfig (Fixtures.sharedEnv "none")
               Fixtures.path []) in
  exists c, c0.1.1 = Some c /\
    let c1 := (SharedStore.calls
                 [SharedStore.CallUpdate Fixtures.sharedMissing;
                  SharedStore.CallGetBackendBySlug "svc";
                  SharedStore.CallUpdate (Fixtures.sharedEnv "users_only")]
                 c c0.2).1 in
    (SharedStore.SSLMode c1).1 = "manual" /\
    (SharedStore.SSLAcmeCacheDir c1).1 <> "".
Proof.
  cbv zeta.
  destruct (SharedStore.NewYamlConfig (Fixtures.sharedEnv "none")
              Fixtures.path []) as [[[c|] err] h0] eqn:Hnew;
    [|vm_compute in Hnew; discriminate].
  exists c. split; [reflexivity|]. cbn [fst snd].
  destruct (X5_shared_ssl_normalised _ _ _ _ _ _
              [SharedStore.CallUpdate Fixtures.sharedMissing;
               SharedStore.CallGetBackendBySlug "svc";
               SharedStore.CallUpdate (Fixtures.sharedEnv "users_only")] Hnew)
    as [Hmode Hdir].
  split; [|exact Hdir].
  vm_compute in Hnew. injection Hnew as <- _ <-. vm_compute. reflexivity.
Defined.

(** X6. In every state a store of [shared/config/yaml.go] reaches from
    [NewYamlConfig] through reloads and accessor calls, whatever is written
    through the pointer, slice or map that [GetBackendBySlug],
    [GetUserSubscribes], [GetUserParams], [SSLAcmeDomains] or the two mode
    lists of [GetA2ACardBaseInfo] hand out leaves the backend registry, the
    subscriptions, the user parameters, the ACME domains and the configured
    modes of the store as they were. *)
Theorem X6_shared_copies_everywhere env path h c err h0 ks :
  SharedStore.NewYamlConfig env path h = (Some c, err, h0) ->
  let c1 := (SharedStore.calls ks c h0).1 in
  let h1 := (SharedStore.calls ks c h0).2 in
  let unchanged h' :=
    SharedConfig.sameLive h1 h' c1 /\
    elems h' (SharedConfig.a2aDefaultInputModesValue c1) =
      elems h1 (SharedConfig.a2aDefaultInputModesValue c1) /\
    elems h' (SharedConfig.a2aDefaultOutputModesValue c1) =
      elems h1 (SharedConfig.a2aDefaultOutputModesValue c1) in
  (forall backendID p o,
      (SharedConfig.GetBackendBySlug c1 backendID h1).1 = Ok p ->
      unchanged (poke (SharedConfig.GetBackendBySlug c1 backendID h1).2 p o)) /\
  (forall userID p o,
      (SharedConfig.GetUserSubscribes c1 userID h1).1 = Some p ->
      unchanged (poke (SharedConfig.GetUserSubscribes c1 userID h1).2 p o)) /\
  (forall userID o,
      unchanged (poke (SharedConfig.GetUserParams c1 userID h1).2
                      (SharedConfig.GetUserParams c1 userID h1).1 o)) /\
  (forall p o,
      (SharedConfig.SSLAcmeDomains c1 h1).1 = Some p ->
      unchanged (poke (SharedConfig.SSLAcmeDomains c1 h1).2 p o)) /\
  (forall agentURL p o,
      let card := SharedConfig.GetA2ACardBaseInfo c1 agentURL h1 in
      SharedConfig.DefaultInputModes card.1 = Some p \/
      SharedConfig.DefaultOutputModes card.1 = Some p ->
      unchanged (poke card.2 p o)).
Proof.
  intros Hnew. cbv zeta.
  pose proof (shared_wellFormed_calls path ks c h0
                (shared_wellFormed_new env path h c err h0 Hnew))
    as (_ & _ & _ & _ & Halloc & Hin & Hout).
  set (c1 := (SharedStore.calls ks c h0).1) in *.
  set (h1 := (SharedStore.calls ks c h0).2) in *.
  assert (Hframe : forall h' p o,
             h1 `prefix_of` h' -> (List.length h1 <= p)%nat ->
             SharedConfig.sameLive h1 (poke h' p o) c1 /\
             elems (poke h' p o) (SharedConfig.a2aDefaultInputModesValue c1) =
               elems h1 (SharedConfig.a2aDefaultInputModesValue c1) /\
             elems (poke h' p o) (SharedConfig.a2aDefaultOutputModesValue c1) =
               elems h1 (SharedConfig.a2aDefaultOutputModesValue c1)).
  { intros h' p o Hpre Hp.
    pose proof (poke_above h1 h' p o Hpre Hp) as Hsame.
    split; [now apply shared_sameLive|].
    split; now apply elems_sameBelow. }
  split; [|split; [|split; [|split]]].
  - intros id p o Hp.
    destruct (shared_GetBackendBySlug_prefix c1 id h1) as [Hpre Hfresh].
    apply Hframe; [exact Hpre|]. rewrite (Hfresh p Hp). lia.
  - intros u p o Hp.
    destruct (shared_GetUserSubscribes_prefix c1 u h1) as [Hpre Hfresh].
    apply Hframe; [exact Hpre|]. rewrite Hfresh in Hp.
    injection Hp as <-. lia.
  - intros u o.
    destruct (shared_GetUserParams_prefix c1 u h1) as [Hpre Hfresh].
    apply Hframe; [exact Hpre|]. rewrite Hfresh. lia.
  - intros p o Hp.
    destruct (shared_SSLAcmeDomains_prefix c1 h1) as [Hpre Hfresh].
    apply Hframe; [exact Hpre|]. rewrite Hfresh in Hp.
    injection Hp as <-. lia.
  - intros url p o Hp.
    destruct (shared_card_shape c1 url h1)
      as (_ & _ & _ & _ & _ & _ & _ & _ & _ & Hpre & pi & po & Hpi & Hpo
          & Hi & Ho).
    apply Hframe; [exact Hpre|].
    destruct Hp as [Hp|Hp]; [rewrite Hpi in Hp | rewrite Hpo in Hp];
      injection Hp as <-; assumption.
Qed.

(** On the loaded sample store, after a reload, overwriting the descriptor
    [GetBackendBySlug] returns for ["svc"] leaves the registry serving the
    document's descriptor. *)
Lemma X6_shared_copies_everywhere_witness :
  let c0 := SharedStore.NewYamlConfig (Fixtures.sharedEnv "none")
              Fixtures.path [] in
  exists c, c0.1.1 = Some c /\
    let r := SharedStore.calls
               [SharedStore.CallUpdate (Fixtures.sharedEnv "users_only")]
               c c0.2 in
    let got := SharedConfig.GetBackendBySlug r.1 "svc" r.2 in
    got.1 = Ok (List.length r.2) /\
    SharedConfig.liveBackends
      (poke got.2 (List.length r.2)
            (ObjBackend (mkBackend "http://elsewhere" ""))) r.1 =
    SharedConfig.liveBackends r.2 r.1.
Proof.
  cbv zeta.
  destruct (SharedStore.NewYamlConfig (Fixtures.sharedEnv "none")
              Fixtures.path []) as [[[c|] err] h0] eqn:Hnew;
    [|vm_compute in Hnew; discriminate].
  exists c. split; [reflexivity|]. cbn [fst snd].
  assert (Hgot : (SharedConfig.GetBackendBySlug
                    (SharedStore.calls
                       [SharedStore.CallUpdate (Fixtures.sharedEnv "users_only")]
                       c h0).1 "svc"
                    (SharedStore.calls
                       [SharedStore.CallUpdate (Fixtures.sharedEnv "users_only")]
                       c h0).2).1 =
                 Ok (List.length
                       (SharedStore.calls
                          [SharedStore.CallUpdate (Fixtures.sharedEnv "users_only")]
                          c h0).2)).
  { pose proof Hnew as Hc. vm_compute in Hc. injection Hc as <- _ <-.
    vm_compute. reflexivity. }
  split; [exact Hgot|].
  destruct (X6_shared_copies_everywhere _ _ _ _ _ _
              [SharedStore.CallUpdate (Fixtures.sharedEnv "users_only")] Hnew)
    as [Hback _].
  exact (proj1 (proj1 (Hback "svc" _
                         (ObjBackend (mkBackend "http://elsewhere" "")) Hgot))).
Defined.

(** X7. A store of [shared/config/yaml.go] never holds user parameters:
    in every state reached from [NewYamlConfig], [GetUserParams] returns a
    newly allocated empty map for every user id. *)
Theorem X7_shared_user_params_empty env path h c err h0 ks userID :
  SharedStore.NewYamlConfig env path h = (Some c, err, h0) ->
  let r := SharedStore.calls ks c h0 in
  let got := SharedConfig.GetUserParams r.1 userID r.2 in
  got.1 = List.length r.2 /\ params_at got.2 got.1 = Some ∅.
Proof.
  intros Hnew. cbv zeta.
  pose proof (shared_wellFormed_calls path ks c h0
                (shared_wellFormed_new env path h c err h0 Hnew))
    as (_ & Hparams & _).
  unfold SharedConfig.GetUserParams. rewrite Hparams, lookup_empty.
  unfold alloc. cbn [fst snd]. split; [reflexivity|]. heap_read.
Qed.

Lemma X7_shared_user_params_empty_witness :
  let c0 := SharedStore.NewYamlConfig (Fixtures.sharedEnv "none")
              Fixtures.path [] in
  exists c, c0.1.1 = Some c /\
    let got := SharedConfig.GetUserParams c "alice" c0.2 in
    params_at got.2 got.1 = Some ∅.
Proof.
  cbv zeta.
  destruct (SharedStore.NewYamlConfig (Fixtures.sharedEnv "none")
              Fixtures.path []) as [[[c|] err] h0] eqn:Hnew;
    [|vm_compute in Hnew; discriminate].
  exists c. split; [reflexivity|]. cbn [fst snd].
  exact (proj2 (X7_shared_user_params_empty _ _ _ _ _ _ [] "alice" Hnew)).
Defined.

(** ** What a successful [Update] of the watcher revision leaves *)

Section WatchedRefinement.

Import WatchedConfig Document.

Lemma watched_rangeUsers_keys old users :
  forall keys (subs : gmap string slice) affected (h : heap)
         keys' subs' affected' h',
    rangeUsers old users keys subs affected h = (keys', subs', affected', h') ->
    keys' = indexKeys (prod_map id Keys <$> users) keys.
Proof.
  unfold indexKeys.
  induction users as [|[userID user] rest IH];
    intros keys subs affected h keys' subs' affected' h'; cbn [rangeUsers].
  - now intros [= <- _ _ _].
  - rewrite fmap_cons. cbn [foldl prod_map fst snd id].
    destruct (0 <? List.length (Subscribes user))%nat.
    + unfold bind, newStrings, alloc, ret. intros Hrest.
      now apply IH in Hrest.
    + intros Hrest. now apply IH in Hrest.
Qed.

Lemma watched_rangeBackends_pure bs :
  forall (reg : gmap string loc) (h : heap) reg' h',
    map_Forall (fun _ p => (p < List.length h)%nat) reg ->
    rangeBackends bs reg h = (reg', h') ->
    backend_at h' <$> reg' =
      registry
        (prod_map id (fun b => Some (mkBackend (Backend_URL b) (Backend_Bearer b)))
           <$> bs)
        (backend_at h <$> reg).
Proof.
  unfold registry.
  induction bs as [|[backendID backend] rest IH];
    intros reg h reg' h' Hreg; cbn [rangeBackends].
  - now intros [= <- <-].
  - rewrite fmap_cons. cbn [foldl prod_map fst snd id].
    unfold bind, alloc. intros Hrest. apply IH in Hrest as ->.
    + f_equal. rewrite fmap_insert. unfold backend_at at 1.
      rewrite lookup_alloc_new. f_equal.
      apply map_fmap_ext. intros id p Hid.
      apply backend_at_prefix; [apply alloc_prefix | exact (Hreg id p Hid)].
    + apply map_Forall_insert_2; [apply alloc_allocated|].
      eapply map_Forall_impl; [exact Hreg|].
      intros ? p. apply allocated_loc_mono, alloc_prefix.
Qed.

(** What the store of the watcher revision holds after a successful
    [Update]. *)
Lemma watched_Update_ok_views env c h data y :
  ReadFile env (configPath c) = Ok data ->
  Unmarshal env data = Ok y ->
  exists c' h',
    Update env c h = (c', None, h') /\
    h `prefix_of` h' /\
    configPath c' = configPath c /\
    serverAddress c' = Server_Address (Server y) /\
    lastModified c' = lastModified c /\
    isWatching c' = isWatching c /\
    userAuthKeys c' = indexKeys (prod_map id Keys <$> Users y) ∅ /\
    liveBackends h' c' =
      registry
        (prod_map id (fun b => Some (mkBackend (Backend_URL b) (Backend_Bearer b)))
           <$> Backends y) ∅.
Proof.
  intros Hread Hparse. unfold Update. rewrite Hread, Hparse.
  unfold bind, ret.
  destruct (rangeUsers _ _ _ _ _ h) as [[[keys subs] affected] h1] eqn:Hu.
  destruct (rangeBackends _ _ h1) as [reg h2] eqn:Hb.
  eexists _, _. split; [reflexivity|].
  pose proof (watched_rangeUsers_keys _ _ _ _ _ _ _ _ _ _ Hu) as Hkeys.
  pose proof (watched_rangeUsers_allocated _ _ _ _ _ _ _ _ _ _
                (map_Forall_empty _) Hu) as [Hpre1 _].
  pose proof (watched_rangeBackends_pure _ _ _ _ _
                (map_Forall_empty _) Hb) as Hreg.
  pose proof (watched_rangeBackends_allocated _ _ _ _ _
                (map_Forall_empty _) Hb) as [Hpre2 _].
  rewrite fmap_empty in Hreg.
  split; [etransitivity; eassumption|].
  repeat (split; [reflexivity|]). split; [exact Hkeys | exact Hreg].
Qed.

(** The scan of [GetUserIDByKeyHash] does not depend on the order in which
    [range] visits the users as long as one user at most lists the key. *)
Lemma findUser_unique users keyHash userID user :
  (userID, user) ∈ users -> keyHash ∈ Keys user ->
  (forall u' user', (u', user') ∈ users -> keyHash ∈ Keys user' -> u' = userID) ->
  findUser users keyHash = Some userID.
Proof.
  intros Hin Hk Huniq.
  destruct (findUser users keyHash) as [u|] eqn:Hfind.
  - apply findUser_Some in Hfind as (user' & Hin' & Hk').
    f_equal. now apply (Huniq u user').
  - exfalso. exact (findUser_None _ _ Hfind userID user Hin Hk).
Qed.

End WatchedRefinement.

(** X8. In the watcher revision, when the file still holds the document
    the last successful [Update] loaded (its users visited in any order) and
    no key hash is listed by two users, [GetUserIDByKeyHash], which scans
    the file, returns for every key hash the user the in-memory index binds
    it to, and the empty user id when the index does not bind it; in both
    cases without an error. *)
Theorem X8_watched_scan_agrees_with_index env env' c h data y data' y' keyHash :
  WatchedConfig.ReadFile env (WatchedConfig.configPath c) = Ok data ->
  WatchedConfig.Unmarshal env data = Ok y ->
  WatchedConfig.ReadFile env' (WatchedConfig.configPath c) = Ok data' ->
  WatchedConfig.Unmarshal env' data' = Ok y' ->
  WatchedConfig.Users y' ≡ₚ WatchedConfig.Users y ->
  (forall u1 user1 u2 user2,
      (u1, user1) ∈ WatchedConfig.Users y ->
      (u2, user2) ∈ WatchedConfig.Users y ->
      keyHash ∈ WatchedConfig.Keys user1 ->
      keyHash ∈ WatchedConfig.Keys user2 -> u1 = u2) ->
  let c' := (WatchedConfig.Update env c h).1.1 in
  WatchedConfig.GetUserIDByKeyHash env' c' keyHash =
    (default "" (WatchedConfig.userAuthKeys c' !! keyHash), None).
Proof.
  intros Hread Hparse Hread' Hparse' Hperm Huniq. cbv zeta.
  destruct (watched_Update_ok_views env c h data y Hread Hparse)
    as (c' & h' & -> & _ & Hpath & _ & _ & _ & Hkeys & _).
  cbn [fst]. unfold WatchedConfig.GetUserIDByKeyHash.
  rewrite Hpath, Hread', Hparse', Hkeys.
  destruct (WatchedConfig.findUser (WatchedConfig.Users y') keyHash)
    as [u|] eqn:Hfind.
  - apply findUser_Some in Hfind as (user & Hin & Hk).
    rewrite Hperm in Hin.
    rewrite (indexKeys_unique _ ∅ keyHash u (WatchedConfig.Keys user)).
    + reflexivity.
    + apply list_elem_of_fmap. now exists (u, user).
    + exact Hk.
    + apply lookup_empty.
    + intros u' keys' Hin' Hk'.
      apply list_elem_of_fmap in Hin' as ([u'' user'] & [= -> ->] & Hin').
      exact (Huniq u'' user' u user Hin' Hin Hk' Hk).
  - rewrite indexKeys_unlisted; [now rewrite lookup_empty|].
    intros u keys Hin Hk.
    apply list_elem_of_fmap in Hin as ([u' user] & [= -> ->] & Hin).
    rewrite <- Hperm in Hin.
    exact (findUser_None _ _ Hfind u' user Hin Hk).
Qed.

(** Splits the membership hypotheses of a concrete list into its cases. *)
Ltac list_cases :=
  repeat match goal with
         | H : _ ∈ [] |- _ => inversion H
         | H : _ ∈ _ :: _ |- _ => apply elem_of_cons in H as [H|H]
         | H : (_, _) = (_, _) |- _ => injection H as ? ?; subst
         end.

(** With the users of the sample document visited in the opposite order,
    the scan of the file and the index of the store agree on ["h3"]. *)
Lemma X8_watched_scan_agrees_with_index_witness :
  let env' :=
    {| WatchedConfig.ReadFile := fun _ => Ok "doc";
       WatchedConfig.Unmarshal := fun _ =>
         Ok {| WatchedConfig.Server :=
                 WatchedConfig.Server (Fixtures.watchedDoc "users_only");
               WatchedConfig.Users :=
                 reverse (WatchedConfig.Users (Fixtures.watchedDoc "users_only"));
               WatchedConfig.Backends := [] |} |} in
  let c' := (WatchedConfig.Update (Fixtures.watchedEnv "users_only")
               (WatchedConfig.emptyConfig Fixtures.path) []).1.1 in
  WatchedConfig.GetUserIDByKeyHash env' c' "h3" = ("bob", None).
Proof.
  intros env' c'. subst c'.
  rewrite (X8_watched_scan_agrees_with_index
             (Fixtures.watchedEnv "users_only") env'
             (WatchedConfig.emptyConfig Fixtures.path) [] "doc"
             (Fixtures.watchedDoc "users_only") "doc" _ "h3"
             eq_refl eq_refl eq_refl eq_refl).
  - vm_compute. reflexivity.
  - apply reverse_Permutation.
  - intros u1 user1 u2 user2 H1 H2 K1 K2. cbn in H1, H2.
    list_cases; cbn in K1, K2; list_cases; try discriminate; reflexivity.
Defined.

(** When two users list a key hash, the scan returns the first of them and
    the index holds the last. *)
Example watched_scan_differs_from_index :
  let doc := {| WatchedConfig.Server :=
                  WatchedConfig.Server (Fixtures.watchedDoc "users_only");
                WatchedConfig.Users :=
                  [("alice", {| WatchedConfig.Keys := ["k"];
                                WatchedConfig.Subscribes := [] |});
                   ("bob", {| WatchedConfig.Keys := ["k"];
                              WatchedConfig.Subscribes := [] |})];
                WatchedConfig.Backends := [] |} in
  let env := {| WatchedConfig.ReadFile := fun _ => Ok "doc";
                WatchedConfig.Unmarshal := fun _ => Ok doc |} in
  let c' := (WatchedConfig.Update env
               (WatchedConfig.emptyConfig Fixtures.path) []).1.1 in
  WatchedConfig.GetUserIDByKeyHash env c' "k" = ("alice", None) /\
  WatchedConfig.userAuthKeys c' !! "k" = Some "bob".
Proof. vm_compute. split; reflexivity. Qed.

(** ** The watcher's life *)

Section WatcherLife.

Import WatchedConfig WatchedStore.

Lemma sameSnapshot_refl c : sameSnapshot c c.
Proof. reflexivity. Qed.

Lemma StartWatcher_cases newWatcher stat c :
  StartWatcher newWatcher stat c =
    if isWatching c then (c, None)
    else match newWatcher, stat with
         | Some err, _ => (c, Some err)
         | None, Ok modTime =>
             (withLastModified modTime (withWatching true c), None)
         | None, Err _ => (withWatching true c, None)
         end.
Proof.
  unfold StartWatcher. destruct (isWatching c); [reflexivity|].
  destruct newWatcher; [reflexivity|]. now destruct stat.
Qed.

(** What follows a stopping receipt is never looked at. *)
Lemma watch_stops minInterval pre : forall stop post c h,
  stops stop = true ->
  watch minInterval (pre ++ stop :: post) c h = watch minInterval pre c h.
Proof.
  induction pre as [|[op t env| |err| |] pre IH]; intros stop post c h Hstop;
    cbn [app watch].
  - now destruct stop.
  - unfold bind.
    destruct (onEvent minInterval op t env c h) as [[c1 r] h1].
    now rewrite (IH stop post c1 h1 Hstop).
  - reflexivity.
  - now apply IH.
  - reflexivity.
  - reflexivity.
Qed.

End WatcherLife.

(** X9. The watcher's switch in the watcher revision: [StartWatcher] on a
    store that is watching returns nil and changes nothing; on a store that
    is not, it fails with the error of the watcher's creation and changes
    nothing, or it succeeds, sets the flag, and takes the file's
    modification time as last-applied timestamp when [os.Stat] gives one
    (a file that cannot be stat'ed does not keep it from watching).
    [StopWatcher] clears the flag and is idempotent.  Neither touches the
    snapshot. *)
Theorem X9_watcher_switch newWatcher stat c :
  let started := WatchedConfig.StartWatcher newWatcher stat c in
  (WatchedConfig.isWatching c = true -> started = (c, None)) /\
  (WatchedConfig.isWatching c = false ->
   forall err, newWatcher = Some err -> started = (c, Some err)) /\
  (WatchedConfig.isWatching c = false -> newWatcher = None ->
   started.2 = None /\
   WatchedStore.IsWatching started.1 = true /\
   WatchedConfig.lastModified started.1 =
     match stat with
     | Ok modTime => modTime
     | Err _ => WatchedConfig.lastModified c
     end) /\
  (forall newWatcher' stat',
      WatchedStore.IsWatching started.1 = true ->
      WatchedConfig.StartWatcher newWatcher' stat' started.1 = (started.1, None)) /\
  WatchedStore.IsWatching (WatchedConfig.StopWatcher c) = false /\
  WatchedConfig.StopWatcher (WatchedConfig.StopWatcher c) =
    WatchedConfig.StopWatcher c /\
  WatchedStore.sameSnapshot c started.1 /\
  WatchedStore.sameSnapshot c (WatchedConfig.StopWatcher c).
Proof.
  cbv zeta. rewrite StartWatcher_cases.
  unfold WatchedStore.IsWatching, WatchedConfig.StopWatcher,
    WatchedStore.sameSnapshot.
  split; [|split; [|split; [|split; [|split; [|split; [|split]]]]]].
  - intros ->. reflexivity.
  - intros -> err ->. reflexivity.
  - intros -> ->. destruct stat; cbn; now repeat split.
  - intros newWatcher' stat' Hw. rewrite StartWatcher_cases.
    unfold WatchedStore.IsWatching in Hw. now rewrite Hw.
  - destruct (WatchedConfig.isWatching c) eqn:Hw; [reflexivity | exact Hw].
  - destruct (WatchedConfig.isWatching c) eqn:Hw; cbn; [reflexivity|].
    now rewrite Hw.
  - destruct (WatchedConfig.isWatching c); [reflexivity|].
    destruct newWatcher; [reflexivity|]. now destruct stat.
  - now destruct (WatchedConfig.isWatching c).
Qed.

(** Starting twice and stopping twice on the loaded sample store. *)
Lemma X9_watcher_switch_witness :
  let c := Fixtures.watchedLoaded.1 in
  let started := WatchedConfig.StartWatcher None (Ok 7%Z) c in
  started.2 = None /\
  WatchedStore.IsWatching started.1 = true /\
  WatchedConfig.lastModified started.1 = 7%Z /\
  WatchedConfig.StartWatcher None (Ok 9%Z) started.1 = (started.1, None) /\
  WatchedConfig.StartWatcher (Some (ErrOS "too many open files")) (Ok 7%Z) c =
    (c, Some (ErrOS "too many open files")).
Proof.
  cbv zeta.
  pose proof (X9_watcher_switch None (Ok 7%Z) Fixtures.watchedLoaded.1)
    as (_ & _ & Hstart & Hagain & _).
  destruct (Hstart eq_refl eq_refl) as (H1 & H2 & H3).
  split; [exact H1|]. split; [exact H2|]. split; [exact H3|].
  split; [exact (Hagain None (Ok 9%Z) H2)|].
  apply (proj1 (proj2 (X9_watcher_switch
                         (Some (ErrOS "too many open files")) (Ok 7%Z)
                         Fixtures.watchedLoaded.1)) eq_refl _ eq_refl).
Defined.

(** X10. In the watcher revision a reload that fails still moves the
    last-applied timestamp: when the file is unreadable or malformed at an
    event that is acted on, and the next event follows in less than
    [minInterval], that next event is dropped whatever the file holds by
    then, and the store keeps the old snapshot. *)
Theorem X10_failed_reload_shadows_fix minInterval op1 t1 env1 op2 t2 env2 rest c h :
  (WatchedConfig.minDuration <= minInterval <= WatchedConfig.maxDuration)%Z ->
  (WatchedConfig.Has op1 WatchedConfig.Write
   || WatchedConfig.Has op1 WatchedConfig.Create) = true ->
  (minInterval < WatchedConfig.Sub t1 (WatchedConfig.lastModified c))%Z ->
  WatchedConfig.loadFails env1 c = true ->
  (t2 - t1 < minInterval)%Z ->
  exists err,
    WatchedConfig.watch minInterval
      (WatchedConfig.FileEvent op1 t1 env1
       :: WatchedConfig.FileEvent op2 t2 env2 :: rest) c h =
    (let '(c', reloads, h') :=
       WatchedConfig.watch minInterval rest
         (WatchedConfig.withLastModified t1 c) h in
     (c', WatchedConfig.mkReload t1 (Some err) :: reloads, h')).
Proof.
  intros Hm Hop Hgt Hfail Hin.
  destruct (watched_Update_loadFails env1
              (WatchedConfig.withLastModified t1 c) h Hfail) as [err Hupd].
  exists err. cbn [WatchedConfig.watch]. unfold bind, ret.
  rewrite onEvent_cases, Hop. apply Z.ltb_lt in Hgt. rewrite Hgt.
  cbn [andb]. rewrite Hupd. rewrite onEvent_cases.
  cbn [WatchedConfig.lastModified WatchedConfig.withLastModified].
  rewrite (Sub_inside _ _ _ Hm Hin), andb_false_r.
  now destruct (WatchedConfig.watch minInterval rest
                  (WatchedConfig.withLastModified t1 c) h) as [[c2 rs] h2].
Qed.

(** A malformed write at 1.5s followed by the corrected file 0.3s later:
    one failed reload, and the store still holds the first document. *)
Lemma X10_failed_reload_shadows_fix_witness :
  exists err,
    WatchedConfig.watch Fixtures.second
      [WatchedConfig.FileEvent WatchedConfig.Write (1500 * Fixtures.millisecond)%Z
         Fixtures.watchedMalformed;
       WatchedConfig.FileEvent WatchedConfig.Write (1800 * Fixtures.millisecond)%Z
         (Fixtures.watchedEnv "none")]
      Fixtures.watchedLoaded.1 Fixtures.watchedLoaded.2 =
    (WatchedConfig.withLastModified (1500 * Fixtures.millisecond)%Z
       Fixtures.watchedLoaded.1,
     [WatchedConfig.mkReload (1500 * Fixtures.millisecond)%Z (Some err)],
     Fixtures.watchedLoaded.2).
Proof.
  apply (X10_failed_reload_shadows_fix Fixtures.second WatchedConfig.Write
           (1500 * Fixtures.millisecond)%Z Fixtures.watchedMalformed
           WatchedConfig.Write (1800 * Fixtures.millisecond)%Z
           (Fixtures.watchedEnv "none") []).
  - unfold WatchedConfig.minDuration, WatchedConfig.maxDuration,
      Fixtures.second. lia.
  - reflexivity.
  - vm_compute. reflexivity.
  - reflexivity.
  - vm_compute. reflexivity.
Defined.

(** X11. Once the goroutine of the watcher revision has received the close
    of its done channel or found its event or error channel closed, nothing
    that arrives later is acted on: the store, the heap and the reloads are
    those of the receipts before. *)
Theorem X11_nothing_after_stop add minInterval pre stop post c h :
  WatchedStore.stops stop = true ->
  WatchedConfig.watcherGoroutine add minInterval (pre ++ stop :: post) c h =
  WatchedConfig.watcherGoroutine add minInterval pre c h.
Proof.
  intros Hstop. unfold WatchedConfig.watcherGoroutine.
  destruct add; [reflexivity|]. now apply watch_stops.
Qed.

(** A write that arrives after [StopWatcher] closed the done channel
    reloads nothing. *)
Lemma X11_nothing_after_stop_witness :
  WatchedConfig.watcherGoroutine None Fixtures.second
    ([] ++ WatchedConfig.Done :: Fixtures.burst)
    Fixtures.watchedLoaded.1 Fixtures.watchedLoaded.2 =
  (Fixtures.watchedLoaded.1, [], Fixtures.watchedLoaded.2).
Proof.
  rewrite (X11_nothing_after_stop None Fixtures.second [] WatchedConfig.Done
             Fixtures.burst _ _ eq_refl).
  reflexivity.
Defined.

(** X12. [NewYamlConfigWithOptions] of the watcher revision.  Called
    without a logger while [zap.NewProduction] fails, it gives nil and that
    error, and the file is not read.  With a logger at hand (passed in, or
    made by [zap.NewProduction]): a file that cannot be loaded gives nil and
    the error; without hot reload a loaded file gives a store that is not
    watching; with hot reload it gives a watching store, or, when the
    watcher cannot be created, the loaded store (not watching) together with
    the error. *)
Theorem X12_watched_constructor {Logger : Type} env
    (NewProduction : result Logger) newWatcher stat path
    (logger : option Logger) options h :
  let made := WatchedStore.NewYamlConfigWithOptions env NewProduction
                newWatcher stat path logger options h in
  let loaded := WatchedConfig.Update env (WatchedConfig.emptyConfig path) h in
  (forall e, logger = None -> NewProduction = Err e ->
   made = (None, Some e, h)) /\
  (is_Some logger \/ (exists l, NewProduction = Ok l) ->
   (WatchedConfig.loadFails env (WatchedConfig.emptyConfig path) = true ->
    exists err, made = (None, Some err, h)) /\
   (WatchedConfig.loadFails env (WatchedConfig.emptyConfig path) = false ->
    made.2 = loaded.2 /\
    exists c, made.1.1 = Some c /\
      WatchedStore.sameSnapshot loaded.1.1 c /\
      (WatchedStore.EnableHotReload options = false ->
       made.1.2 = None /\ c = loaded.1.1 /\
       WatchedStore.IsWatching c = false) /\
      (WatchedStore.EnableHotReload options = true ->
       made.1.2 = newWatcher /\
       WatchedStore.IsWatching c
       = (if newWatcher is Some _ then false else true)))).
Proof.
  cbv zeta. unfold WatchedStore.NewYamlConfigWithOptions. split.
  { intros e -> ->. reflexivity. }
  intros Hlogger.
  assert (Hchosen : exists l,
      match logger with None => NewProduction | Some logger => Ok logger end
      = Ok l).
  { destruct logger as [l|]; [now exists l|].
    destruct Hlogger as [[l Hl] | Hl]; [discriminate Hl | exact Hl]. }
  destruct Hchosen as [l ->]. unfold bind, ret. split.
  - intros Hfail.
    destruct (watched_Update_loadFails env (WatchedConfig.emptyConfig path) h
                Hfail) as [err ->].
    now exists err.
  - intros Hload. unfold WatchedConfig.loadFails in Hload.
    destruct (WatchedConfig.ReadFile env _) as [data|] eqn:Hread;
      [|discriminate].
    destruct (WatchedConfig.Unmarshal env data) as [y|] eqn:Hparse;
      [|discriminate].
    destruct (watched_Update_ok_views env (WatchedConfig.emptyConfig path) h
                data y Hread Hparse)
      as (c' & h' & -> & _ & _ & _ & _ & Hw & _).
    cbn in Hw. cbn [fst snd].
    destruct (WatchedStore.EnableHotReload options).
    + rewrite StartWatcher_cases, Hw.
      destruct newWatcher as [e|]; [|destruct stat as [modTime|e]];
        cbn [fst snd]; (split; [reflexivity|]); eexists;
        (split; [reflexivity|]); (split; [reflexivity|]);
        (split; [discriminate|]); intros _; unfold WatchedStore.IsWatching;
        cbn; now rewrite ?Hw.
    + cbn [fst snd]. split; [reflexivity|]. exists c'.
      split; [reflexivity|]. split; [reflexivity|].
      split; [|discriminate]. intros _. now repeat split.
Qed.

(** Three calls: a watcher that cannot be created leaves the loaded store
    with the error; a malformed file gives nil; no logger and no way to make
    one gives nil before the (well-formed) file is looked at. *)
Lemma X12_watched_constructor_witness :
  (exists c,
      (WatchedStore.NewYamlConfigWithOptions (Fixtures.watchedEnv "none")
         (Ok tt) (Some (ErrOS "too many open files")) (Ok 7%Z) Fixtures.path
         None
         {| WatchedStore.EnableHotReload := true;
            WatchedStore.HotReloadMinInterval := Fixtures.second |} []).1 =
      (Some c, Some (ErrOS "too many open files")) /\
      WatchedStore.IsWatching c = false) /\
  (exists err,
      WatchedStore.NewYamlConfigWithOptions Fixtures.watchedMalformed
        (Err (ErrOS "no sink")) None (Ok 7%Z) Fixtures.path (Some tt)
        WatchedStore.DefaultYamlConfigOptions [] =
      (None, Some err, [])) /\
  WatchedStore.NewYamlConfigWithOptions (Fixtures.watchedEnv "none")
    (Err (ErrOS "no sink") : result unit) None (Ok 7%Z) Fixtures.path None
    WatchedStore.DefaultYamlConfigOptions [] =
  (None, Some (ErrOS "no sink"), []).
Proof.
  split; [|split].
  - destruct (proj2 (proj2 (X12_watched_constructor
                       (Fixtures.watchedEnv "none") (Ok tt)
                       (Some (ErrOS "too many open files")) (Ok 7%Z)
                       Fixtures.path None
                       {| WatchedStore.EnableHotReload := true;
                          WatchedStore.HotReloadMinInterval := Fixtures.second |}
                       []) (or_intror (ex_intro _ tt eq_refl))) eq_refl)
      as (_ & c & Hc & _ & _ & Hhot).
    destruct (Hhot eq_refl) as [Herr Hw].
    exists c. split; [|exact Hw].
    destruct (WatchedStore.NewYamlConfigWithOptions _ _ _ _ _ _ _)
      as [[c0 e0] h0]. cbn in *. congruence.
  - apply (proj1 (proj2 (X12_watched_constructor Fixtures.watchedMalformed
                    (Err (ErrOS "no sink")) None (Ok 7%Z) Fixtures.path
                    (Some tt) WatchedStore.DefaultYamlConfigOptions [])
                   (or_introl (ex_intro _ tt eq_refl)))).
    reflexivity.
  - exact (proj1 (X12_watched_constructor (Fixtures.watchedEnv "none")
                    (Err (ErrOS "no sink") : result unit) None (Ok 7%Z)
                    Fixtures.path None
                    WatchedStore.DefaultYamlConfigOptions [])
                 (ErrOS "no sink") eq_refl eq_refl).
Defined.

(** X13. [SetListenAddr] of the watcher revision lasts until the next
    reload that succeeds: [ListenAddr] returns the address set, a reload
    that fails keeps it, and a reload that succeeds leaves exactly the store
    and the heap it would have left without the call. *)
Theorem X13_SetListenAddr_until_reload env add c h :
  (WatchedStore.ListenAddr (WatchedStore.SetListenAddr add c)).1 = add /\
  (WatchedConfig.loadFails env c = true ->
   (WatchedStore.ListenAddr
      (WatchedConfig.Update env (WatchedStore.SetListenAddr add c) h).1.1).1
   = add) /\
  (WatchedConfig.loadFails env c = false ->
   WatchedConfig.Update env (WatchedStore.SetListenAddr add c) h =
   WatchedConfig.Update env c h).
Proof.
  split; [reflexivity|]. split.
  - intros Hfail.
    destruct (watched_Update_loadFails env (WatchedStore.SetListenAddr add c) h
                Hfail) as [err ->].
    reflexivity.
  - unfold WatchedConfig.loadFails, WatchedConfig.Update.
    cbn [WatchedConfig.configPath WatchedStore.SetListenAddr].
    destruct (WatchedConfig.ReadFile env (WatchedConfig.configPath c))
      as [data|]; [|discriminate].
    destruct (WatchedConfig.Unmarshal env data) as [y|]; [|discriminate].
    reflexivity.
Qed.

Lemma X13_SetListenAddr_until_reload_witness :
  (WatchedStore.ListenAddr
     (WatchedConfig.Update Fixtures.watchedMalformed
        (WatchedStore.SetListenAddr ":9090" Fixtures.watchedLoaded.1)
        Fixtures.watchedLoaded.2).1.1).1 = ":9090" /\
  (WatchedStore.ListenAddr
     (WatchedConfig.Update (Fixtures.watchedEnv "none")
        (WatchedStore.SetListenAddr ":9090" Fixtures.watchedLoaded.1)
        Fixtures.watchedLoaded.2).1.1).1 = ":8080".
Proof.
  split.
  - apply (proj1 (proj2 (X13_SetListenAddr_until_reload
                           Fixtures.watchedMalformed ":9090"
                           Fixtures.watchedLoaded.1 Fixtures.watchedLoaded.2))).
    reflexivity.
  - rewrite (proj2 (proj2 (X13_SetListenAddr_until_reload
                             (Fixtures.watchedEnv "none") ":9090"
                             Fixtures.watchedLoaded.1 Fixtures.watchedLoaded.2))
               eq_refl).
    vm_compute. reflexivity.
Defined.

(** X14. After a successful [Update] of the watcher revision on a document
    whose backend slugs are distinct, [GetBackend] returns for a slug of the
    document a pointer into the registry, allocating nothing, behind which
    lie the document's URL and bearer token; for any other slug it returns
    [ErrNotFound]. *)
Theorem X14_watched_backends env c h data y backendID :
  WatchedConfig.ReadFile env (WatchedConfig.configPath c) = Ok data ->
  WatchedConfig.Unmarshal env data = Ok y ->
  NoDup (WatchedConfig.Backends y).*1 ->
  let r := WatchedConfig.Update env c h in
  let got := WatchedConfig.GetBackend r.1.1 backendID r.2 in
  got.2 = r.2 /\
  match SharedStore.entry backendID (WatchedConfig.Backends y) with
  | Some b =>
      exists p, got.1 = Ok p /\
        WatchedConfig.backends r.1.1 !! backendID = Some p /\
        backend_at r.2 p =
          Some (mkBackend (WatchedConfig.Backend_URL b)
                          (WatchedConfig.Backend_Bearer b))
  | None => got.1 = Err ErrNotFound
  end.
Proof.
  intros Hread Hparse Hnd. cbv zeta.
  destruct (watched_Update_ok_views env c h data y Hread Hparse)
    as (c' & h' & -> & _ & _ & _ & _ & _ & _ & Hreg).
  cbn [fst snd].
  assert (Hlook : backend_at h' <$> (WatchedConfig.backends c' !! backendID) =
                  (fun b => Some (mkBackend (WatchedConfig.Backend_URL b)
                                            (WatchedConfig.Backend_Bearer b)))
                    <$> SharedStore.entry backendID (WatchedConfig.Backends y)).
  { rewrite <- lookup_fmap. fold (WatchedConfig.liveBackends h' c').
    rewrite Hreg, registry_lookup by now rewrite prod_map_fst.
    rewrite list_to_map_fmap, lookup_fmap, lookup_empty.
    unfold SharedStore.entry.
    now destruct (list_to_map (WatchedConfig.Backends y) !! backendID). }
  unfold WatchedConfig.GetBackend.
  destruct (SharedStore.entry backendID (WatchedConfig.Backends y)) as [b|];
    destruct (WatchedConfig.backends c' !! backendID) as [q|];
    try discriminate Hlook; cbn; (split; [reflexivity|]); [|reflexivity].
  injection Hlook as Hq. exists q. now repeat split.
Qed.

Lemma X14_watched_backends_witness :
  let r := WatchedConfig.Update (Fixtures.watchedEnv "users_only")
             (WatchedConfig.emptyConfig Fixtures.path) [] in
  (exists p, (WatchedConfig.GetBackend r.1.1 "svc" r.2).1 = Ok p /\
             backend_at r.2 p = Some (mkBackend "http://upstream" "secret")) /\
  (WatchedConfig.GetBackend r.1.1 "nowhere" r.2).1 = Err ErrNotFound.
Proof.
  cbv zeta.
  assert (Hnd : NoDup (WatchedConfig.Backends (Fixtures.watchedDoc "users_only")).*1)
    by (apply (bool_decide_unpack _); vm_compute; reflexivity).
  split.
  - destruct (X14_watched_backends (Fixtures.watchedEnv "users_only")
                (WatchedConfig.emptyConfig Fixtures.path) [] "doc"
                (Fixtures.watchedDoc "users_only") "svc" eq_refl eq_refl Hnd)
      as (_ & p & Hp & _ & Hb).
    now exists p.
  - apply (X14_watched_backends (Fixtures.watchedEnv "users_only")
             (WatchedConfig.emptyConfig Fixtures.path) [] "doc"
             (Fixtures.watchedDoc "users_only") "nowhere" eq_refl eq_refl Hnd).
Defined.

(** ** What [TestA2ATaskSendSubscribe] accepts *)

Section SubscribeTestFacts.

Import SubscribeTest.

Lemma onArtifact_ok a st : (onArtifact a st).1 = (onArtifact a start).1.
Proof.
  unfold onArtifact. destruct (Name a); [|reflexivity].
  destruct (Parts a) as [|part parts]; [reflexivity|].
  now destruct (PartType part).
Qed.

Lemma onArtifact_counters a st :
  (onArtifact a st).1 = true -> (onArtifact a st).2 = bump st.
Proof.
  unfold onArtifact. destruct (Name a); [|discriminate].
  destruct (Parts a) as [|part parts]; [reflexivity|].
  now destruct (PartType part).
Qed.

(** The loop after one event it goes on after. *)
Lemma consume_goesOn e rest st :
  goesOn e = true ->
  consume (Got e :: rest) st = consume rest (absorb st e).
Proof.
  unfold goesOn, absorb. cbn [consume].
  destruct (Error e); [discriminate|].
  destruct (Status e) as [state|].
  - intros Hfinal%negb_true_iff. rewrite Hfinal.
    now rewrite andb_false_r.
  - destruct (Artifact e) as [a|]; [|discriminate].
    intros Hok. rewrite <- (onArtifact_ok a st) in Hok.
    pose proof (onArtifact_counters a st Hok) as Hst.
    destruct (onArtifact a st) as [ok st']. cbn in Hok, Hst. now subst.
Qed.

Lemma consume_prefix pre : forall rest st,
  forallb goesOn pre = true ->
  consume ((Got <$> pre) ++ rest) st = consume rest (foldl absorb st pre).
Proof.
  induction pre as [|e pre IH]; intros rest st Hpre; [reflexivity|].
  cbn in Hpre. apply andb_true_iff in Hpre as [He Hpre].
  rewrite fmap_cons. cbn [app foldl].
  rewrite consume_goesOn by exact He. now apply IH.
Qed.

Lemma consume_final fin post st :
  isFinalCompleted fin = true ->
  consume (Got fin :: post) st =
    (EndLoop, {| receivedWorking := receivedWorking st;
                 receivedArtifacts := receivedArtifacts st;
                 receivedFinalCompleted := true;
                 errored := errored st |}).
Proof.
  unfold isFinalCompleted. intros H.
  apply andb_true_iff in H as [H Hfinal].
  apply andb_true_iff in H as [Herr Hstate].
  apply bool_decide_eq_true in Herr, Hstate.
  cbn [consume]. rewrite Herr, Hstate, Hfinal. reflexivity.
Qed.

(** What an event the loop goes on after leaves in the counters. *)
Lemma absorb_one st e :
  receivedWorking (absorb st e) = receivedWorking st || isWorking e /\
  errored (absorb st e) = errored st /\
  receivedFinalCompleted (absorb st e) = receivedFinalCompleted st /\
  (goesOn e = true ->
   (1 <=? receivedArtifacts (absorb st e))%nat =
     (1 <=? receivedArtifacts st)%nat || isArtifact e).
Proof.
  unfold absorb, isWorking, isArtifact, goesOn.
  destruct (Status e) as [state|].
  - rewrite (bool_decide_eq_false_2 (Some state = None)) by discriminate.
    rewrite andb_false_l, orb_false_r.
    destruct (decide (state = A2A.Working)) as [->|Hne].
    + rewrite !bool_decide_eq_true_2 by reflexivity.
      rewrite orb_true_r. now repeat split.
    + rewrite !bool_decide_eq_false_2 by congruence.
      rewrite orb_false_r. now repeat split.
  - rewrite (bool_decide_eq_false_2 (None = Some A2A.Working)) by discriminate.
    rewrite orb_false_r. split; [reflexivity|]. split; [reflexivity|].
    split; [reflexivity|].
    destruct (Error e); [discriminate|].
    destruct (Artifact e) as [a|]; [|discriminate]. intros _.
    rewrite bool_decide_eq_true_2 by reflexivity.
    rewrite bool_decide_eq_true_2 by (now eexists).
    cbn. now rewrite orb_true_r.
Qed.

Lemma absorb_fold pre : forall st,
  receivedWorking (foldl absorb st pre) =
    receivedWorking st || existsb isWorking pre /\
  errored (foldl absorb st pre) = errored st /\
  receivedFinalCompleted (foldl absorb st pre) = receivedFinalCompleted st /\
  (forallb goesOn pre = true ->
   (1 <=? receivedArtifacts (foldl absorb st pre))%nat =
     (1 <=? receivedArtifacts st)%nat || existsb isArtifact pre).
Proof.
  induction pre as [|e pre IH]; intros st; cbn [foldl existsb forallb].
  - rewrite !orb_false_r. now repeat split.
  - destruct (IH (absorb st e)) as (Hw & He & Hf & Ha).
    destruct (absorb_one st e) as (Hw1 & He1 & Hf1 & Ha1).
    rewrite Hw, He, Hf, Hw1, He1, Hf1, !orb_assoc.
    split; [reflexivity|]. split; [reflexivity|]. split; [reflexivity|].
    intros Hgo%andb_true_iff. destruct Hgo as [Hgo Hpre].
    now rewrite (Ha Hpre), (Ha1 Hgo).
Qed.

(** [t.Errorf] is never taken back. *)
Lemma consume_errored inbox : forall st x st',
  consume inbox st = (x, st') -> errored st = true -> errored st' = true.
Proof.
  induction inbox as [|[e| | |] rest IH]; intros st x st'; cbn [consume];
    try (intros [= <- <-]; tauto).
  destruct (Error e); [intros [= <- <-]; tauto|].
  destruct (Status e) as [state|].
  - assert (Hst1 : errored (if bool_decide (state = A2A.Working)
                            then sawWorking st else st) = errored st)
      by now destruct (bool_decide _).
    destruct (_ && Final e); [intros [= <- <-]; cbn; congruence|].
    destruct (Final e && _); [intros [= <- <-]; congruence|].
    intros Hc He. apply (IH _ _ _ Hc). congruence.
  - destruct (Artifact e) as [a|].
    + destruct (onArtifact a st) as [ok st1] eqn:Ha.
      assert (Hst1 : errored st1 = errored st).
      { unfold onArtifact in Ha. destruct (Name a); [|now injection Ha as _ <-].
        destruct (Parts a) as [|part ?]; [now injection Ha as _ <-|].
        destruct (PartType part); now injection Ha as _ <-. }
      destruct ok; [|intros [= <- <-]; congruence].
      intros Hc He. apply (IH _ _ _ Hc). congruence.
    + intros Hc _. now apply (IH _ _ _ Hc).
Qed.

(** A loop left through [EndLoop] with the final flag set and no
    [t.Errorf] read a run of events it goes on after and then a final
    completed status. *)
Lemma consume_EndLoop_inv inbox : forall st st',
  receivedFinalCompleted st = false -> errored st = false ->
  consume inbox st = (EndLoop, st') ->
  receivedFinalCompleted st' = true -> errored st' = false ->
  exists pre fin post,
    inbox = (Got <$> pre) ++ Got fin :: post /\
    forallb goesOn pre = true /\ isFinalCompleted fin = true.
Proof.
  induction inbox as [|[e| | |] rest IH]; intros st st' Hf He; cbn [consume];
    try discriminate.
  - destruct (Error e) eqn:Herr; [discriminate|].
    destruct (Status e) as [state|] eqn:Hstate.
    + destruct (bool_decide (state = A2A.Completed) && Final e) eqn:Hfin.
      * intros _ _ _. exists [], e, rest. split; [reflexivity|].
        split; [reflexivity|]. unfold isFinalCompleted.
        apply andb_true_iff in Hfin as [Hc Hfin].
        apply bool_decide_eq_true in Hc as ->.
        rewrite Herr, Hstate, Hfin. reflexivity.
      * destruct (Final e && _) eqn:Hfatal; [discriminate|].
        intros Hc Hf' He'.
        assert (Hf1 : receivedFinalCompleted
                        (if bool_decide (state = A2A.Working)
                         then sawWorking st else st) = false)
          by now destruct (bool_decide (state = A2A.Working)).
        assert (He1 : errored (if bool_decide (state = A2A.Working)
                               then sawWorking st else st) = false)
          by now destruct (bool_decide (state = A2A.Working)).
        destruct (IH _ st' Hf1 He1 Hc Hf' He')
          as (pre & fin & post & -> & Hpre & Hfinc).
        exists (e :: pre), fin, post. split; [reflexivity|].
        split; [|exact Hfinc]. cbn [forallb]. rewrite Hpre, andb_true_r.
        unfold goesOn. rewrite Herr, Hstate.
        destruct (Final e); [|reflexivity]. cbn in Hfin, Hfatal.
        rewrite andb_true_r in Hfin. now rewrite Hfin in Hfatal.
    + destruct (Artifact e) as [a|] eqn:Hart.
      * destruct (onArtifact a st) as [ok st1] eqn:Ha.
        destruct ok; [|discriminate]. intros Hc Hf' He'.
        pose proof (onArtifact_counters a st) as Hst1.
        rewrite Ha in Hst1. cbn in Hst1. rewrite (Hst1 eq_refl) in Hc.
        destruct (IH (bump st) st' Hf He Hc Hf' He')
          as (pre & fin & post & -> & Hpre & Hfinc).
        exists (e :: pre), fin, post. split; [reflexivity|].
        split; [|exact Hfinc]. cbn [forallb]. rewrite Hpre, andb_true_r.
        unfold goesOn. rewrite Herr, Hstate, Hart.
        rewrite <- (onArtifact_ok a st). now rewrite Ha.
      * intros Hc _ He'. apply consume_errored in Hc; [|reflexivity].
        congruence.
  - intros [= <-]. congruence.
Qed.

End SubscribeTestFacts.

(** X15. [TestA2ATaskSendSubscribe] passes exactly on a channel that
    delivers a run of events the loop goes on after (no error value; a
    status update that is not final, or an artifact update whose name and
    first part type are set), among them a [working] status and an artifact,
    and then a final [completed] status without error value.  What the
    channel delivers after that status is never read. *)
Theorem X15_subscribe_test_accepts (inbox : list SubscribeTest.Receipt) :
  SubscribeTest.passes inbox = true <->
  exists pre fin post,
    inbox = (SubscribeTest.Got <$> pre) ++ SubscribeTest.Got fin :: post /\
    forallb SubscribeTest.goesOn pre = true /\
    SubscribeTest.isFinalCompleted fin = true /\
    existsb SubscribeTest.isWorking pre = true /\
    existsb SubscribeTest.isArtifact pre = true.
Proof.
  unfold SubscribeTest.passes. split.
  - destruct (SubscribeTest.consume inbox SubscribeTest.start)
      as [[| | |] st'] eqn:Hc; try discriminate.
    intros H. apply andb_true_iff in H as [H Hfin].
    apply andb_true_iff in H as [H Hart].
    apply andb_true_iff in H as [Herr Hwork].
    apply negb_true_iff in Herr.
    destruct (consume_EndLoop_inv inbox SubscribeTest.start st'
                eq_refl eq_refl Hc Hfin Herr)
      as (pre & fin & post & -> & Hpre & Hfinc).
    exists pre, fin, post. split; [reflexivity|].
    split; [exact Hpre|]. split; [exact Hfinc|].
    rewrite (consume_prefix pre _ _ Hpre),
      (consume_final fin post _ Hfinc) in Hc.
    injection Hc as <-.
    cbn [SubscribeTest.receivedWorking SubscribeTest.receivedArtifacts]
      in Hwork, Hart.
    destruct (absorb_fold pre SubscribeTest.start) as (Hw & _ & _ & Ha).
    rewrite Hw in Hwork. rewrite (Ha Hpre) in Hart. now split.
  - intros (pre & fin & post & -> & Hpre & Hfinc & Hwork & Hart).
    rewrite (consume_prefix pre _ _ Hpre), (consume_final fin post _ Hfinc).
    destruct (absorb_fold pre SubscribeTest.start) as (Hw & He & _ & Ha).
    cbn [SubscribeTest.errored SubscribeTest.receivedWorking
         SubscribeTest.receivedArtifacts SubscribeTest.receivedFinalCompleted].
    rewrite Hw, He, (Ha Hpre), Hwork, Hart. reflexivity.
Qed.

(** A working status, a named artifact and a final completed status pass;
    the event after the final status is not read. *)
Lemma X15_subscribe_test_accepts_witness :
  let status s final :=
    {| SubscribeTest.Status := Some s; SubscribeTest.Artifact := None;
       SubscribeTest.Final := final; SubscribeTest.Error := None |} in
  let artifact :=
    {| SubscribeTest.Status := None;
       SubscribeTest.Artifact :=
         Some {| SubscribeTest.Name := Some "index.html";
                 SubscribeTest.Parts :=
                   [{| SubscribeTest.PartType := Some "text" |}] |};
       SubscribeTest.Final := false; SubscribeTest.Error := None |} in
  SubscribeTest.passes
    [SubscribeTest.Got (status A2A.Working false);
     SubscribeTest.Got artifact;
     SubscribeTest.Got (status A2A.Completed true);
     SubscribeTest.Got (status A2A.Failed true)] = true.
Proof.
  intros status artifact.
  apply (proj2 (X15_subscribe_test_accepts _)).
  exists [status A2A.Working false; artifact], (status A2A.Completed true),
    [SubscribeTest.Got (status A2A.Failed true)].
  split; [reflexivity|]. split; [reflexivity|]. split; [reflexivity|].
  split; reflexivity.
Defined.

(** An artifact update without a name makes the test dereference nil. *)
Example subscribe_test_nameless_artifact :
  (SubscribeTest.consume
     [SubscribeTest.Got
        {| SubscribeTest.Status := None;
           SubscribeTest.Artifact :=
             Some {| SubscribeTest.Name := None; SubscribeTest.Parts := [] |};
           SubscribeTest.Final := false; SubscribeTest.Error := None |}]
     SubscribeTest.start).1 = SubscribeTest.Panic.
Proof. reflexivity. Qed.


(** ** The form rules of the portal *)

Section ValidationFacts.

Import Validation.

Lemma accepts_Nothing s : accepts Nothing s = false.
Proof. induction s; simpl; auto. Qed.

Lemma accepts_Cat_Nothing r s : accepts (Cat Nothing r) s = false.
Proof. induction s; simpl; auto. Qed.

Lemma accepts_Eps s : accepts Eps s = true <-> s = [].
Proof.
destruct s as [|c s]; simpl; [tauto|].
rewrite accepts_Nothing. split; discriminate.
Qed.

Lemma accepts_Class p s :
  accepts (Class p) s = true <-> exists c, s = [c] /\ p c = true.
Proof.
destruct s as [|c s]; simpl.
- split; [discriminate | intros (c & H & _); discriminate].
- destruct (p c) eqn:Hc.
  + rewrite accepts_Eps. split.
    * intros ->. eauto.
    * intros (c' & H & _). congruence.
  + rewrite accepts_Nothing. split; [discriminate|].
    intros (c' & H & Hc'). congruence.
Qed.

Lemma accepts_Alt a b s : accepts (Alt a b) s = accepts a s || accepts b s.
Proof. revert a b. induction s; intros; simpl; auto. Qed.

Lemma accepts_Cat a b s :
  accepts (Cat a b) s = true <->
  exists s1 s2, s = s1 ++ s2 /\ accepts a s1 = true /\ accepts b s2 = true.
Proof.
revert a. induction s as [|c s IH]; intros a.
- simpl. rewrite andb_true_iff. split.
  + intros [H1 H2]. exists [], []. auto.
  + intros (s1 & s2 & H & H1 & H2).
    symmetry in H. apply app_eq_nil in H as [-> ->]. auto.
- simpl. destruct (nullable a) eqn:Hn.
  + rewrite accepts_Alt, orb_true_iff, IH. split.
    * intros [(s1 & s2 & -> & H1 & H2) | H].
      -- exists (c :: s1), s2. auto.
      -- exists [], (c :: s). auto.
    * intros (s1 & s2 & H & H1 & H2). destruct s1 as [|c' s1].
      -- simpl in H. subst s2. right. exact H2.
      -- injection H as <- ->. left. eauto.
  + rewrite IH. split.
    * intros (s1 & s2 & -> & H1 & H2). exists (c :: s1), s2. auto.
    * intros (s1 & s2 & H & H1 & H2). destruct s1 as [|c' s1].
      -- simpl in H1. congruence.
      -- injection H as <- ->. eauto.
Qed.

Lemma accepts_Cat_Eps r s : accepts (Cat Eps r) s = accepts r s.
Proof.
destruct s as [|c s]; simpl; [reflexivity|].
rewrite accepts_Alt, accepts_Cat_Nothing. reflexivity.
Qed.

Lemma accepts_Star_Class p s : accepts (Star (Class p)) s = forallb p s.
Proof.
induction s as [|c s IH]; simpl; [reflexivity|].
destruct (p c); simpl.
- rewrite accepts_Cat_Eps. exact IH.
- apply accepts_Cat_Nothing.
Qed.

Lemma accepts_anything s : accepts anything s = true.
Proof.
unfold anything. rewrite accepts_Star_Class. induction s; simpl; auto.
Qed.

Lemma accepts_plus_Class p s :
  accepts (plus (Class p)) s = true <-> s <> [] /\ forallb p s = true.
Proof.
unfold plus. rewrite accepts_Cat. split.
- intros (s1 & s2 & -> & H1 & H2).
  apply accepts_Class in H1 as (c & -> & Hc).
  rewrite accepts_Star_Class in H2. split; [discriminate|].
  simpl. rewrite Hc, H2. reflexivity.
- intros [Hne H]. destruct s as [|c s]; [congruence|].
  simpl in H. apply andb_true_iff in H as [Hc H].
  exists [c], s. rewrite accepts_Class, accepts_Star_Class. eauto.
Qed.

Lemma accepts_lit w r s :
  accepts (lit w r) s = true <->
  exists rest, s = w ++ rest /\ accepts r rest = true.
Proof.
revert s. induction w as [|c w IH]; intros s; simpl lit.
- split; [eauto|]. intros (rest & -> & H). exact H.
- rewrite accepts_Cat. split.
  + intros (s1 & s2 & -> & H1 & H2).
    apply accepts_Class in H1 as (c' & -> & Hc).
    apply N.eqb_eq in Hc as <-.
    apply IH in H2 as (rest & -> & H). exists rest. auto.
  + intros (rest & -> & H). exists [c], (w ++ rest).
    split; [reflexivity|]. split.
    * apply accepts_Class. exists c. rewrite N.eqb_refl. auto.
    * apply IH. eauto.
Qed.

Lemma accepts_scheme r s :
  accepts (scheme r) s = true <->
  exists rest, (s = units "http://" ++ rest \/ s = units "https://" ++ rest)
               /\ accepts r rest = true.
Proof.
unfold scheme. rewrite accepts_lit. split.
- intros (rest & -> & H).
  apply accepts_Cat in H as (s1 & s2 & -> & H1 & H2).
  unfold opt, chr in H1. rewrite accepts_Alt, orb_true_iff in H1.
  apply accepts_lit in H2 as (rest' & -> & H2). exists rest'.
  destruct H1 as [H1 | H1].
  + apply accepts_Class in H1 as (c & -> & Hc).
    apply N.eqb_eq in Hc as <-. split; [right; reflexivity | exact H2].
  + apply accepts_Eps in H1 as ->. split; [left; reflexivity | exact H2].
- intros (rest & [-> | ->] & H).
  + exists (units "://" ++ rest). split; [reflexivity|].
    apply accepts_Cat. exists [], (units "://" ++ rest).
    split; [reflexivity|]. split; [reflexivity|].
    apply accepts_lit. eauto.
  + exists (units "s://" ++ rest). split; [reflexivity|].
    apply accepts_Cat. exists (units "s"), (units "://" ++ rest).
    split; [reflexivity|]. split; [reflexivity|].
    apply accepts_lit. eauto.
Qed.

Lemma test_whole r s : test true r true s = accepts r s.
Proof.
unfold test. rewrite accepts_Cat_Eps.
apply eq_true_iff_eq. rewrite accepts_Cat. split.
- intros (s1 & s2 & -> & H1 & H2). apply accepts_Eps in H2 as ->.
  rewrite app_nil_r. exact H1.
- intros H. exists s, []. rewrite app_nil_r. auto.
Qed.

Lemma test_prefix r s :
  test true r false s = true <->
  exists s1 s2, s = s1 ++ s2 /\ accepts r s1 = true.
Proof.
unfold test. rewrite accepts_Cat_Eps, accepts_Cat. split.
- intros (s1 & s2 & -> & H1 & _). eauto.
- intros (s1 & s2 & -> & H1). exists s1, s2. rewrite accepts_anything. auto.
Qed.

Lemma test_search r s :
  test false r false s = true <->
  exists pre m post, s = pre ++ m ++ post /\ accepts r m = true.
Proof.
unfold test. rewrite accepts_Cat. split.
- intros (pre & s2 & -> & _ & H).
  apply accepts_Cat in H as (m & post & -> & H & _). eauto.
- intros (pre & m & post & -> & H). exists pre, (m ++ post).
  rewrite accepts_anything, accepts_Cat. split; [reflexivity|].
  split; [reflexivity|]. exists m, post. rewrite accepts_anything. auto.
Qed.

Lemma orElse_Valid c message : orElse c message = Valid <-> c = true.
Proof. destruct c; simpl; split; congruence. Qed.

Lemma truthy_false v : negb (truthy v) = true <-> v = [].
Proof. destruct v; simpl; split; congruence. Qed.

Lemma starts_with_scheme v :
  test true simpleUrlPattern false v = true <->
  units "http://" `prefix_of` v \/ units "https://" `prefix_of` v.
Proof.
rewrite test_prefix. unfold simpleUrlPattern. split.
- intros (s1 & s2 & -> & H).
  apply accepts_scheme in H as (rest & [-> | ->] & H);
    apply accepts_Eps in H as ->; rewrite app_nil_r;
    [left | right]; exists s2; reflexivity.
- intros [[rest ->] | [rest ->]]; eexists _, rest;
    (split; [reflexivity|]); apply accepts_scheme; exists [];
    rewrite app_nil_r; auto.
Qed.

Lemma url_shape v :
  test true urlPattern true v = true <->
  exists sch c1 c2 rest,
    sch ∈ [units "http://"; units "https://"] /\
    v = sch ++ c1 :: c2 :: rest /\
    hostStart c1 = true /\ isLineTerminator c2 = false /\
    forallb notSpace rest = true.
Proof.
rewrite test_whole. unfold urlPattern. rewrite accepts_scheme. split.
- intros (rest & Hv & H).
  apply accepts_Cat in H as (s1 & s2 & -> & H1 & H2).
  apply accepts_Class in H1 as (c1 & -> & Hc1).
  apply accepts_Cat in H2 as (s2' & s3 & -> & H2 & H3).
  apply accepts_Class in H2 as (c2 & -> & Hc2).
  rewrite accepts_Star_Class in H3.
  apply negb_true_iff in Hc2.
  destruct Hv as [-> | ->].
  + exists (units "http://"), c1, c2, s3. repeat split; auto.
    constructor.
  + exists (units "https://"), c1, c2, s3. repeat split; auto.
    constructor. constructor.
- intros (sch & c1 & c2 & rest & Hsch & -> & Hc1 & Hc2 & Hrest).
  exists (c1 :: c2 :: rest). split.
  + inversion_clear Hsch as [|? ? ? Hsch']; [left; reflexivity|].
    inversion_clear Hsch' as [|? ? ? Hsch'']; [right; reflexivity|].
    inversion Hsch''.
  + apply accepts_Cat. exists [c1], (c2 :: rest).
    split; [reflexivity|]. split.
    * apply accepts_Class. eauto.
    * apply accepts_Cat. exists [c2], rest.
      split; [reflexivity|]. split.
      -- apply accepts_Class. exists c2. rewrite Hc2. auto.
      -- rewrite accepts_Star_Class. exact Hrest.
Qed.

Lemma email_shape v :
  test false emailPattern false v = true <->
  exists pre a b mid c post,
    v = pre ++ a :: units "@" ++ b :: mid ++ units "." ++ c :: post /\
    isLineTerminator a = false /\ isLineTerminator b = false /\
    forallb (fun c => negb (isLineTerminator c)) mid = true /\
    isLineTerminator c = false.
Proof.
rewrite test_search. unfold emailPattern, dot, chr. split.
- intros (pre & m & post & -> & H).
  apply accepts_Cat in H as (A & m1 & -> & HA & H).
  apply accepts_Cat in H as (at' & m2 & -> & Hat & H).
  apply accepts_Cat in H as (B & m3 & -> & HB & H).
  apply accepts_Cat in H as (pt & C & -> & Hpt & HC).
  apply accepts_Class in Hat as (x & -> & Hx). apply N.eqb_eq in Hx as <-.
  apply accepts_Class in Hpt as (y & -> & Hy). apply N.eqb_eq in Hy as <-.
  apply accepts_plus_Class in HA as [HAne HA].
  apply accepts_plus_Class in HB as [HBne HB].
  apply accepts_plus_Class in HC as [HCne HC].
  destruct (exists_last HAne) as (A0 & a & ->).
  destruct B as [|b mid]; [congruence|].
  destruct C as [|c C']; [congruence|].
  rewrite forallb_app in HA. apply andb_true_iff in HA as [_ Ha].
  simpl in Ha, HB, HC.
  apply andb_true_iff in Ha as [Ha _].
  apply andb_true_iff in HB as [Hb Hmid].
  apply andb_true_iff in HC as [Hc _].
  apply negb_true_iff in Ha, Hb, Hc.
  exists (pre ++ A0), a, b, mid, c, (C' ++ post).
  split; [|auto].
  rewrite <- ?app_assoc. simpl. rewrite <- ?app_assoc. reflexivity.
- intros (pre & a & b & mid & c & post & -> & Ha & Hb & Hmid & Hc).
  exists pre, (a :: units "@" ++ b :: mid ++ units "." ++ [c]), post.
  split; [simpl; rewrite <- ?app_assoc; reflexivity|].
  apply accepts_Cat. exists [a], (units "@" ++ b :: mid ++ units "." ++ [c]).
  split; [reflexivity|]. split.
  { apply accepts_plus_Class. split; [discriminate|].
    simpl. rewrite Ha. reflexivity. }
  apply accepts_Cat. exists (units "@"), (b :: mid ++ units "." ++ [c]).
  split; [reflexivity|]. split; [reflexivity|].
  apply accepts_Cat. exists (b :: mid), (units "." ++ [c]).
  split; [reflexivity|]. split.
  { apply accepts_plus_Class. split; [discriminate|].
    simpl. rewrite Hb, Hmid. reflexivity. }
  apply accepts_Cat. exists (units "."), [c].
  split; [reflexivity|]. split; [reflexivity|].
  apply accepts_plus_Class. split; [discriminate|].
  simpl. rewrite Hc. reflexivity.
Qed.

Lemma url_Valid v :
  url v = Valid <->
  v = [] \/
  exists sch c1 c2 rest,
    sch ∈ [units "http://"; units "https://"] /\
    v = sch ++ c1 :: c2 :: rest /\
    hostStart c1 = true /\ isLineTerminator c2 = false /\
    forallb notSpace rest = true.
Proof.
unfold url. rewrite orElse_Valid, orb_true_iff, truthy_false, url_shape.
reflexivity.
Qed.

Lemma scheme_cases (sch : jsString) :
  sch ∈ [units "http://"; units "https://"] ->
  sch = units "http://" \/ sch = units "https://".
Proof.
intros Hsch.
inversion_clear Hsch as [|? ? ? Hsch']; [left; reflexivity|].
inversion_clear Hsch' as [|? ? ? Hsch'']; [right; reflexivity|].
inversion Hsch''.
Qed.

Lemma serverUrl_all v :
  Forall (fun rule : jsString -> verdict => rule v = Valid) serverUrl <->
  units "http://" `prefix_of` v \/ units "https://" `prefix_of` v.
Proof.
unfold serverUrl. rewrite !Forall_cons, !orElse_Valid, starts_with_scheme.
split.
- intros (_ & H & _). exact H.
- intros H. split; [|split; [exact H | constructor]].
  destruct H as [[rest ->] | [rest ->]]; reflexivity.
Qed.

End ValidationFacts.

(** X16. The [simpleUrl] rule passes the empty value and the values that
    begin with [http://] or [https://], whatever follows; the two rules of
    [serverUrl] together pass the latter only. *)
Theorem X16_url_prefix_rules (v : Validation.jsString) :
  let begins :=
    Validation.units "http://" `prefix_of` v \/
    Validation.units "https://" `prefix_of` v in
  (Validation.simpleUrl v = Validation.Valid <-> v = [] \/ begins) /\
  (Forall (fun rule : Validation.jsString -> Validation.verdict =>
             rule v = Validation.Valid) Validation.serverUrl <-> begins).
Proof.
intros begins. split; [|apply serverUrl_all].
unfold Validation.simpleUrl.
rewrite orElse_Valid, orb_true_iff, truthy_false, starts_with_scheme.
reflexivity.
Qed.

(** [https://] on its own is enough for both. *)
Lemma X16_url_prefix_rules_witness :
  Validation.simpleUrl (Validation.units "https://") = Validation.Valid /\
  Forall (fun rule : Validation.jsString -> Validation.verdict =>
            rule (Validation.units "https://") = Validation.Valid)
         Validation.serverUrl.
Proof.
split.
- apply (proj1 (X16_url_prefix_rules (Validation.units "https://"))).
  right. right. exists []. reflexivity.
- apply (proj2 (X16_url_prefix_rules (Validation.units "https://"))).
  right. exists []. reflexivity.
Defined.

(** X17. The [url] rule passes the empty value and the values made of
    [http://] or [https://], one character that is neither white space nor
    one of [$ . ? #], one character that is no line terminator, and any
    number of characters that are not white space; nothing else. *)
Theorem X17_url_shape (v : Validation.jsString) :
  Validation.url v = Validation.Valid <->
  v = [] \/
  exists sch c1 c2 rest,
    sch ∈ [Validation.units "http://"; Validation.units "https://"] /\
    v = sch ++ c1 :: c2 :: rest /\
    Validation.hostStart c1 = true /\
    Validation.isLineTerminator c2 = false /\
    forallb Validation.notSpace rest = true.
Proof.
exact (url_Valid v).
Qed.

(** The second character after the scheme may be a space. *)
Lemma X17_url_shape_witness :
  Validation.url (Validation.units "http://a b") = Validation.Valid.
Proof.
apply (proj2 (X17_url_shape (Validation.units "http://a b"))).
right. exists (Validation.units "http://"), 97%N, 32%N, (Validation.units "b").
split; [constructor|]. split; [reflexivity|].
split; [reflexivity|]. split; reflexivity.
Defined.

(** X18. A value the [url] rule passes is passed by [simpleUrl], and, when
    it is not empty, by both rules of [serverUrl]. *)
Theorem X18_url_implies_simpleUrl (v : Validation.jsString)
    (Hurl : Validation.url v = Validation.Valid) :
  Validation.simpleUrl v = Validation.Valid /\
  (v <> [] ->
   Forall (fun rule : Validation.jsString -> Validation.verdict =>
             rule v = Validation.Valid) Validation.serverUrl).
Proof.
assert (Hbegins : v = [] \/
    (Validation.units "http://" `prefix_of` v \/
     Validation.units "https://" `prefix_of` v)).
{ apply url_Valid in Hurl as [-> | Hurl]; [left; reflexivity|].
  right. destruct Hurl as (sch & c1 & c2 & rest & Hsch & -> & _).
  destruct (scheme_cases sch Hsch) as [-> | ->];
    [left | right]; eexists; reflexivity. }
split.
- unfold Validation.simpleUrl.
  rewrite orElse_Valid, orb_true_iff, truthy_false, starts_with_scheme.
  exact Hbegins.
- intros Hne. apply serverUrl_all. destruct Hbegins; [congruence | assumption].
Qed.

(** [http://ab] passes all three. *)
Lemma X18_url_implies_simpleUrl_witness :
  Validation.url (Validation.units "http://ab") = Validation.Valid /\
  Validation.simpleUrl (Validation.units "http://ab") = Validation.Valid /\
  Forall (fun rule : Validation.jsString -> Validation.verdict =>
            rule (Validation.units "http://ab") = Validation.Valid)
         Validation.serverUrl.
Proof.
split; [reflexivity|]. split.
- exact (proj1 (X18_url_implies_simpleUrl
                  (Validation.units "http://ab") eq_refl)).
- apply (proj2 (X18_url_implies_simpleUrl
                  (Validation.units "http://ab") eq_refl)).
  discriminate.
Defined.

(** X19. With fewer than two characters after [http://] or [https://] a
    value fails the [url] rule, while [simpleUrl] and both rules of
    [serverUrl] pass it: an address such as [http://a] is accepted by the
    one and refused by the other. *)
Theorem X19_url_needs_two_characters (sch rest : Validation.jsString)
    (Hsch : sch ∈ [Validation.units "http://"; Validation.units "https://"])
    (Hshort : (List.length rest < 2)%nat) :
  Validation.url (sch ++ rest) = Validation.Message "Please enter a valid URL"
  /\ Validation.simpleUrl (sch ++ rest) = Validation.Valid
  /\ Forall (fun rule : Validation.jsString -> Validation.verdict =>
               rule (sch ++ rest) = Validation.Valid) Validation.serverUrl.
Proof.
assert (Hbegins :
    Validation.units "http://" `prefix_of` (sch ++ rest) \/
    Validation.units "https://" `prefix_of` (sch ++ rest)).
{ destruct (scheme_cases sch Hsch) as [-> | ->];
    [left | right]; exists rest; reflexivity. }
split; [|split].
- destruct (Validation.url (sch ++ rest)) as [|text] eqn:Hurl.
  + exfalso. apply url_Valid in Hurl as [Hnil | Hurl].
    * destruct (scheme_cases sch Hsch) as [-> | ->]; discriminate Hnil.
    * destruct Hurl as (sch' & c1 & c2 & rest' & Hsch' & Heq & _).
      destruct (scheme_cases sch Hsch) as [-> | ->];
        destruct (scheme_cases sch' Hsch') as [-> | ->];
        destruct rest as [|a [|b rest]]; simpl in Hshort; try lia;
        discriminate Heq.
  + unfold Validation.url, Validation.orElse in Hurl.
    destruct (_ || _); [discriminate | symmetry; exact Hurl].
- unfold Validation.simpleUrl.
  rewrite orElse_Valid, orb_true_iff, starts_with_scheme. right. exact Hbegins.
- apply serverUrl_all. exact Hbegins.
Qed.

Lemma X19_url_needs_two_characters_witness :
  Validation.url (Validation.units "http://a")
    = Validation.Message "Please enter a valid URL" /\
  Validation.simpleUrl (Validation.units "http://a") = Validation.Valid.
Proof.
assert (Hin : Validation.units "http://" ∈
              [Validation.units "http://"; Validation.units "https://"])
  by constructor.
assert (Hshort : (List.length (Validation.units "a") < 2)%nat)
  by (vm_compute; lia).
split.
- exact (proj1 (X19_url_needs_two_characters _ _ Hin Hshort)).
- exact (proj1 (proj2 (X19_url_needs_two_characters _ _ Hin Hshort))).
Defined.

(** X20. The [email] rule passes the empty value and the values that
    contain, next to one another and with no line terminator among them, a
    character, [@], one character or more, a full stop and a character;
    what stands before and after is not looked at. *)
Theorem X20_email_shape (v : Validation.jsString) :
  Validation.email v = Validation.Valid <->
  v = [] \/
  exists pre a b mid c post,
    v = pre ++ a :: Validation.units "@" ++ b :: mid
            ++ Validation.units "." ++ c :: post /\
    Validation.isLineTerminator a = false /\
    Validation.isLineTerminator b = false /\
    forallb (fun c => negb (Validation.isLineTerminator c)) mid = true /\
    Validation.isLineTerminator c = false.
Proof.
unfold Validation.email.
rewrite orElse_Valid, orb_true_iff, truthy_false, email_shape.
reflexivity.
Qed.

(** Text around the address does not matter, spaces included. *)
Lemma X20_email_shape_witness :
  Validation.email (Validation.units "to a@b.c !") = Validation.Valid.
Proof.
apply (proj2 (X20_email_shape (Validation.units "to a@b.c !"))).
right.
exists (Validation.units "to "), 97%N, 98%N, [], 99%N, (Validation.units " !").
split; [reflexivity|]. split; [reflexivity|]. split; [reflexivity|].
split; reflexivity.
Defined.

(** A full stop right after [@] does not count as the character between
    them, and a line break between [@] and the full stop breaks the match. *)
Example email_refused :
  Validation.email (Validation.units "a@.c")
    = Validation.Message "Please enter a valid email" /\
  Validation.email (Validation.units "a@b" ++ 10%N :: Validation.units ".c")
    = Validation.Message "Please enter a valid email".
Proof. split; reflexivity. Qed.
